(** * Freshdesk activity report: rate limiter, acquisition layer, aggregation engine

    A shallow embedding of
      - [services/apiUtils.ts]       ([RateLimiter], [ConcurrencyQueue],
        [fetchWithRetry]),
      - the Freshdesk service module ([getTargetUrl], [handleApiError],
        [executeRequest], [fetchPaginatedFreshdeskAPI],
        [getTicketsUpdatedInPeriod], [getConversations], [getActiveTickets]),
      - [utils/logicUtils.ts]        ([cleanGroupName], [cleanGroupMap],
        [constrainTimeEstimate], [autoCategorizeTicket],
        [calculateAllAgentActivity]),
      - [services/cacheService.ts]   (the cache of conversations),
      - [services/debugService.ts]   (the log buffer)
    followed by the properties of these functions.

    Conventions of the embedding.
      - A JavaScript number holding an instant, a count or a number of minutes
        is an integer of [Z]; instants are milliseconds since the epoch, that
        is, the time value of the [Date] built from the field.
      - A JavaScript string is a [string] of one-byte characters, the code
        units U+0000 to U+00FF; [length] is the number of characters.  The
        upper-cased name of an agent, which can leave these characters, is a
        list of code units.
      - A [Map] is an insertion-ordered association list with unique keys
        ([JsMap]); a [Set<number>] that is only added to, queried and measured
        is a [gset Z]. *)

From Stdlib Require Import ZArith List Lia String Ascii QArith Qround.
From Stdlib Require Import DecimalString DecimalPos DecimalZ Sorted.
From stdpp Require Import base gmap strings list.

Local Open Scope Z_scope.

(** ** JavaScript strings *)

Module Js.

Definition isUpper (c : ascii) : bool :=
  let n := nat_of_ascii c in (65 <=? n)%nat && (n <=? 90)%nat.

Definition isLower (c : ascii) : bool :=
  let n := nat_of_ascii c in (97 <=? n)%nat && (n <=? 122)%nat.

Definition isDigit (c : ascii) : bool :=
  let n := nat_of_ascii c in (48 <=? n)%nat && (n <=? 57)%nat.

(** White space removed by [String.prototype.trim], among one-byte
    characters: tab to carriage return, the space and the no-break space. *)
Definition isSpace (c : ascii) : bool :=
  let n := nat_of_ascii c in
  ((9 <=? n)%nat && (n <=? 13)%nat) || (n =? 32)%nat || (n =? 160)%nat.

(** [c.toLowerCase()]: the capitals among one-byte characters are A to Z,
    U+00C0 to U+00D6 and U+00D8 to U+00DE, each 32 below its small letter. *)
Definition lowerChar (c : ascii) : ascii :=
  let n := nat_of_ascii c in
  if isUpper c || ((192 <=? n)%nat && (n <=? 214)%nat) || ((216 <=? n)%nat && (n <=? 222)%nat)
  then ascii_of_nat (n + 32) else c.

(** The code units of [c.toUpperCase()].  The small letters a to z, U+00E0 to
    U+00F6 and U+00F8 to U+00FE lie 32 above their capitals; the sharp s
    becomes "SS"; the micro sign and the y with diaeresis have their capitals
    at U+039C and U+0178, which are not one-byte characters. *)
Definition upperUnits (c : ascii) : list N :=
  let n := N_of_ascii c in
  (if ((97 <=? n) && (n <=? 122)) || ((224 <=? n) && (n <=? 246))
      || ((248 <=? n) && (n <=? 254)) then [n - 32]
   else if n =? 223 then [83; 83]
   else if n =? 181 then [924]
   else if n =? 255 then [376]
   else [n])%N.

Fixpoint mapChars (f : ascii -> ascii) (s : string) : string :=
  match s with
  | EmptyString => EmptyString
  | String c r => String (f c) (mapChars f r)
  end.

Definition toLowerCase : string -> string := mapChars lowerChar.

(** [s.toUpperCase()], as UTF-16 code units: the result of upper-casing
    a string of one-byte characters need not be one. *)
Definition toUpperCase (s : string) : list N :=
  flat_map upperUnits (list_ascii_of_string s).

Fixpoint trimStart (s : string) : string :=
  match s with
  | String c r => if isSpace c then trimStart r else s
  | EmptyString => EmptyString
  end.

(** [trimEnd] keeps a character when it is not white space or when something
    that is kept follows it. *)
Fixpoint trimEnd (s : string) : string :=
  match s with
  | EmptyString => EmptyString
  | String c r =>
      match trimEnd r with
      | EmptyString => if isSpace c then EmptyString else String c EmptyString
      | r' => String c r'
      end
  end.

Definition trim (s : string) : string := trimEnd (trimStart s).

(** [hay.includes(needle)] *)
Definition includes (hay needle : string) : bool :=
  match String.index 0 needle hay with
  | Some _ => true
  | None => false
  end.

Definition startsWith (s p : string) : bool := String.prefix p s.

(** [s.substring(0, n)] *)
Definition substring0 (n : nat) (s : string) : string := String.substring 0 n s.

(** [String(n)] and template interpolation of an integer. *)
Definition ofZ (n : Z) : string := NilZero.string_of_int (Z.to_int n).

(** [s.padStart(2, '0')] *)
Definition padStart2 (s : string) : string :=
  match String.length s with
  | O => "00"
  | S O => "0" ++ s
  | _ => s
  end%string.

Definition padStart4 (s : string) : string :=
  match String.length s with
  | O => "0000"
  | 1%nat => "000" ++ s
  | 2%nat => "00" ++ s
  | 3%nat => "0" ++ s
  | _ => s
  end%string.

(** Code-unit order, to which [localeCompare] reduces on the digit-and-hyphen
    keys it is applied to here. *)
Definition strLe (a b : string) : bool := String.leb a b.

(** [Array.prototype.sort] is stable; [le a b] stands for [cmp(a, b) <= 0]. *)
Section Sort.
Context {A : Type} (le : A -> A -> bool).

Fixpoint insertSorted (x : A) (l : list A) : list A :=
  match l with
  | [] => [x]
  | y :: r => if le x y then x :: l else y :: insertSorted x r
  end.

Definition sort (l : list A) : list A := foldr insertSorted [] l.

End Sort.

(** [parseInt(s, 10)]: leading white space, an optional sign, then the longest
    run of digits; [None] stands for [NaN]. *)
Fixpoint digitsValue (acc : option Z) (s : string) : option Z :=
  match s with
  | String c r =>
      if isDigit c
      then digitsValue (Some (10 * default 0 acc + Z.of_nat (nat_of_ascii c - 48))) r
      else acc
  | EmptyString => acc
  end.

Definition parseInt (s : string) : option Z :=
  match trimStart s with
  | String "-" r => Z.opp <$> digitsValue None r
  | String "+" r => digitsValue None r
  | r => digitsValue None r
  end.

(** Percent-encoding of the characters outside [safe]: each byte of the
    UTF-8 encoding of the character, in upper-case hex.  A one-byte character
    from U+0080 on has two bytes in UTF-8. *)
Definition hexDigit (n : nat) : ascii :=
  if (n <? 10)%nat then ascii_of_nat (48 + n) else ascii_of_nat (55 + n).

Definition utf8 (c : ascii) : list nat :=
  let n := nat_of_ascii c in
  if (n <? 128)%nat then [n] else [192 + n / 64; 128 + n mod 64]%nat.

Definition percentByte (b : nat) (rest : string) : string :=
  String "%" (String (hexDigit (b / 16)) (String (hexDigit (b mod 16)) rest)).

Fixpoint percentEncode (safe : ascii -> bool) (s : string) : string :=
  match s with
  | EmptyString => EmptyString
  | String c r =>
      if safe c then String c (percentEncode safe r)
      else foldr percentByte (percentEncode safe r) (utf8 c)
  end.

Definition isAlnum (c : ascii) : bool := isUpper c || isLower c || isDigit c.

Definition oneOf (cs : string) (c : ascii) : bool :=
  existsb (Ascii.eqb c) (list_ascii_of_string cs).

(** [encodeURIComponent] *)
Definition encodeURIComponent : string -> string :=
  percentEncode (fun c => isAlnum c || oneOf "-_.!~*'()" c).

(** One name or value of [URLSearchParams.prototype.toString]. *)
Definition formEncode (s : string) : string :=
  mapChars (fun c => if Ascii.eqb c " " then "+"%char else c)
    (percentEncode (fun c => isAlnum c || oneOf "*-._ " c) s).

Fixpoint join (sep : string) (l : list string) : string :=
  match l with
  | [] => ""
  | [x] => x
  | x :: r => x ++ sep ++ join sep r
  end%string.

(** [s.replace(/pat/g, "")] for a non-empty pattern of literal characters:
    the matches are found from left to right and do not overlap.  [skip]
    counts the characters of the current match that are still to be dropped. *)
Fixpoint removeAll (pat : string) (skip : nat) (s : string) : string :=
  match s with
  | EmptyString => EmptyString
  | String c r =>
      match skip with
      | S k => removeAll pat k r
      | O =>
          if String.prefix pat s then removeAll pat (String.length pat - 1) r
          else String c (removeAll pat 0 r)
      end
  end.

End Js.

(** ** JavaScript dates

    A [Date] is its time value.  The calendar fields in UTC follow the
    proleptic Gregorian calendar; the local getters read the same calendar
    after the offset of the runtime's time zone has been added. *)

Module JsDate.

Definition msPerDay : Z := 86400000.

(** Year, month (1 to 12) and day of the month of a day number counted from
    1970-01-01. *)
Definition civilFromDays (days : Z) : Z * Z * Z :=
  let z := days + 719468 in
  let era := z / 146097 in
  let doe := z - era * 146097 in
  let yoe := (doe - doe / 1460 + doe / 36524 - doe / 146096) / 365 in
  let doy := doe - (365 * yoe + yoe / 4 - yoe / 100) in
  let mp := (5 * doy + 2) / 153 in
  let d := doy - (153 * mp + 2) / 5 + 1 in
  let m := if mp <? 10 then mp + 3 else mp - 9 in
  let y := yoe + era * 400 + (if m <=? 2 then 1 else 0) in
  (y, m, d).

Definition getUTCFullYear (t : Z) : Z := fst (fst (civilFromDays (t / msPerDay))).
(** [getUTCMonth] counts from 0. *)
Definition getUTCMonth (t : Z) : Z := snd (fst (civilFromDays (t / msPerDay))) - 1.
Definition getUTCDate (t : Z) : Z := snd (civilFromDays (t / msPerDay)).
Definition getUTCHours (t : Z) : Z := (t mod msPerDay) / 3600000.
Definition getUTCMinutes (t : Z) : Z := (t mod 3600000) / 60000.
Definition getUTCSeconds (t : Z) : Z := (t mod 60000) / 1000.
Definition getUTCMilliseconds (t : Z) : Z := t mod 1000.

Definition padStart3 (s : string) : string :=
  match String.length s with
  | O => "000"
  | 1%nat => "00" ++ s
  | 2%nat => "0" ++ s
  | _ => s
  end%string.

(** [toISOString], for the years 0000 to 9999 that it prints with four digits. *)
Definition toISOString (t : Z) : string :=
  (Js.padStart4 (Js.ofZ (getUTCFullYear t)) ++ "-" ++
   Js.padStart2 (Js.ofZ (getUTCMonth t + 1)) ++ "-" ++
   Js.padStart2 (Js.ofZ (getUTCDate t)) ++ "T" ++
   Js.padStart2 (Js.ofZ (getUTCHours t)) ++ ":" ++
   Js.padStart2 (Js.ofZ (getUTCMinutes t)) ++ ":" ++
   Js.padStart2 (Js.ofZ (getUTCSeconds t)) ++ "." ++
   padStart3 (Js.ofZ (getUTCMilliseconds t)) ++ "Z")%string.

(** [s.split('.')[0]] *)
Fixpoint beforeDot (s : string) : string :=
  match s with
  | EmptyString => EmptyString
  | String c r => if Ascii.eqb c "." then EmptyString else String c (beforeDot r)
  end.

End JsDate.

(** ** JavaScript maps: insertion-ordered, one entry per key *)

Module JsMap.
Section Defs.
Context {K V : Type} `{EqDecision K}.

Fixpoint get (k : K) (m : list (K * V)) : option V :=
  match m with
  | [] => None
  | (k', v) :: r => if decide (k = k') then Some v else get k r
  end.

Definition has (k : K) (m : list (K * V)) : bool :=
  match get k m with Some _ => true | None => false end.

(** [set] overwrites the value of a present key where it stands and appends
    an absent key at the end. *)
Fixpoint set (k : K) (v : V) (m : list (K * V)) : list (K * V) :=
  match m with
  | [] => [(k, v)]
  | (k', v') :: r =>
      if decide (k = k') then (k, v) :: r else (k', v') :: set k v r
  end.

Definition entries (m : list (K * V)) : list (K * V) := m.
Definition values (m : list (K * V)) : list V := map snd m.
Definition keys (m : list (K * V)) : list K := map fst m.

(** [new Map(pairs)] *)
Definition ofList (l : list (K * V)) : list (K * V) :=
  fold_left (fun m kv => set (fst kv) (snd kv) m) l [].

End Defs.
End JsMap.

(** ** [services/apiUtils.ts]: the rate limiter

    A task is named by a number; what it computes plays no part in admission.
    [processQueue] reads the clock twice, on entry ([now]) and when it stamps
    the admitted request ([now']); it runs without interruption up to the
    call of the task, so one call is one transition. *)

Module RateLimiter.

Definition DEFAULT_MAX_CONCURRENT : Z := 5.
Definition DEFAULT_WINDOW_MS : Z := 1000.
Definition DEFAULT_MAX_PER_WINDOW : Z := 10.

Definition Task := nat.

Record t := Make {
  queue : list Task;
  activeRequests : Z;
  requestTimestamps : list Z;
  globalRetryAfter : Z;
  maxConcurrent : Z;
  windowMs : Z;
  maxPerWindow : Z
}.

(** [new RateLimiter()] *)
Definition new : t :=
  Make [] 0 [] 0 DEFAULT_MAX_CONCURRENT DEFAULT_WINDOW_MS DEFAULT_MAX_PER_WINDOW.

Record Config := {
  cfgMaxConcurrent : option Z;
  cfgWindowMs : option Z;
  cfgMaxPerWindow : option Z
}.

(** [if (config.x) this.x = config.x]: an absent or zero field is skipped. *)
Definition truthyOr (o : option Z) (old : Z) : Z :=
  match o with
  | Some v => if v =? 0 then old else v
  | None => old
  end.

Definition updateConfig (config : Config) (l : t) : t :=
  Make (queue l) (activeRequests l) (requestTimestamps l) (globalRetryAfter l)
       (truthyOr (cfgMaxConcurrent config) (maxConcurrent l))
       (truthyOr (cfgWindowMs config) (windowMs l))
       (truthyOr (cfgMaxPerWindow config) (maxPerWindow l)).

(** How one call of [processQueue] ends. *)
Inductive Outcome :=
| Rescheduled (delay : Z)          (* setTimeout(() => this.processQueue(), delay) *)
| Returned                         (* at capacity, or nothing queued *)
| Started (task : Task) (at_ : Z). (* the head of the queue is called *)

Definition processQueue (now now' : Z) (l : t) : t * Outcome :=
  if now <? globalRetryAfter l then
    let waitTime := globalRetryAfter l - now in
    (l, Rescheduled (waitTime + 500))
  else if maxConcurrent l <=? activeRequests l then (l, Returned)
  else
    let stamps := filter (fun t => now - t < windowMs l) (requestTimestamps l) in
    if maxPerWindow l <=? Z.of_nat (length stamps) then
      (Make (queue l) (activeRequests l) stamps (globalRetryAfter l)
            (maxConcurrent l) (windowMs l) (maxPerWindow l),
       match stamps with
       | oldest :: _ => Rescheduled (windowMs l - (now - oldest) + 50)
       | [] => Rescheduled 0 (* the delay is NaN, which setTimeout reads as 0 *)
       end)
    else
      match queue l with
      | [] =>
          (Make [] (activeRequests l) stamps (globalRetryAfter l)
                (maxConcurrent l) (windowMs l) (maxPerWindow l), Returned)
      | item :: rest =>
          (Make rest (activeRequests l + 1) (stamps ++ [now']) (globalRetryAfter l)
                (maxConcurrent l) (windowMs l) (maxPerWindow l),
           Started item now')
      end.

(** [schedule(task)]: enqueue, then look at the queue. *)
Definition schedule (task : Task) (now now' : Z) (l : t) : t * Outcome :=
  processQueue now now'
    (Make (queue l ++ [task]) (activeRequests l) (requestTimestamps l)
          (globalRetryAfter l) (maxConcurrent l) (windowMs l) (maxPerWindow l)).

(** The [finally] block of [processQueue], run when the admitted task settles. *)
Definition settle (now now' : Z) (l : t) : t * Outcome :=
  processQueue now now'
    (Make (queue l) (activeRequests l - 1) (requestTimestamps l)
          (globalRetryAfter l) (maxConcurrent l) (windowMs l) (maxPerWindow l)).

Definition setGlobalBackoff (seconds : Z) (now : Z) (l : t) : t :=
  Make (queue l) (activeRequests l) (requestTimestamps l)
       (now + seconds * 1000 + 1000)
       (maxConcurrent l) (windowMs l) (maxPerWindow l).

(** *** The limiter in its environment

    The environment calls [schedule] and [setGlobalBackoff], lets timers
    fire and lets admitted tasks settle, at instants that do not decrease.
    A [Timer] event is the firing of a [setTimeout] of the source.  The
    system lets one fire at any instant, so its runs include every run of
    the code and more: what holds of all its runs holds of the code, while a
    run that is to show what the code can do fires a timer only when one was
    set and is due.  [inFlight] and [starts] record what was admitted. *)

Record System := {
  limiter : t;
  clock : Z;
  inFlight : list Task;
  starts : list (Z * Task)
}.

Inductive Event :=
| Schedule (task : Task) (now now' : Z)
| Timer (now now' : Z)
| Settle (task : Task) (now now' : Z)
| SetGlobalBackoff (seconds : Z) (now : Z)
| UpdateConfig (config : Config) (now : Z).


Definition isConfig (e : Event) : bool :=
  match e with UpdateConfig _ _ => true | _ => false end.


Definition record (s : System) (now' : Z) (inFlight' : list Task) (r : t * Outcome) : System :=
  match snd r with
  | Started task at_ =>
      {| limiter := fst r; clock := now';
         inFlight := inFlight' ++ [task]; starts := starts s ++ [(at_, task)] |}
  | _ =>
      {| limiter := fst r; clock := now'; inFlight := inFlight'; starts := starts s |}
  end.

Fixpoint removeFirst (task : Task) (l : list Task) : option (list Task) :=
  match l with
  | [] => None
  | x :: r => if decide (x = task) then Some r else cons x <$> removeFirst task r
  end.

Definition ticks (s : System) (now now' : Z) : bool :=
  (clock s <=? now) && (now <=? now').

(** [None]: the event cannot happen in this state (the clock would run
    backwards, or the task that settles was not in flight). *)
Definition step (s : System) (e : Event) : option System :=
  match e with
  | Schedule task now now' =>
      if ticks s now now'
      then Some (record s now' (inFlight s) (schedule task now now' (limiter s)))
      else None
  | Timer now now' =>
      if ticks s now now'
      then Some (record s now' (inFlight s) (processQueue now now' (limiter s)))
      else None
  | Settle task now now' =>
      if ticks s now now' then
        match removeFirst task (inFlight s) with
        | Some rest => Some (record s now' rest (settle now now' (limiter s)))
        | None => None
        end
      else None
  | SetGlobalBackoff seconds now =>
      if clock s <=? now
      then Some {| limiter := setGlobalBackoff seconds now (limiter s); clock := now;
                   inFlight := inFlight s; starts := starts s |}
      else None
  | UpdateConfig config now =>
      if clock s <=? now
      then Some {| limiter := updateConfig config (limiter s); clock := now;
                   inFlight := inFlight s; starts := starts s |}
      else None
  end.

Fixpoint run (s : System) (es : list Event) : option System :=
  match es with
  | [] => Some s
  | e :: r => match step s e with Some s' => run s' r | None => None end
  end.

(** A limiter configured with [N], [W], [M] before any task is scheduled. *)
Definition configured (N W M : Z) (t0 : Z) : System :=
  {| limiter := Make [] 0 [] 0 N W M; clock := t0; inFlight := []; starts := [] |}.

(** The number of tasks started in the window [[a, a + W)]. *)
Definition startsIn (a W : Z) (s : System) : Z :=
  Z.of_nat (length (filter (fun st => a <= fst st < a + W) (starts s))).

(** The limiter agrees with the records of the system: its counter is the
    number of tasks in flight, its log of stamps holds every start that can
    still fall in a window, and both quotas hold. *)
Definition quotaInv (N W M : Z) (s : System) : Prop :=
  maxConcurrent (limiter s) = N /\ windowMs (limiter s) = W /\
  maxPerWindow (limiter s) = M /\
  activeRequests (limiter s) = Z.of_nat (length (inFlight s)) /\
  Z.of_nat (length (inFlight s)) <= N /\
  (forall c, clock s <= c ->
     length (filter (fun st => c - fst st < W) (starts s)) =
     length (filter (fun t => c - t < W) (requestTimestamps (limiter s)))) /\
  (forall a, startsIn a W s <= M).


(** The tasks that a list of events hands to [schedule], in order. *)
Fixpoint scheduled (es : list Event) : list Task :=
  match es with
  | [] => []
  | Schedule task _ _ :: r => task :: scheduled r
  | _ :: r => scheduled r
  end.

(** What the call of [processQueue] that an event makes ends with; [None]
    for the events that make no call. *)
Definition outcomeOf (s : System) (e : Event) : option Outcome :=
  match e with
  | Schedule task now now' => Some (snd (schedule task now now' (limiter s)))
  | Timer now now' => Some (snd (processQueue now now' (limiter s)))
  | Settle task now now' => Some (snd (settle now now' (limiter s)))
  | SetGlobalBackoff _ _ => None
  | UpdateConfig _ _ => None
  end.

(** The timers that are pending after the events [es] when [n] were pending
    before them: a call of [processQueue] that ends in [setTimeout] sets one,
    a [Timer] event uses one up.  [None]: an event cannot happen, or a timer
    fires that was never set. *)
Fixpoint pendingTimers (s : System) (n : nat) (es : list Event) : option nat :=
  match es with
  | [] => Some n
  | e :: r =>
      match step s e with
      | None => None
      | Some s' =>
          let set := match outcomeOf s e with Some (Rescheduled _) => 1%nat | _ => 0%nat end in
          match e, n with
          | Timer _ _, O => None
          | Timer _ _, S k => pendingTimers s' (k + set) r
          | _, _ => pendingTimers s' (n + set) r
          end
      end
  end.

(** [new ConcurrencyQueue().add(task)] *)
Definition add (task : Task) (now now' : Z) (l : t) : t * Outcome :=
  schedule task now now' l.

End RateLimiter.

(** ** [types.ts]: the records the aggregation engine reads and writes *)

Module Conversation.
Record t := Make {
  id : Z;
  user_id : Z;
  body_text : option string; (* the source guards against a missing body *)
  created_at : Z;
  private : bool;
  source : Z
}.
End Conversation.

Module TicketStats.
Record t := Make {
  reopened_at : option Z;
  resolved_at : option Z;
  closed_at : option Z
}.
End TicketStats.

(** [TicketWithConversations] *)
Module Ticket.
Record t := Make {
  id : Z;
  requester_id : Z;
  responder_id : Z;
  group_id : Z;
  subject : string;
  description_text : string;
  status : Z;
  priority : Z;
  created_at : Z;
  updated_at : Z;
  stats : option TicketStats.t;
  conversations : list Conversation.t
}.
End Ticket.

(** A percentage that the source prints with [toFixed(1)]: the embedding keeps
    the quotient [worked / total] it is computed from, and [Zero] for the
    branch that prints "0%" because the total is 0. *)
Inductive Percent :=
| Zero
| Of (part whole : Z).

Module DailyAgentStats.
Record t := Make {
  date : string;
  totalResponses : Z;
  totalActions : Z;
  totalClosed : Z;
  totalAgentActivity : Z;
  estimatedTimeRange : string;
  totalMin : Z;
  totalMax : Z
}.
End DailyAgentStats.

Module AgentGroupStat.
Record t := Make {
  groupName : string;
  total : Z;
  worked : Z;
  closed : Z;
  percent : Percent
}.
End AgentGroupStat.

Module AgentActivitySummary.
Record t := Make {
  agentId : Z;
  agentName : list N; (* name.toUpperCase(), in code units *)
  ticketCount : Z;
  estimatedTimeRange : string;
  totalResponses : Z;
  totalActions : Z;
  totalClosed : Z;
  totalAgentActivity : Z;
  activityRatio : Percent;
  dailyBreakdown : list DailyAgentStats.t;
  groupStats : list AgentGroupStat.t
}.
End AgentActivitySummary.

Module Group.
Record t := Make {
  id : Z;
  name : string;
  description : string
}.
End Group.

(** ** [utils/logicUtils.ts] *)

Module LogicUtils.

(** The value type of [AgentData.dailyStats]. *)
Module Daily.
Record t := Make {
  totalResponses : Z;
  totalActions : Z;
  totalClosed : Z;
  totalMin : Z;
  totalMax : Z
}.
End Daily.

(** The value type of [AgentData.groupStats]. *)
Module GroupCount.
Record t := Make { worked : Z; closed : Z }.
End GroupCount.

Module AgentData.
Record t := Make {
  agentName : list N; (* name.toUpperCase(), in code units *)
  ticketIds : gset Z;
  totalMin : Z;
  totalMax : Z;
  totalResponses : Z;
  totalActions : Z;
  totalClosed : Z;
  dailyStats : list (string * Daily.t);
  groupStats : list (Z * GroupCount.t)
}.
End AgentData.

Definition toSATime (t : Z) : Z := t + 2 * 60 * 60 * 1000.

Definition formatMinutesToHours (minutes : Z) : string :=
  let minutes := if minutes <? 0 then 0 else minutes in
  let hours := minutes / 60 in
  let remainingMins := minutes mod 60 in
  (Js.ofZ hours ++ "h " ++ Js.ofZ remainingMins ++ "m")%string.

Definition formatTimeRange (min max : Z) : string :=
  (formatMinutesToHours min ++ " - " ++ formatMinutesToHours max)%string.

(** [Math.ceil(min * 1.5)] on an integer [min]. *)
Definition ceil15 (min : Z) : Z := (3 * min + 1) / 2.

(** [max > min * 1.5] on integers is [2 * max > 3 * min]. *)
Definition constrainTimeEstimate (min max : Z) : Z * Z :=
  let newMax := max in
  let newMax := if 3 * min <? 2 * newMax then ceil15 min else newMax in
  let newMax := if newMax <? min then min else newMax in
  (min, newMax).

Section Engine.

(** The offset of the runtime's time zone from UTC, in milliseconds, at each
    instant: [getFullYear], [getMonth] and [getDate] read the UTC calendar of
    the shifted instant. *)
Variable localOffset : Z -> Z.

Definition formatLocalDate (d : Z) : string :=
  let l := d + localOffset d in
  let year := JsDate.getUTCFullYear l in
  let month := Js.padStart2 (Js.ofZ (JsDate.getUTCMonth l + 1)) in
  let day := Js.padStart2 (Js.ofZ (JsDate.getUTCDate l)) in
  (Js.ofZ year ++ "-" ++ month ++ "-" ++ day)%string.

Variable agentMap : list (Z * string).
Variables startDate endDate : Z.
Variable groupMap : list (Z * string).

Definition inRange (d : Z) : bool := (startDate <=? d) && (d <=? endDate).

Definition newAgentData (name : string) : AgentData.t :=
  AgentData.Make (Js.toUpperCase name) ∅ 0 0 0 0 0 [] [].

Definition initialActivity : list (Z * AgentData.t) :=
  fold_left (fun m e => JsMap.set (fst e) (newAgentData (snd e)) m)
            (JsMap.entries agentMap) [].

(** [if (!m.has(k)) m.set(k, v0)] *)
Definition ensure {K V : Type} `{EqDecision K} (k : K) (v0 : V) (m : list (K * V)) : list (K * V) :=
  if JsMap.has k m then m else JsMap.set k v0 m.

(** [new Set<number>()] kept in insertion order, for [forEach]. *)
Definition addWorked (aid : Z) (s : list Z) : list Z :=
  if decide (aid ∈ s) then s else s ++ [aid].

Definition isSystem (c : Conversation.t) : bool :=
  Js.includes (Js.toLowerCase (default ""%string (Conversation.body_text c))) "system".

(** [c.body_text?.trim().toLowerCase() || ''] *)
Definition bodyTextOf (c : Conversation.t) : string :=
  match Conversation.body_text c with
  | Some s => Js.toLowerCase (Js.trim s)
  | None => ""
  end.

(** A conversation in the window, written by a known agent, whose body does
    not mention "system". *)
Definition qualifies (c : Conversation.t) : bool :=
  inRange (Conversation.created_at c)
  && JsMap.has (Conversation.user_id c) agentMap
  && negb (isSystem c).

(** The test that lets a conversation count for its author. *)
Definition counts (agentActivity : list (Z * AgentData.t)) (c : Conversation.t) : bool :=
  inRange (Conversation.created_at c)
  && (JsMap.has (Conversation.user_id c) agentMap
      && JsMap.has (Conversation.user_id c) agentActivity
      && negb (isSystem c)).

(** What a conversation that counts does to its author's record. *)
Definition creditActivity (ticket : Ticket.t) (c : Conversation.t)
    (agentData : AgentData.t) : AgentData.t :=
  let dateStr := formatLocalDate (toSATime (Conversation.created_at c)) in
  let daily := ensure dateStr (Daily.Make 0 0 0 0 0) (AgentData.dailyStats agentData) in
  let dailyData := default (Daily.Make 0 0 0 0 0) (JsMap.get dateStr daily) in
  let bodyText := bodyTextOf c in
  let spam := Js.includes bodyText "marked as spam" in
  let short := Z.of_nat (String.length bodyText) <? 50 in
  let isPrivate := Conversation.private c in
  let minAdd := if isPrivate then (if spam then 1 else 2) else (if short then 3 else 5) in
  let maxAdd := if isPrivate then (if spam then 2 else 3) else (if short then 4 else 7) in
  let dailyData' :=
    if isPrivate
    then Daily.Make (Daily.totalResponses dailyData) (Daily.totalActions dailyData + 1)
                    (Daily.totalClosed dailyData) (Daily.totalMin dailyData)
                    (Daily.totalMax dailyData)
    else Daily.Make (Daily.totalResponses dailyData + 1) (Daily.totalActions dailyData)
                    (Daily.totalClosed dailyData) (Daily.totalMin dailyData)
                    (Daily.totalMax dailyData) in
  AgentData.Make (AgentData.agentName agentData)
    ({[Ticket.id ticket]} ∪ AgentData.ticketIds agentData)
    (AgentData.totalMin agentData + minAdd)
    (AgentData.totalMax agentData + maxAdd)
    (AgentData.totalResponses agentData + (if isPrivate then 0 else 1))
    (AgentData.totalActions agentData + (if isPrivate then 1 else 0))
    (AgentData.totalClosed agentData)
    (JsMap.set dateStr dailyData' daily)
    (AgentData.groupStats agentData).

(** Pass 1, the body of [ticket.conversations.forEach]. *)
Definition activityStep (ticket : Ticket.t)
    (st : list (Z * AgentData.t) * list Z) (c : Conversation.t)
    : list (Z * AgentData.t) * list Z :=
  let (agentActivity, agentsWorked) := st in
  if counts agentActivity c then
    let agentId := Conversation.user_id c in
    match JsMap.get agentId agentActivity with
    | None => st
    | Some agentData =>
        (JsMap.set agentId (creditActivity ticket c agentData) agentActivity,
         addWorked agentId agentsWorked)
    end
  else st.

Definition bumpWorked (g : GroupCount.t) : GroupCount.t :=
  GroupCount.Make (GroupCount.worked g + 1) (GroupCount.closed g).

Definition bumpClosed (g : GroupCount.t) : GroupCount.t :=
  GroupCount.Make (GroupCount.worked g) (GroupCount.closed g + 1).

Definition updGroup (f : GroupCount.t -> GroupCount.t) (gid : Z)
    (gs : list (Z * GroupCount.t)) : list (Z * GroupCount.t) :=
  let gs := ensure gid (GroupCount.Make 0 0) gs in
  JsMap.set gid (f (default (GroupCount.Make 0 0) (JsMap.get gid gs))) gs.

(** What having worked on a ticket does to an agent's record. *)
Definition creditWorked (ticket : Ticket.t) (ad : AgentData.t) : AgentData.t :=
  AgentData.Make (AgentData.agentName ad) (AgentData.ticketIds ad)
    (AgentData.totalMin ad) (AgentData.totalMax ad)
    (AgentData.totalResponses ad) (AgentData.totalActions ad)
    (AgentData.totalClosed ad) (AgentData.dailyStats ad)
    (updGroup bumpWorked (Ticket.group_id ticket) (AgentData.groupStats ad)).

(** Pass 1, the body of [agentsWorked.forEach]. *)
Definition workedStep (ticket : Ticket.t)
    (agentActivity : list (Z * AgentData.t)) (aid : Z) : list (Z * AgentData.t) :=
  match JsMap.get aid agentActivity with
  | None => agentActivity
  | Some ad => JsMap.set aid (creditWorked ticket ad) agentActivity
  end.

(** Pass 1, the body of the first [tickets.forEach]. *)
Definition activityPass (agentActivity : list (Z * AgentData.t)) (ticket : Ticket.t)
    : list (Z * AgentData.t) :=
  let (agentActivity', agentsWorked) :=
    fold_left (activityStep ticket) (Ticket.conversations ticket) (agentActivity, []) in
  fold_left (workedStep ticket) agentsWorked agentActivity'.

(** [ticket.stats?.closed_at || ticket.stats?.resolved_at || ticket.updated_at] *)
Definition closedAtOf (ticket : Ticket.t) : Z :=
  match Ticket.stats ticket with
  | Some st =>
      match TicketStats.closed_at st with
      | Some t => t
      | None => default (Ticket.updated_at ticket) (TicketStats.resolved_at st)
      end
  | None => Ticket.updated_at ticket
  end.

(** What a credited closure does to the closer's record. *)
Definition creditClosure (ticket : Ticket.t) (ad : AgentData.t) : AgentData.t :=
  let dateStr := formatLocalDate (toSATime (closedAtOf ticket)) in
  let minAdd := 1 in
  let maxAdd := 2 in
  let daily :=
    match JsMap.get dateStr (AgentData.dailyStats ad) with
    | None => JsMap.set dateStr (Daily.Make 0 0 1 minAdd maxAdd) (AgentData.dailyStats ad)
    | Some dailyData =>
        JsMap.set dateStr
          (Daily.Make (Daily.totalResponses dailyData) (Daily.totalActions dailyData)
                      (Daily.totalClosed dailyData + 1)
                      (Daily.totalMin dailyData + minAdd)
                      (Daily.totalMax dailyData + maxAdd))
          (AgentData.dailyStats ad)
    end in
  AgentData.Make (AgentData.agentName ad) (AgentData.ticketIds ad)
    (AgentData.totalMin ad + minAdd) (AgentData.totalMax ad + maxAdd)
    (AgentData.totalResponses ad) (AgentData.totalActions ad)
    (AgentData.totalClosed ad + 1) daily
    (updGroup bumpClosed (Ticket.group_id ticket) (AgentData.groupStats ad)).

(** Pass 2, the body of the second [tickets.forEach]. *)
Definition closurePass (agentActivity : list (Z * AgentData.t)) (ticket : Ticket.t)
    : list (Z * AgentData.t) :=
  if (Ticket.status ticket =? 4) || (Ticket.status ticket =? 5) then
    if inRange (closedAtOf ticket) then
      let closerId := Ticket.responder_id ticket in
      if JsMap.has closerId agentMap && JsMap.has closerId agentActivity then
        match JsMap.get closerId agentActivity with
        | None => agentActivity
        | Some ad =>
            if decide (Ticket.id ticket ∈ AgentData.ticketIds ad)
            then JsMap.set closerId (creditClosure ticket ad) agentActivity
            else agentActivity
        end
      else agentActivity
    else agentActivity
  else agentActivity.

(** The accumulated records after both passes. *)
Definition aggregate (tickets : list Ticket.t) : list (Z * AgentData.t) :=
  fold_left closurePass tickets (fold_left activityPass tickets initialActivity).

Definition sizeOf (ad : AgentData.t) : Z := Z.of_nat (size (AgentData.ticketIds ad)).

Definition constrainDay (e : string * Daily.t) : DailyAgentStats.t :=
  let (date, stats) := e in
  let c := constrainTimeEstimate (Daily.totalMin stats) (Daily.totalMax stats) in
  DailyAgentStats.Make date
    (Daily.totalResponses stats) (Daily.totalActions stats) (Daily.totalClosed stats)
    (Daily.totalResponses stats + Daily.totalActions stats)
    (formatTimeRange (fst c) (snd c)) (fst c) (snd c).

Definition groupStat (totalForAgent : Z) (e : Z * GroupCount.t) : AgentGroupStat.t :=
  let (gid, stats) := e in
  AgentGroupStat.Make
    (match JsMap.get gid groupMap with
     | Some name => if decide (name = ""%string) then "Other"%string else name
     | None => "Other"%string
     end)
    (GroupCount.worked stats + GroupCount.closed stats)
    (GroupCount.worked stats) (GroupCount.closed stats)
    (if 0 <? totalForAgent then Of (GroupCount.worked stats) totalForAgent else Zero).

(** The body of [.map(([agentId, data]) => ...)]. *)
Definition summarize (totalTicketsHandledAcrossAgents : Z) (e : Z * AgentData.t)
    : AgentActivitySummary.t :=
  let (agentId, data) := e in
  let totalAgentActivity := AgentData.totalResponses data + AgentData.totalActions data in
  let ratio :=
    if 0 <? totalTicketsHandledAcrossAgents
    then Of (sizeOf data) totalTicketsHandledAcrossAgents else Zero in
  let constrainedDaily :=
    map constrainDay
      (Js.sort (fun a b => Js.strLe (fst a) (fst b)) (JsMap.entries (AgentData.dailyStats data))) in
  let cTotal := constrainTimeEstimate (AgentData.totalMin data) (AgentData.totalMax data) in
  let totalForAgent := sizeOf data in
  let agentGroupStats :=
    Js.sort (fun a b => AgentGroupStat.worked b <=? AgentGroupStat.worked a)
      (map (groupStat totalForAgent) (JsMap.entries (AgentData.groupStats data))) in
  AgentActivitySummary.Make agentId (AgentData.agentName data) (sizeOf data)
    (formatTimeRange (fst cTotal) (snd cTotal))
    (AgentData.totalResponses data) (AgentData.totalActions data)
    (AgentData.totalClosed data) totalAgentActivity ratio
    constrainedDaily agentGroupStats.

Definition kept (summary : AgentActivitySummary.t) : bool :=
  (0 <? AgentActivitySummary.ticketCount summary)
  || (0 <? AgentActivitySummary.totalClosed summary).

Definition calculateAllAgentActivity (tickets : list Ticket.t)
    : list AgentActivitySummary.t :=
  let agentActivity := aggregate tickets in
  let totalTicketsHandledAcrossAgents :=
    fold_left (fun sum data => sum + sizeOf data) (JsMap.values agentActivity) 0 in
  Js.sort (fun a b => AgentActivitySummary.ticketCount b <=? AgentActivitySummary.ticketCount a)
    (List.filter kept
       (map (summarize totalTicketsHandledAcrossAgents) (JsMap.entries agentActivity))).

(** Agent [k] touched ticket [x]: some record of the ticket carries a
    conversation of [k] that qualifies. *)
Definition touchedBy (tickets : list Ticket.t) (k x : Z) : Prop :=
  exists tk c,
    tk ∈ tickets /\ Ticket.id tk = x /\ c ∈ Ticket.conversations tk /\
    Conversation.user_id c = k /\ qualifies c = true.

Definition touchedOnly (tickets : list Ticket.t) (e : Z * AgentData.t) : Prop :=
  forall x, x ∈ AgentData.ticketIds (snd e) -> touchedBy tickets (fst e) x.

End Engine.

(** Estimates that have not gone negative. *)
Definition nonneg (e : Z * AgentData.t) : Prop :=
  0 <= AgentData.totalMin (snd e) /\
  Forall (fun d : string * Daily.t => 0 <= Daily.totalMin (snd d))
         (AgentData.dailyStats (snd e)).

(** [closedOn done] holds of a record whose closures are those of distinct
    tickets of [done] that the agent touched. *)
Definition closedOn (done : list Ticket.t) (e : Z * AgentData.t) : Prop :=
  exists credited : gset Z,
    credited ⊆ AgentData.ticketIds (snd e) /\
    (forall x, x ∈ credited -> x ∈ map Ticket.id done) /\
    AgentData.totalClosed (snd e) = Z.of_nat (size credited).



(** *** Group names and ticket categories *)

Definition cleanGroupName (name : string) : string :=
  let cleaned :=
    Js.trim
      (Js.removeAll "South Africa Online" 0
         (Js.removeAll "Clothing Online" 0
            (Js.removeAll "Online South Africa" 0 name))) in
  if bool_decide (cleaned = "Unknown"%string) || bool_decide (cleaned = ""%string)
  then "Other"%string else cleaned.

Definition cleanGroupMap (groups : list Group.t) : list (Z * string) :=
  fold_left (fun map g => JsMap.set (Group.id g) (cleanGroupName (Group.name g)) map)
            groups [].

Definition CATEGORY_COLORS : list (string * string) :=
  [("Shipments", "#3B82F6"); ("Returns", "#10B981"); ("Refunds", "#EF4444");
   ("Exchanges", "#EAB308"); ("Incorrect items", "#F97316");
   ("Damages/defects", "#EC4899"); ("Discount/Voucher", "#6366F1");
   ("Stock/product", "#A855F7"); ("Spam", "#6B7280"); ("Other", "#14B8A6")]%string.

(** [CATEGORIES] of [constants.ts] *)
Definition CATEGORIES : list string :=
  ["Shipments"; "Returns"; "Refunds"; "Exchanges"; "Incorrect items";
   "Damages/defects"; "Discount/Voucher"; "Stock/product"; "Spam"; "Other"]%string.

(** The text that [autoCategorizeTicket] searches. *)
Definition categoryText (ticket : Ticket.t) : string :=
  Js.toLowerCase (Ticket.subject ticket ++ " " ++ Ticket.description_text ticket)%string.

Definition autoCategorizeTicket (ticket : Ticket.t) : string :=
  let text := categoryText ticket in
  if Js.includes text "shipping" || Js.includes text "delivery" || Js.includes text "courier"
     || Js.includes text "tracking" || Js.includes text "waybill" || Js.includes text "shipment"
  then "Shipments"%string
  else if Js.includes text "return" || Js.includes text "collection" then "Returns"%string
  else if Js.includes text "refund" || Js.includes text "money back" || Js.includes text "credit"
  then "Refunds"%string
  else if Js.includes text "exchange" || Js.includes text "swap" then "Exchanges"%string
  else if Js.includes text "wrong item" || Js.includes text "incorrect"
          || Js.includes text "received wrong"
  then "Incorrect items"%string
  else if Js.includes text "damaged" || Js.includes text "broken" || Js.includes text "defect"
          || Js.includes text "faulty"
  then "Damages/defects"%string
  else if Js.includes text "code" || Js.includes text "coupon" || Js.includes text "voucher"
          || Js.includes text "promo" || Js.includes text "discount"
  then "Discount/Voucher"%string
  else if Js.includes text "stock" || Js.includes text "availability"
          || Js.includes text "product info" || Js.includes text "size"
  then "Stock/product"%string
  else if Js.includes text "spam" || Js.includes text "seo" || Js.includes text "marketing"
  then "Spam"%string
  else "Other"%string.

(** The sum of [f] over a list. *)
Definition total {A : Type} (f : A -> Z) (l : list A) : Z :=
  foldr (fun x acc => f x + acc) 0 l.

(** Agent [k] has a conversation on the record [tk] that qualifies. *)
Definition workedOn (agentMap : list (Z * string)) (startDate endDate : Z)
    (k : Z) (tk : Ticket.t) : bool :=
  existsb (fun c => (Conversation.user_id c =? k) && qualifies agentMap startDate endDate c)
          (Ticket.conversations tk).

End LogicUtils.

(** ** HTTP as the acquisition layer sees it *)

Module Http.

(** A thrown value: [name], [message] and, when it has one, [status]. *)
Record Error := MakeError {
  name : string;
  message : string;
  status : option Z
}.

(** [new Error(message)] *)
Definition newError (message : string) : Error := MakeError "Error" message None.

Inductive Result (A : Type) :=
| Ok (a : A)
| Throw (e : Error).
Arguments Ok {A} a.
Arguments Throw {A} e.

Definition bind {A B : Type} (r : Result A) (k : A -> Result B) : Result B :=
  match r with
  | Ok a => k a
  | Throw e => Throw e
  end.

(** What [response.json()] resolves to: an array, an object with its
    [results] and [total] properties, [null], another value (a number, a
    string, a boolean, whose properties are all [undefined]), or a
    rejection. *)
Inductive Json (T : Type) :=
| JArray (items : list T)
| JObject (results : option (list T)) (total : option Z)
| JNull
| JOther
| JInvalid (e : Error).
Arguments JArray {T} items.
Arguments JObject {T} results total.
Arguments JNull {T}.
Arguments JOther {T}.
Arguments JInvalid {T} e.

(** The error of reading a property of [null] (the wording is that of V8). *)
Definition nullProperty (property : string) : Error :=
  MakeError "TypeError"
    ("Cannot read properties of null (reading '" ++ property ++ "')") None.

Record Response (T : Type) := MakeResponse {
  code : Z;                    (* response.status *)
  contentType : option string; (* response.headers.get('content-type') *)
  retryAfter : option string;  (* response.headers.get('Retry-After') *)
  text : string;               (* response.text() *)
  json : Json T                (* response.json() *)
}.
Arguments MakeResponse {T} code contentType retryAfter text json.
Arguments code {T} r.
Arguments contentType {T} r.
Arguments retryAfter {T} r.
Arguments text {T} r.
Arguments json {T} r.

(** [response.ok] *)
Definition ok {T : Type} (r : Response T) : bool := (200 <=? code r) && (code r <=? 299).

(** What one call of [fetch] settles to. *)
Inductive Outcome (T : Type) :=
| Responds (r : Response T)
| Rejects (e : Error).
Arguments Responds {T} r.
Arguments Rejects {T} e.

End Http.

(** ** [services/apiUtils.ts]: [fetchWithRetry]

    The network is a function [net]: what the [attempt]-th call of [fetch]
    made for [url] by one run of [fetchWithRetry] settles to.  The limiter
    only delays the call; what the run asks of it and of the clock is kept
    in the list of effects. *)

Module ApiUtils.
Import Http.

Inductive Effect :=
| Slept (attempt : nat)                (* the backoff before a retry *)
| Fetched (url : string) (attempt : nat) (* limiter.schedule(() => fetch(url, options)) *)
| GlobalBackoff (seconds : option Z).  (* limiter.setGlobalBackoff(retryAfter); None is NaN *)

Definition isFetch (e : Effect) : bool :=
  match e with Fetched _ _ => true | _ => false end.

Definition isJsonType (contentType : option string) : bool :=
  Js.includes (default ""%string contentType) "application/json".

Definition backendError {T : Type} (url : string) (response : Response T) : Error :=
  newError ("Backend Error: The proxy server returned 404 for " ++ url
            ++ ". Response: " ++ Js.substring0 100 (text response)
            ++ "... Ensure 'npm start' is running and server.js handles this route.")%string.

(** [retryAfterHeader ? parseInt(retryAfterHeader, 10) : 5] *)
Definition retryAfterOf {T : Type} (response : Response T) : option Z :=
  match retryAfter response with
  | Some header => if decide (header = ""%string) then Some 5 else Js.parseInt header
  | None => Some 5
  end.

Definition showNumber (n : option Z) : string :=
  match n with Some v => Js.ofZ v | None => "NaN"%string end.

Definition busyError (retryAfter : option Z) : Error :=
  newError ("Server is busy. Please try again in " ++ showNumber retryAfter ++ " seconds.")%string.

Definition isNetworkError (error : Error) : bool :=
  bool_decide (name error = "TypeError"%string)
  && (Js.includes (message error) "Failed to fetch"
      || Js.includes (message error) "NetworkError").

(** The code after the loop, reached with the last error caught. *)
Definition afterLoop (url : string) (lastError : Error) : Error :=
  if Js.includes (message lastError) "Backend Error" then lastError
  else if Js.includes (message lastError) "Failed to fetch"
          || bool_decide (name lastError = "TypeError"%string) then
    if Js.includes url "/api/freshdesk" then
      newError ("Network Error: Cannot reach the local proxy at " ++ url
                ++ ". Ensure the server is running on port 8080.")%string
    else if Js.includes url "run.app" then
      newError ("Network Error: Cloud Proxy (" ++ url
                ++ ") connection rejected. This often means a CORS configuration issue on the server.")%string
    else
      newError ("Network Error: Unable to connect to the server (" ++ url
                ++ "). Please check your internet connection.")%string
  else lastError.

Section Fetch.
Context {T : Type}.
Variable net : string -> nat -> Outcome T.
Variable url : string.

(** One iteration of the loop and those after it.  [retriesLeft] is
    [maxRetries - attempt], so that [attempt < maxRetries] reads
    [retriesLeft] is not 0. *)
Fixpoint attemptFrom (attempt retriesLeft : nat) : list Effect * Result (Response T) :=
  let break (lastError : Error) : list Effect * Result (Response T) :=
    ([], Throw (afterLoop url lastError)) in
  let catch (error : Error) :=
    if Js.includes (message error) "Backend Error" then break error
    else
      match retriesLeft with
      | S k => if isNetworkError error then attemptFrom (S attempt) k else break error
      | O => break error
      end in
  let rest :=
    match net url attempt with
    | Rejects error => catch error
    | Responds response =>
        if (code response =? 404) && negb (isJsonType (contentType response)) then
          catch (backendError url response)
        else if (code response =? 429) || (code response =? 503) then
          let retryAfter := retryAfterOf response in
          let rest :=
            match retriesLeft with
            | S k => attemptFrom (S attempt) k
            | O => catch (busyError retryAfter)
            end in
          (GlobalBackoff retryAfter :: fst rest, snd rest)
        else ([], Ok response)
    end in
  ((if (0 <? attempt)%nat then [Slept attempt] else []) ++ Fetched url attempt :: fst rest,
   snd rest).

Definition fetchWithRetry (maxRetries : nat) : list Effect * Result (Response T) :=
  attemptFrom 0 maxRetries.

End Fetch.

(** A 404 that does not announce JSON: the route is not served. *)
Definition isRoutingFault {T : Type} (response : Response T) : Prop :=
  code response = 404 /\ isJsonType (contentType response) = false.

End ApiUtils.

(** ** The Freshdesk service module: requests, pagination, typed queries *)

Module FreshdeskService.
Import Http.

Definition FRESHDESK_DOMAIN : string := "ecomplete.freshdesk.com".
Definition USE_PROXY : bool := true.

(** [params] lists the own keys of the object in insertion order. *)
Definition getTargetUrl (endpoint : string) (params : list (string * string)) : string :=
  let path := if Js.startsWith endpoint "/" then endpoint else ("/" ++ endpoint)%string in
  let baseUrl := if USE_PROXY then "/api"%string else ("https://" ++ FRESHDESK_DOMAIN ++ "/api")%string in
  let url := (baseUrl ++ path)%string in
  let queryParts :=
    map (fun kv => (fst kv ++ "=" ++ Js.encodeURIComponent (snd kv))%string) params in
  match queryParts with
  | [] => url
  | _ :: _ =>
      let separator := if Js.includes url "?" then "&"%string else "?"%string in
      (url ++ separator ++ Js.join "&" queryParts)%string
  end.

Section Service.
Context {T : Type}.

(** [parseApiError] of [apiUtils.ts] reads a message out of the body of the
    response; the service only splices its result into two of the messages
    below, so it is left as any function of the response. *)
Variable parseApiError : Response T -> string.

Variable net : string -> nat -> Outcome T.

(** [handleApiError] always throws; this is the error it throws. *)
Definition handleApiError (response : Response T) (context : string) : Error :=
  let errorMsg := parseApiError response in
  if code response =? 401 then
    newError ("Authentication Failed: Ensure your API Key is correct. (" ++ context ++ ")")%string
  else if code response =? 403 then
    newError ("Access Denied: You do not have permission to access " ++ context ++ ".")%string
  else if code response =? 429 then
    newError "Rate Limit Exceeded: Freshdesk is busy. Please try again in a minute."
  else if code response =? 404 then
    newError ("Not Found: The requested " ++ context ++ " could not be found.")%string
  else if 500 <=? code response then
    newError ("Freshdesk System Error (" ++ Js.ofZ (code response)
              ++ "): Please try again later. (" ++ errorMsg ++ ")")%string
  else
    newError ("API Error (" ++ Js.ofZ (code response) ++ "): " ++ errorMsg)%string.

Definition executeRequest (endpoint : string) (params : list (string * string))
    (context : string) : Result (Response T) :=
  let fullUrl := getTargetUrl endpoint params in
  bind (snd (ApiUtils.fetchWithRetry net fullUrl 1)) (fun response =>
    if (code response =? 404) && negb (ApiUtils.isJsonType (contentType response))
    then Throw (newError ("Connectivity Error: The target endpoint " ++ endpoint
                          ++ " could not be reached.")%string)
    else Ok response).

(** [Math.ceil(total / pageSize)] for a positive [pageSize]. *)
Definition ceilDiv (total pageSize : Z) : Z := - ((- total) / pageSize).

(** [for (let i = 2; i <= searchMaxPages; i++) pageNumbers.push(i)] *)
Definition pageNumbers (searchMaxPages : Z) : list Z :=
  map (fun i => Z.of_nat i) (seq 2 (Z.to_nat (searchMaxPages - 1))).

(** One page of a search after the first: a failure of any kind is an empty
    page. *)
Definition searchPage (endpoint : string) (page : Z) : list T :=
  match executeRequest endpoint [("page"%string, Js.ofZ page)] ("Page " ++ Js.ofZ page)%string with
  | Throw err => []
  | Ok res =>
      if negb (ok res) then []
      else match json res with
           | JObject (Some results) _ => results
           | _ => []
           end
  end.

(** The [while (page <= maxPages)] loop of the list mode; [fuel] is the number
    of pages from [page] to [maxPages]. *)
Fixpoint listPages (endpoint : string) (pageSize : Z) (fuel : nat) (page : Z)
    (allResults : list T) : Result (list T) :=
  match fuel with
  | O => Ok allResults
  | S fuel' =>
      bind (executeRequest endpoint
              [("page"%string, Js.ofZ page); ("per_page"%string, Js.ofZ pageSize)]
              ("Page " ++ Js.ofZ page)%string)
        (fun res =>
           if negb (ok res) then Ok allResults
           else match json res with
                | JInvalid e => Throw e
                | JArray pageData =>
                    if 0 <? Z.of_nat (length pageData) then
                      let allResults := allResults ++ pageData in
                      if Z.of_nat (length pageData) <? pageSize then Ok allResults
                      else listPages endpoint pageSize fuel' (page + 1) allResults
                    else Ok allResults
                | _ => Ok allResults
                end)
  end.

Definition fetchPaginatedFreshdeskAPI (endpoint : string) (maxPages : Z) : Result (list T) :=
  let isSearch := Js.includes endpoint "/search/" in
  let pageSize := if isSearch then 30 else 100 in
  let p1Params :=
    ("page"%string, "1"%string)
      :: (if isSearch then [] else [("per_page"%string, Js.ofZ pageSize)]) in
  bind (executeRequest endpoint p1Params "Page 1") (fun response =>
  bind (if negb (ok response) then Throw (handleApiError response endpoint) else Ok tt) (fun _ =>
    match json response with
    | JInvalid e => Throw e
    | JObject (Some results) total =>
        if isSearch then
          let total := default 0 total in
          let searchMaxPages := Z.min (ceilDiv total pageSize) 10 in
          if Z.of_nat (length results) <? total
          then Ok (results ++ concat (map (searchPage endpoint) (pageNumbers searchMaxPages)))
          else Ok results
        else Ok []
    | JArray data =>
        if Z.of_nat (length data) <? pageSize then Ok data
        else listPages endpoint pageSize (Z.to_nat (maxPages - 1)) 2 data
    | JNull =>
        (* isSearch && data.results *)
        if isSearch then Throw (nullProperty "results") else Ok []
    | _ => Ok []
    end)).

End Service.

(** [new URLSearchParams(obj).toString()] *)
Definition searchParams (params : list (string * string)) : string :=
  Js.join "&" (map (fun kv => (Js.formEncode (fst kv) ++ "=" ++ Js.formEncode (snd kv))%string) params).

Definition dquote : string := String (ascii_of_nat 34) EmptyString.

Definition isFallbackError (e : Error) : bool :=
  (Js.includes (message e) "403" || Js.includes (message e) "400")
  || bool_decide (status e = Some 403).

Definition searchEndpointOf (fromDate toDate : Z) : string :=
  let fromSearch := (JsDate.beforeDot (JsDate.toISOString fromDate) ++ "Z")%string in
  let toSearch := (JsDate.beforeDot (JsDate.toISOString toDate) ++ "Z")%string in
  let query := (dquote ++ "updated_at:>'" ++ fromSearch ++ "' AND updated_at:<'"
                ++ toSearch ++ "'" ++ dquote)%string in
  ("/v2/search/tickets?query=" ++ Js.encodeURIComponent query)%string.

Definition listEndpointOf (fromDate : Z) : string :=
  let fromStr := (JsDate.beforeDot (JsDate.toISOString fromDate) ++ "Z")%string in
  let listEndpoint := "/v2/tickets"%string in
  let listParams :=
    [("updated_since", fromStr); ("include", "description,stats,requester");
     ("order_by", "updated_at"); ("order_type", "asc")]%string in
  (listEndpoint ++ "?" ++ searchParams listParams)%string.

Definition getTicketsUpdatedInPeriod
    (parseApiError : Response Ticket.t -> string) (net : string -> nat -> Outcome Ticket.t)
    (fromDate toDate : Z) : Result (list Ticket.t) :=
  match fetchPaginatedFreshdeskAPI parseApiError net (listEndpointOf fromDate) 300 with
  | Ok tickets =>
      Ok (List.filter
            (fun t => (Ticket.updated_at t <=? toDate) && (fromDate <=? Ticket.updated_at t))
            tickets)
  | Throw e =>
      if isFallbackError e
      then fetchPaginatedFreshdeskAPI parseApiError net (searchEndpointOf fromDate toDate) 10
      else Throw e
  end.

(** *** The other typed queries *)

(** [getConversations] fails soft: an error of the paginator is an empty
    thread. *)
Definition getConversations (parseApiError : Response Conversation.t -> string)
    (net : string -> nat -> Outcome Conversation.t) (ticketId : Z) : list Conversation.t :=
  match fetchPaginatedFreshdeskAPI parseApiError net
          ("/v2/tickets/" ++ Js.ofZ ticketId ++ "/conversations")%string 300 with
  | Ok conversations => conversations
  | Throw e => []
  end.

Definition statusQueryOf (openStatusIds : option (list Z)) : string :=
  match openStatusIds with
  | Some ((_ :: _) as ids) =>
      ("(" ++ Js.join " OR " (map (fun id => "status:" ++ Js.ofZ id) ids) ++ ")")%string
  | _ => "(status:2 OR status:3 OR status:6 OR status:7)"%string
  end.

Definition activeEndpoint : string := "/v2/search/tickets".

(** One element of [groupPromises]: the tickets of one group, none when the
    query fails. *)
Definition groupTickets (parseApiError : Response Ticket.t -> string)
    (net : string -> nat -> Outcome Ticket.t) (statusQuery : string) (gid : Z)
    : list Ticket.t :=
  let groupQuery := (" AND group_id:" ++ Js.ofZ gid)%string in
  let fullQuery := (dquote ++ statusQuery ++ groupQuery ++ dquote)%string in
  match fetchPaginatedFreshdeskAPI parseApiError net
          (activeEndpoint ++ "?query=" ++ Js.encodeURIComponent fullQuery)%string 300 with
  | Ok tickets => tickets
  | Throw e => []
  end.

(** [Array.from(new Map(allTickets.map(t => [t.id, t])).values())] *)
Definition uniqueById (allTickets : list Ticket.t) : list Ticket.t :=
  JsMap.values (JsMap.ofList (map (fun t => (Ticket.id t, t)) allTickets)).

(** [nets i] is the network as the [i]-th query of the run sees it: the
    queries of one run may ask for the same URL and be answered differently. *)
Definition getActiveTickets (parseApiError : Response Ticket.t -> string)
    (nets : nat -> string -> nat -> Outcome Ticket.t)
    (openStatusIds groupIds : option (list Z)) : Result (list Ticket.t * Z) :=
  let statusQuery := statusQueryOf openStatusIds in
  match groupIds with
  | Some ((_ :: _) as gids) =>
      let results :=
        imap (fun i gid => groupTickets parseApiError (nets i) statusQuery gid) gids in
      let allTickets := concat results in
      let uniqueTickets := uniqueById allTickets in
      Ok (uniqueTickets, Z.of_nat (length uniqueTickets))
  | _ =>
      let fullQuery := (dquote ++ statusQuery ++ dquote)%string in
      let totalCount :=
        match executeRequest (nets 0%nat) activeEndpoint
                [("query"%string, fullQuery); ("page", "1")]%string "Active Ticket Count" with
        | Ok response =>
            if ok response then
              match json response with
              | JObject _ (Some total) => total
              | _ => 0
              end
            else 0
        | Throw e => 0
        end in
      bind (fetchPaginatedFreshdeskAPI parseApiError (nets 1%nat)
              (activeEndpoint ++ "?query=" ++ Js.encodeURIComponent fullQuery)%string 300)
        (fun tickets =>
           Ok (tickets, if totalCount =? 0 then Z.of_nat (length tickets) else totalCount))
  end.

(** *** A list endpoint in pages of 100 *)

Section Listing.
Context {T : Type}.
Variable net : string -> nat -> Outcome T.
Variable endpoint : string.

(** The request for page [k] of a list. *)
Definition listPage (k : Z) : Result (Response T) :=
  executeRequest net endpoint
    [("page"%string, Js.ofZ k); ("per_page"%string, Js.ofZ 100)]
    ("Page " ++ Js.ofZ k)%string.

(** The request succeeds with the array [items]. *)
Definition lists (page : Result (Response T)) (items : list T) : Prop :=
  exists r, page = Ok r /\ ok r = true /\ json r = JArray items.

(** The pages [pages], numbered from [k], are all delivered. *)
Fixpoint listsFrom (k : Z) (pages : list (list T)) : Prop :=
  match pages with
  | [] => True
  | p :: rest => lists (listPage k) p /\ listsFrom (k + 1) rest
  end.

End Listing.

(** *** A search whose 73 results come in pages of 30 *)

Section Search.
Context {T : Type}.
Variable net : string -> nat -> Outcome T.
Variable endpoint : string.
Variable items : list T.

Definition pageOf (k : Z) : list T := take 30 (drop (Z.to_nat (30 * (k - 1))) items).

Definition firstPage : Result (Response T) :=
  executeRequest net endpoint [("page", "1")]%string "Page 1".

Definition laterPage (k : Z) : Result (Response T) :=
  executeRequest net endpoint [("page"%string, Js.ofZ k)] ("Page " ++ Js.ofZ k)%string.

(** The request for a page succeeds: the response is OK and carries the page
    and the total. *)
Definition delivers (page : Result (Response T)) (k : Z) : Prop :=
  exists r, page = Ok r /\ ok r = true /\ json r = JObject (Some (pageOf k)) (Some 73).

(** The request for a page fails: it throws, or the response is not OK. *)
Definition fails (page : Result (Response T)) : Prop :=
  match page with
  | Throw _ => True
  | Ok r => ok r = false
  end.

End Search.

End FreshdeskService.

(** ** [services/cacheService.ts]

    [localStorage] is a finite map from keys to items.  An item written by
    the cache is the JSON text of [{timestamp, data}]; the embedding keeps it
    parsed, and [Unparsable] stands for any text that [JSON.parse] rejects.
    [setItem] may throw: [refuses store key item] is the name of the
    exception, if any.  [localStorage.clear()] is taken to succeed. *)

Module CacheService.

Definition CONV_PREFIX : string := "fd_conv_".

Inductive Item (D : Type) :=
| Parsed (timestamp : Z) (data : D)
| Unparsable.
Arguments Parsed {D} timestamp data.
Arguments Unparsable {D}.

Section Cache.
Context {D : Type}.
Variable refuses : gmap string (Item D) -> string -> Item D -> option string.

Definition setItem (store : gmap string (Item D)) (key : string) (item : Item D)
    : gmap string (Item D) + string :=
  match refuses store key item with
  | Some name => inr name
  | None => inl (<[key := item]> store)
  end.

(** The body shared by [getCachedConversations] and [getCachedAnalysis]:
    the value served, and what is left of the store. *)
Definition getCached (key : string) (ticketUpdatedAt : Z) (store : gmap string (Item D))
    : option D * gmap string (Item D) :=
  match store !! key with
  | Some (Parsed timestamp data) =>
      if timestamp <? ticketUpdatedAt then (None, delete key store)
      else (Some data, store)
  | Some Unparsable => (None, store)
  | None => (None, store)
  end.

Definition isQuotaError (name : string) : bool :=
  bool_decide (name = "QuotaExceededError"%string)
  || bool_decide (name = "NS_ERROR_DOM_QUOTA_REACHED"%string).

(** The body shared by [cacheConversations] and [cacheAnalysis]; [now] and
    [now'] are the instants of the first and of the second try. *)
Definition cache (key : string) (data : D) (now now' : Z) (store : gmap string (Item D))
    : gmap string (Item D) :=
  match setItem store key (Parsed now data) with
  | inl store' => store'
  | inr name =>
      if isQuotaError name then
        (* cleanupCache: localStorage.clear() *)
        match setItem ∅ key (Parsed now' data) with
        | inl store' => store'
        | inr retryError => ∅
        end
      else store
  end.

Definition convKey (ticketId : Z) : string := (CONV_PREFIX ++ Js.ofZ ticketId)%string.

Definition getCachedConversations (ticketId : Z) (ticketUpdatedAt : Z)
    (store : gmap string (Item D)) : option D * gmap string (Item D) :=
  getCached (convKey ticketId) ticketUpdatedAt store.

Definition cacheConversations (ticketId : Z) (ticketUpdatedAt : Z) (conversations : D)
    (now now' : Z) (store : gmap string (Item D)) : gmap string (Item D) :=
  cache (convKey ticketId) conversations now now' store.

End Cache.

End CacheService.

(** ** [services/debugService.ts]: the log buffer

    The text of the time stamp comes from the runtime's clock and locale and
    is an argument here; telling the listeners and the console is left out. *)

Module DebugService.

Inductive Level := info | success | warning | error.

Record DebugLog := MakeLog {
  timestamp : string;
  level : Level;
  message : string;
  context : option string
}.

Record t := Make {
  logs : list DebugLog;
  isInternal : bool
}.

Definition maxLogs : nat := 1000.

(** [new DebugService()] *)
Definition new : t := Make [] false.

Definition addLog (log : DebugLog) (d : t) : t :=
  if isInternal d then d
  else Make (take maxLogs (log :: logs d)) false.

Definition clear (d : t) : t := Make [] (isInternal d).

Definition getLogs (d : t) : list DebugLog := logs d.

End DebugService.

(** ** Sample inputs *)

Module Samples.
Import Http FreshdeskService.

Definition utc : Z -> Z := fun _ => 0.
Definition agentsAB : list (Z * string) := [(1, "Agent A"); (2, "Agent B")]%string.
Definition groupsD : list (Z * string) := [(7, "Diesel")]%string.

(** The window is 2024-01-01, from 00:00:00.000 to 23:59:59.999 UTC. *)
Definition windowStart : Z := 1704067200000.
Definition windowEnd : Z := 1704153599999.

Definition body80 : string :=
  "Thank you for contacting us. Your order has shipped and will arrive on Friday ok".

Definition replyA : Conversation.t :=
  Conversation.Make 1 1 (Some body80) 1704068000000 false 0.

Definition spamNoteA : Conversation.t :=
  Conversation.Make 2 1 (Some "marked as spam"%string) 1704069000000 true 0.

Definition stats100 : TicketStats.t := TicketStats.Make None None (Some 1704070000000).

(** Ticket #100: closed by Agent A after a reply and a spam note. *)
Definition ticket100 : Ticket.t :=
  Ticket.Make 100 9 1 7 "Where is my order" "" 5 1 1704067200000 1704070000000
    (Some stats100) [replyA; spamNoteA].

Definition automationNote : Conversation.t :=
  Conversation.Make 3 2 (Some "System: closed after 7 days without reply"%string)
    1704071000000 true 0.

(** Ticket #200: assigned to Agent B and closed by an automation. *)
Definition ticket200 : Ticket.t :=
  Ticket.Make 200 9 2 7 "No reply" "" 5 1 1704067200000 1704071000000
    (Some (TicketStats.Make None None (Some 1704071000000))) [automationNote].

(** A second record of ticket #100, without its conversations. *)
Definition bare100 : Ticket.t :=
  Ticket.Make 100 9 1 7 "Where is my order" "" 5 1 1704067200000 1704070000000
    (Some stats100) [].

Definition htmlNotFound : Response Z :=
  MakeResponse 404 (Some "text/html"%string) None "<html>Cannot GET /api/v2/agents</html>" JOther.

(** A network that drops the first call and answers the second with the
    404 page of the proxy. *)
Definition unroutedNet : string -> nat -> Outcome Z :=
  fun _ attempt =>
    match attempt with
    | O => Rejects (MakeError "TypeError" "Failed to fetch" None)
    | _ => Responds htmlNotFound
    end.

Definition searchEndpoint : string := "/v2/search/tickets?query=x".
Definition seventyThree : list Z := map Z.of_nat (seq 1 73).

(** A server that holds 73 results and answers each page of 30, except the
    pages in [down], for which it answers 500. *)
Definition searchServer (down : Z -> bool) : string -> nat -> Outcome Z :=
  fun url _ =>
    match List.find
            (fun k => String.eqb url (getTargetUrl searchEndpoint [("page"%string, Js.ofZ k)]))
            [1; 2; 3] with
    | Some k =>
        if down k then Responds (MakeResponse 500 None None "" JOther)
        else Responds (MakeResponse 200 (Some "application/json"%string) None ""
                         (JObject (Some (pageOf seventyThree k)) (Some 73)))
    | None => Rejects (MakeError "TypeError" "Failed to fetch" None)
    end.

Definition noMessage {T : Type} : Response T -> string := fun _ => ""%string.

(** 2024-01-01T00:00:00Z *)
Definition reportFrom : Z := 1704067200000.

Definition primaryUrl : string :=
  getTargetUrl (listEndpointOf reportFrom) [("page", "1"); ("per_page", "100")]%string.

Definition accessDenied : Error :=
  newError "Access Denied: You do not have permission to access /v2/tickets?updated_since=2024-01-01T00%3A00%3A00Z&include=description%2Cstats%2Crequester&order_by=updated_at&order_type=asc.".

Definition forbidden : Response Ticket.t :=
  MakeResponse 403 (Some "application/json"%string) None "" JOther.

Definition forbiddenServer : string -> nat -> Outcome Ticket.t :=
  fun _ _ => Responds forbidden.

(** A server that is busy once, asks for 3 seconds, and then answers. *)
Definition threeAgents : Response Z :=
  MakeResponse 200 (Some "application/json"%string) None "" (JArray [1; 2; 3]).

Definition busyOnce : string -> nat -> Outcome Z :=
  fun _ attempt =>
    match attempt with
    | O => Responds (MakeResponse 429 (Some "application/json"%string) (Some "3"%string) "" JOther)
    | _ => Responds threeAgents
    end.

(** A server that stays busy and asks for 7 seconds each time. *)
Definition unavailable : Response Z :=
  MakeResponse 503 None (Some "7"%string) "" JOther.

Definition busyServer : string -> nat -> Outcome Z := fun _ _ => Responds unavailable.

Definition listEndpoint : string := "/v2/agents".

(** The hundred numbers from [first] on. *)
Definition hundred (first : Z) : list Z := map (fun i => first + Z.of_nat i) (seq 0 100).

(** A server that holds a list in [pages] and answers the request for the
    page [k] with the [k]-th of them, and with 500 when there is none. *)
Definition listServer (pages : list (list Z)) : string -> nat -> Outcome Z :=
  fun url _ =>
    match List.find
            (fun kp => String.eqb url
                         (getTargetUrl listEndpoint
                            [("page"%string, Js.ofZ (fst kp)); ("per_page"%string, "100"%string)]))
            (imap (fun i p => (Z.of_nat (S i), p)) pages) with
    | Some kp => Responds (MakeResponse 200 (Some "application/json"%string) None ""
                             (JArray (snd kp)))
    | None => Responds (MakeResponse 500 None None "" JOther)
    end.

(** The same server, but busy beyond its pages. *)
Definition busyBeyond (pages : list (list Z)) : string -> nat -> Outcome Z :=
  fun url attempt =>
    match listServer pages url attempt with
    | Responds r => if ok r then Responds r else Responds unavailable
    | Rejects e => Rejects e
    end.

(** A server that holds the thread of ticket #100 in one page. *)
Definition threadServer : string -> nat -> Outcome Conversation.t :=
  fun url _ =>
    if String.eqb url
         (getTargetUrl "/v2/tickets/100/conversations"
            [("page"%string, "1"%string); ("per_page"%string, "100"%string)])
    then Responds (MakeResponse 200 (Some "application/json"%string) None ""
                     (JArray [replyA; spamNoteA]))
    else Responds (MakeResponse 404 (Some "application/json"%string) None "" JOther).

(** A server that answers every request with the body [null]. *)
Definition nullServer : string -> nat -> Outcome Z :=
  fun _ _ => Responds (MakeResponse 200 (Some "application/json"%string) None "null" JNull).

(** The no-break space, the small and the capital e with acute accent, and
    the sharp s. *)
Definition nbsp : string := String (ascii_of_nat 160) EmptyString.
Definition eAcute : string := String (ascii_of_nat 233) EmptyString.
Definition capitalEAcute : string := String (ascii_of_nat 201) EmptyString.
Definition sharpS : string := String (ascii_of_nat 223) EmptyString.

(** Ticket #100 with its subject in capitals. *)
Definition shouted100 : Ticket.t :=
  Ticket.Make 100 9 1 7 "WHERE IS MY ORDER" "" 5 1 1704067200000 1704070000000
    (Some stats100) [replyA; spamNoteA].

(** A storage with room for everything, and one that takes no second
    entry. *)
Definition roomy : gmap string (CacheService.Item (list Conversation.t)) -> string ->
    CacheService.Item (list Conversation.t) -> option string :=
  fun _ _ _ => None.

Definition crowded : gmap string (CacheService.Item (list Conversation.t)) -> string ->
    CacheService.Item (list Conversation.t) -> option string :=
  fun store _ _ =>
    if (size store =? 0)%nat then None else Some "QuotaExceededError"%string.

Definition oneThread : gmap string (CacheService.Item (list Conversation.t)) :=
  {[ CacheService.convKey 200 := CacheService.Parsed 1704071000000 [automationNote] ]}.

End Samples.

(** * Properties of the rate limiter *)

Section LimiterFacts.
Import RateLimiter.

Lemma processQueue_frame now now' l :
  globalRetryAfter (fst (processQueue now now' l)) = globalRetryAfter l /\
  maxConcurrent (fst (processQueue now now' l)) = maxConcurrent l /\
  windowMs (fst (processQueue now now' l)) = windowMs l /\
  maxPerWindow (fst (processQueue now now' l)) = maxPerWindow l.
Proof.
  unfold processQueue.
  repeat (case_match; simpl); auto.
Qed.

(** Either nothing is admitted, and the log of stamps is at most pruned, or
    the head of the queue is admitted past the three checks. *)
Lemma processQueue_cases now now' l :
  let r := processQueue now now' l in
  let pruned := filter (fun t => now - t < windowMs l) (requestTimestamps l) in
  ((forall task at_, snd r <> Started task at_) /\
   activeRequests (fst r) = activeRequests l /\
   (requestTimestamps (fst r) = requestTimestamps l \/
    requestTimestamps (fst r) = pruned))
  \/
  (exists task, snd r = Started task now' /\
   globalRetryAfter l <= now /\
   activeRequests l < maxConcurrent l /\
   Z.of_nat (length pruned) < maxPerWindow l /\
   queue l = task :: queue (fst r) /\
   activeRequests (fst r) = activeRequests l + 1 /\
   requestTimestamps (fst r) = pruned ++ [now']).
Proof.
  unfold processQueue.
  destruct (now <? globalRetryAfter l) eqn:Hb; simpl.
  { left. repeat split; auto; discriminate. }
  destruct (maxConcurrent l <=? activeRequests l) eqn:Hc; simpl.
  { left. repeat split; auto; discriminate. }
  destruct (maxPerWindow l <=? _) eqn:Hw; simpl.
  { left. repeat split; auto. intros task at_. case_match; discriminate. }
  destruct (queue l) as [|item rest] eqn:Hq; simpl.
  { left. repeat split; auto; discriminate. }
  right. exists item. repeat split; auto; lia.
Qed.

Lemma length_filter_mono {A} (P Q : A -> Prop)
    `{!forall x, Decision (P x)} `{!forall x, Decision (Q x)} (l : list A) :
  (forall x, P x -> Q x) -> (length (filter P l) <= length (filter Q l))%nat.
Proof.
  intros HPQ. induction l as [|x l IH]; [done|].
  rewrite !filter_cons.
  destruct (decide (P x)) as [HP|HP]; destruct (decide (Q x)) as [HQ|HQ]; simpl; try lia.
  exfalso. auto.
Qed.

Lemma filter_pruned (W now c : Z) (ts : list Z) :
  now <= c ->
  filter (fun t => c - t < W) (filter (fun t => now - t < W) ts)
  = filter (fun t => c - t < W) ts.
Proof.
  intros Hc. rewrite list_filter_filter. apply list_filter_iff. intros t. lia.
Qed.

(** One call of [processQueue] on a limiter that agrees with the records of
    the system keeps the invariant. *)
Lemma record_quotaInv N W M s l0 inFlight0 now now' :
  clock s <= now -> now <= now' ->
  maxConcurrent l0 = N -> windowMs l0 = W -> maxPerWindow l0 = M ->
  activeRequests l0 = Z.of_nat (length inFlight0) ->
  Z.of_nat (length inFlight0) <= N ->
  requestTimestamps l0 = requestTimestamps (limiter s) ->
  quotaInv N W M s ->
  quotaInv N W M (record s now' inFlight0 (processQueue now now' l0)).
Proof.
  intros Hclk Hnow HN HW HM Hact Hcap Hts (_ & _ & _ & _ & _ & HJ & Hwin).
  destruct (processQueue_frame now now' l0) as (_ & HN' & HW' & HM').
  destruct (processQueue_cases now now' l0) as
    [(Hno & Hact' & Hts') | (task & Hst & _ & Hlt & Hroom & _ & Hact' & Hts')].
  - assert (Hrec : record s now' inFlight0 (processQueue now now' l0) =
                   {| limiter := fst (processQueue now now' l0); clock := now';
                      inFlight := inFlight0; starts := starts s |}).
    { unfold record. destruct (snd (processQueue now now' l0)) eqn:E; try reflexivity.
      exfalso. eapply Hno. reflexivity. }
    rewrite Hrec. unfold quotaInv, startsIn in *. simpl.
    repeat split; try congruence; try lia; [|exact Hwin].
    intros c Hc. rewrite HJ by lia.
    destruct Hts' as [-> | ->]; rewrite Hts; [done|].
    rewrite HW, filter_pruned by lia. done.
  - unfold record. rewrite Hst.
    unfold quotaInv, startsIn in *. simpl.
    repeat split; try congruence.
    + rewrite Hact', length_app. simpl. lia.
    + rewrite length_app. simpl. lia.
    + intros c Hc. rewrite Hts', Hts, HW, !filter_app, !length_app.
      rewrite filter_pruned by lia. rewrite HJ by lia.
      f_equal. rewrite !filter_cons, !filter_nil. simpl.
      destruct (decide (c - now' < W)); reflexivity.
    + intros a. rewrite filter_app, length_app, filter_cons, filter_nil. simpl.
      destruct (decide (a <= now' < a + W)) as [Hin|Hout]; simpl.
      * assert (Hle : (length (filter (fun st : Z * Task => (a <= fst st < a + W)%Z) (starts s))
                       <= length (filter (fun st : Z * Task => (now - fst st < W)%Z) (starts s)))%nat).
        { apply length_filter_mono. intros st. lia. }
        rewrite HJ in Hle by lia. rewrite Hts, HW in Hroom. lia.
      * specialize (Hwin a). lia.
Qed.

Lemma removeFirst_length task l rest :
  removeFirst task l = Some rest -> length l = S (length rest).
Proof.
  revert rest. induction l as [|x l IH]; intros rest; simpl; [discriminate|].
  destruct (decide (x = task)).
  - intros [= ->]. reflexivity.
  - destruct (removeFirst task l) eqn:E; simpl; [|discriminate].
    intros [= <-]. simpl. f_equal. apply IH. reflexivity.
Qed.

Lemma step_quotaInv N W M s e s' :
  isConfig e = false ->
  step s e = Some s' -> quotaInv N W M s -> quotaInv N W M s'.
Proof.
  intros Hcfg Hstep Hinv.
  pose proof Hinv as (HN & HW & HM & Hact & Hcap & HJ & Hwin).
  destruct e as [task now now'|now now'|task now now'|seconds now|config now];
    simpl in Hstep; try discriminate.
  - destruct (ticks s now now') eqn:Ht; [|discriminate].
    apply andb_prop in Ht as [H1 H2]. injection Hstep as <-.
    apply record_quotaInv; simpl; auto; lia.
  - destruct (ticks s now now') eqn:Ht; [|discriminate].
    apply andb_prop in Ht as [H1 H2]. injection Hstep as <-.
    apply record_quotaInv; simpl; auto; lia.
  - destruct (ticks s now now') eqn:Ht; [|discriminate].
    apply andb_prop in Ht as [H1 H2].
    destruct (removeFirst task (inFlight s)) as [rest|] eqn:Hrm; [|discriminate].
    injection Hstep as <-. apply removeFirst_length in Hrm.
    apply record_quotaInv; simpl; auto; lia.
  - destruct (clock s <=? now) eqn:Ht; [|discriminate]. injection Hstep as <-.
    unfold quotaInv, startsIn in *. simpl. repeat split; auto.
    intros c Hc. apply HJ. lia.
Qed.

Lemma run_quotaInv N W M es : forall s s',
  forallb (fun e => negb (isConfig e)) es = true ->
  run s es = Some s' -> quotaInv N W M s -> quotaInv N W M s'.
Proof.
  induction es as [|e es IH]; intros s s' Hcfg Hrun Hinv; simpl in *.
  - injection Hrun as <-. exact Hinv.
  - apply andb_prop in Hcfg as [He Hes].
    destruct (step s e) as [s1|] eqn:Hstep; [|discriminate].
    eapply IH; eauto. eapply step_quotaInv; eauto.
    destruct (isConfig e); [discriminate|reflexivity].
Qed.

Lemma configured_quotaInv N W M t0 :
  0 <= N -> 0 <= M -> quotaInv N W M (configured N W M t0).
Proof.
  intros HN HM. unfold quotaInv, startsIn, configured. simpl.
  repeat split; auto; lia.
Qed.

(** C2. With the configuration fixed at [N], [W], [M], every state the limiter
    reaches has at most [N] tasks in flight and has started at most [M] tasks
    in any window [[a, a + W)]. *)
Theorem quota_respected (N W M t0 : Z) (es : list Event) (s : System) :
  0 <= N -> 0 <= M ->
  forallb (fun e => negb (isConfig e)) es = true ->
  run (configured N W M t0) es = Some s ->
  Z.of_nat (length (inFlight s)) <= N /\ forall a, startsIn a W s <= M.
Proof.
  intros HN HM Hcfg Hrun.
  destruct (run_quotaInv N W M es _ _ Hcfg Hrun (configured_quotaInv N W M t0 HN HM))
    as (_ & _ & _ & _ & Hcap & _ & Hwin).
  split; assumption.
Qed.








(** Two at a time, three per second, five tasks submitted at once. *)
Lemma quota_respected_witness :
  exists s,
    run (configured 2 1000 3 0)
      [Schedule 1%nat 0 0; Schedule 2%nat 0 0; Schedule 3%nat 0 0; Schedule 4%nat 0 0;
       Schedule 5%nat 0 0; Settle 1%nat 10 10; Settle 2%nat 20 20; Timer 1000 1000;
       Settle 3%nat 1001 1001; Timer 1060 1060] = Some s /\
    Z.of_nat (length (inFlight s)) <= 2 /\ forall a, startsIn a 1000 s <= 3.
Proof.
  eexists. split; [vm_compute; reflexivity|].
  apply (quota_respected 2 1000 3 0
           [Schedule 1%nat 0 0; Schedule 2%nat 0 0; Schedule 3%nat 0 0; Schedule 4%nat 0 0;
            Schedule 5%nat 0 0; Settle 1%nat 10 10; Settle 2%nat 20 20; Timer 1000 1000;
            Settle 3%nat 1001 1001; Timer 1060 1060]);
    [lia|lia|vm_compute; reflexivity|vm_compute; reflexivity].
Defined.
End LimiterFacts.

(** * Facts about maps and sorting *)

Section JsMapFacts.
Context {K V : Type} `{EqDecision K}.
Implicit Types (m : list (K * V)).

Lemma get_set k k' v m :
  JsMap.get k (JsMap.set k' v m) = if decide (k = k') then Some v else JsMap.get k m.
Proof.
  induction m as [|[k0 v0] m IH]; simpl.
  - destruct (decide (k = k')); reflexivity.
  - destruct (decide (k' = k0)) as [->|Hne]; simpl.
    + destruct (decide (k = k0)); reflexivity.
    + destruct (decide (k = k0)) as [->|Hne'].
      * destruct (decide (k0 = k')); [congruence|reflexivity].
      * exact IH.
Qed.

Lemma has_get k m : JsMap.has k m = bool_decide (is_Some (JsMap.get k m)).
Proof.
  unfold JsMap.has. destruct (JsMap.get k m) eqn:E.
  - symmetry. apply bool_decide_eq_true. eauto.
  - symmetry. apply bool_decide_eq_false. intros [? ?]. discriminate.
Qed.

Lemma has_set k k' v m :
  JsMap.has k (JsMap.set k' v m) = bool_decide (k = k') || JsMap.has k m.
Proof.
  unfold JsMap.has. rewrite get_set.
  destruct (decide (k = k')) as [->|Hne].
  - rewrite bool_decide_eq_true_2 by reflexivity. reflexivity.
  - rewrite bool_decide_eq_false_2 by assumption. reflexivity.
Qed.

Lemma get_elem k v m : JsMap.get k m = Some v -> (k, v) ∈ m.
Proof.
  induction m as [|[k0 v0] m IH]; simpl; [discriminate|].
  destruct (decide (k = k0)) as [->|Hne].
  - intros [= ->]. left.
  - intros Hget. right. auto.
Qed.

Lemma Forall_set (P : K * V -> Prop) k v m :
  Forall P m -> P (k, v) -> Forall P (JsMap.set k v m).
Proof.
  intros Hm Hv. induction Hm as [|[k0 v0] m H0 Hm IH]; simpl.
  - constructor; [exact Hv|constructor].
  - destruct (decide (k = k0)); constructor; auto.
Qed.

Lemma Forall_get (P : K * V -> Prop) k v m :
  Forall P m -> JsMap.get k m = Some v -> P (k, v).
Proof.
  intros Hm Hget. apply get_elem in Hget.
  rewrite Forall_forall in Hm. auto.
Qed.

Lemma keys_set_present k v v0 m :
  JsMap.get k m = Some v0 -> JsMap.keys (JsMap.set k v m) = JsMap.keys m.
Proof.
  unfold JsMap.keys. induction m as [|[k0 v1] m IH]; simpl; [discriminate|].
  destruct (decide (k = k0)) as [->|Hne]; simpl; [reflexivity|].
  intros Hget. f_equal. auto.
Qed.

Lemma keys_set_NoDup k v m : NoDup (JsMap.keys m) -> NoDup (JsMap.keys (JsMap.set k v m)).
Proof.
  intros Hnd. destruct (JsMap.get k m) as [v0|] eqn:Hget.
  - erewrite keys_set_present; eauto.
  - assert (Hk : JsMap.keys (JsMap.set k v m) = JsMap.keys m ++ [k]).
    { clear Hnd. unfold JsMap.keys. induction m as [|[k0 v1] m IH]; simpl in *; [reflexivity|].
      destruct (decide (k = k0)); [discriminate|]. simpl. f_equal. auto. }
    rewrite Hk. apply NoDup_app. repeat split; [exact Hnd| |apply NoDup_singleton].
    intros x Hx Hx'. apply list_elem_of_singleton in Hx' as ->.
    clear Hk Hnd. unfold JsMap.keys in Hx. induction m as [|[k0 v1] m IH]; simpl in *.
    + apply elem_of_nil in Hx. exact Hx.
    + destruct (decide (k = k0)); [discriminate|].
      apply elem_of_cons in Hx as [?|?]; [congruence|auto].
Qed.

Lemma elem_get k v m : NoDup (JsMap.keys m) -> (k, v) ∈ m -> JsMap.get k m = Some v.
Proof.
  unfold JsMap.keys. induction m as [|[k0 v0] m IH]; simpl; intros Hnd Hin.
  - apply elem_of_nil in Hin. destruct Hin.
  - apply NoDup_cons in Hnd as [Hk0 Hnd].
    apply elem_of_cons in Hin as [[= -> ->]|Hin].
    + case_decide; [reflexivity|congruence].
    + destruct (decide (k = k0)) as [->|Hne]; [|auto].
      exfalso. apply Hk0. apply list_elem_of_In, in_map_iff.
      exists (k0, v). split; [reflexivity|apply list_elem_of_In; exact Hin].
Qed.

End JsMapFacts.

Section SortFacts.
Context {A : Type} (le : A -> A -> bool).

Lemma insertSorted_elem x y l : y ∈ Js.insertSorted le x l <-> y = x \/ y ∈ l.
Proof.
  induction l as [|z l IH]; simpl.
  - rewrite list_elem_of_singleton, elem_of_nil. tauto.
  - destruct (le x z); rewrite !elem_of_cons; [tauto|]. rewrite IH. tauto.
Qed.

Lemma sort_elem y l : y ∈ Js.sort le l <-> y ∈ l.
Proof.
  unfold Js.sort. induction l as [|x l IH]; simpl; [reflexivity|].
  rewrite insertSorted_elem, IH, elem_of_cons. tauto.
Qed.

End SortFacts.

(** * Properties of the aggregation engine *)

Section LogicFacts.
Import LogicUtils.

(** [ceil15] is [Math.ceil(min * 1.5)] computed on the rational [min * 3/2]. *)
Lemma ceil15_spec (m : Z) : ceil15 m = Qceiling ((3 # 2) * inject_Z m).
Proof.
  unfold ceil15, Qceiling, Qfloor, Qopp, Qmult, inject_Z. simpl.
  change (Z.pos (2 * 1)) with 2.
  pose proof (Z.div_mod (3 * m + 1) 2 ltac:(lia)) as H1.
  pose proof (Z.mod_pos_bound (3 * m + 1) 2 ltac:(lia)) as H2.
  pose proof (Z.div_mod (- (3 * m)) 2 ltac:(lia)) as H3.
  pose proof (Z.mod_pos_bound (- (3 * m)) 2 ltac:(lia)) as H4.
  lia.
Qed.

Lemma constrain_fst (min max : Z) : fst (constrainTimeEstimate min max) = min.
Proof. reflexivity. Qed.

Lemma constrain_bounds (min max : Z) :
  0 <= min ->
  min <= snd (constrainTimeEstimate min max) <= ceil15 min.
Proof.
  intros Hmin. unfold constrainTimeEstimate, ceil15. simpl.
  pose proof (Z.div_mod (3 * min + 1) 2 ltac:(lia)) as H1.
  pose proof (Z.mod_pos_bound (3 * min + 1) 2 ltac:(lia)) as H2.
  destruct (3 * min <? 2 * max) eqn:E1;
    [apply Z.ltb_lt in E1|apply Z.ltb_ge in E1];
    match goal with |- context [?a <? ?b] => destruct (Z.ltb_spec a b) end; lia.
Qed.

Lemma constrain_snd (min max : Z) :
  snd (constrainTimeEstimate min max)
  = Z.max min (if 3 * min <? 2 * max then ceil15 min else max).
Proof.
  unfold constrainTimeEstimate. simpl.
  destruct (3 * min <? 2 * max);
    match goal with |- context [?a <? ?b] => destruct (Z.ltb_spec a b) end; lia.
Qed.

(** C10. [constrainTimeEstimate] returns its first argument unchanged and
    applying it to its own result changes nothing; this holds on all integers,
    the non-negative ones among them. *)
Theorem constrain_idempotent (min max : Z) :
  let r := constrainTimeEstimate min max in
  fst r = min /\ constrainTimeEstimate (fst r) (snd r) = r.
Proof.
  cbv zeta. split; [apply constrain_fst|].
  rewrite constrain_fst.
  apply injective_projections; [rewrite !constrain_fst; reflexivity|].
  rewrite !constrain_snd. unfold ceil15.
  pose proof (Z.div_mod (3 * min + 1) 2 ltac:(lia)) as H1.
  pose proof (Z.mod_pos_bound (3 * min + 1) 2 ltac:(lia)) as H2.
  destruct (Z.ltb_spec (3 * min) (2 * max));
    match goal with |- context [?a <? ?b] => destruct (Z.ltb_spec a b) end; lia.
Qed.


Section Engine.
Variable localOffset : Z -> Z.
Variable agentMap : list (Z * string).
Variables startDate endDate : Z.

Local Abbreviation qualifies := (qualifies agentMap startDate endDate).
Local Abbreviation counts := (counts agentMap startDate endDate).
Local Abbreviation creditActivity := (creditActivity localOffset).
Local Abbreviation activityStep := (activityStep localOffset agentMap startDate endDate).
Local Abbreviation activityPass := (activityPass localOffset agentMap startDate endDate).
Local Abbreviation creditClosure := (creditClosure localOffset).
Local Abbreviation closurePass := (closurePass localOffset agentMap startDate endDate).
Local Abbreviation aggregate := (aggregate localOffset agentMap startDate endDate).
Local Abbreviation touchedBy := (touchedBy agentMap startDate endDate).
Local Abbreviation touchedOnly := (touchedOnly agentMap startDate endDate).

Local Arguments LogicUtils.activityStep : simpl never.
Local Arguments LogicUtils.workedStep : simpl never.
Local Arguments LogicUtils.activityPass : simpl never.
Local Arguments LogicUtils.closurePass : simpl never.
Local Arguments LogicUtils.creditActivity : simpl never.
Local Arguments LogicUtils.creditClosure : simpl never.
Local Arguments LogicUtils.creditWorked : simpl never.

Implicit Types (m : list (Z * AgentData.t)) (w : list Z) (tk : Ticket.t)
  (c : Conversation.t) (ad : AgentData.t) (P Q : Z * AgentData.t -> Prop).

Lemma counts_qualifies m c : counts m c = true -> qualifies c = true.
Proof.
  unfold LogicUtils.counts, LogicUtils.qualifies.
  destruct (inRange _ _ _), (JsMap.has _ agentMap), (JsMap.has _ m), (isSystem c);
    simpl; congruence.
Qed.

(** ** Properties of every record that the two passes keep *)

Lemma activityStep_Forall P tk c m w :
  (forall ad, qualifies c = true ->
     P (Conversation.user_id c, ad) ->
     P (Conversation.user_id c, creditActivity tk c ad)) ->
  Forall P m -> Forall P (fst (activityStep tk (m, w) c)).
Proof.
  intros Hc Hm. unfold LogicUtils.activityStep.
  destruct (counts m c) eqn:Hcnt; [|exact Hm].
  destruct (JsMap.get (Conversation.user_id c) m) as [ad|] eqn:Hget; [|exact Hm].
  simpl. apply Forall_set; [exact Hm|].
  apply Hc; [eapply counts_qualifies; eauto|].
  eapply Forall_get; eauto.
Qed.

Lemma activityFold_Forall P tk cs : forall m w,
  (forall c ad, c ∈ cs -> qualifies c = true ->
     P (Conversation.user_id c, ad) ->
     P (Conversation.user_id c, creditActivity tk c ad)) ->
  Forall P m -> Forall P (fst (fold_left (activityStep tk) cs (m, w))).
Proof.
  induction cs as [|c cs IH]; intros m w Hc Hm; simpl; [exact Hm|].
  pose proof (activityStep_Forall P tk c m w) as Hstep.
  destruct (activityStep tk (m, w) c) as [m' w'] eqn:E.
  apply IH.
  - intros c' ad Hin. apply Hc. right. exact Hin.
  - apply Hstep; [|exact Hm]. intros ad. apply Hc. left.
Qed.

Lemma workedFold_Forall P tk w : forall m,
  (forall k ad, P (k, ad) -> P (k, creditWorked tk ad)) ->
  Forall P m -> Forall P (fold_left (workedStep tk) w m).
Proof.
  induction w as [|a w IH]; intros m Hw Hm; simpl; [exact Hm|].
  apply IH; [exact Hw|]. unfold workedStep.
  destruct (JsMap.get a m) as [ad|] eqn:Hget; [|exact Hm].
  apply Forall_set; [exact Hm|]. apply Hw. eapply Forall_get; eauto.
Qed.

Lemma activityPass_Forall P tk m :
  (forall c ad, c ∈ Ticket.conversations tk -> qualifies c = true ->
     P (Conversation.user_id c, ad) ->
     P (Conversation.user_id c, creditActivity tk c ad)) ->
  (forall k ad, P (k, ad) -> P (k, creditWorked tk ad)) ->
  Forall P m -> Forall P (activityPass m tk).
Proof.
  intros Hc Hw Hm. unfold LogicUtils.activityPass.
  pose proof (activityFold_Forall P tk (Ticket.conversations tk) m [] Hc Hm) as H1.
  destruct (fold_left _ _ _) as [m' w'].
  apply workedFold_Forall; assumption.
Qed.

Lemma closurePass_Forall P Q tk m :
  (forall e, P e -> Q e) ->
  (forall ad, P (Ticket.responder_id tk, ad) ->
     Ticket.id tk ∈ AgentData.ticketIds ad ->
     Q (Ticket.responder_id tk, creditClosure tk ad)) ->
  Forall P m -> Forall Q (closurePass m tk).
Proof.
  intros HPQ Hc Hm.
  assert (HQ : Forall Q m) by (eapply Forall_impl; eauto).
  unfold LogicUtils.closurePass.
  repeat (case_match; try exact HQ).
  apply Forall_set; [exact HQ|]. apply Hc; [|assumption].
  eapply Forall_get; eauto.
Qed.

Lemma pass1_Forall P tickets : forall m,
  (forall tk c ad, tk ∈ tickets -> c ∈ Ticket.conversations tk -> qualifies c = true ->
     P (Conversation.user_id c, ad) ->
     P (Conversation.user_id c, creditActivity tk c ad)) ->
  (forall tk k ad, P (k, ad) -> P (k, creditWorked tk ad)) ->
  Forall P m -> Forall P (fold_left activityPass tickets m).
Proof.
  induction tickets as [|tk tickets IH]; intros m Hc Hw Hm; simpl; [exact Hm|].
  apply IH; [intros tk' c ad Hin; apply Hc; right; exact Hin|exact Hw|].
  apply activityPass_Forall; [|apply Hw|exact Hm].
  intros c ad. apply Hc. left.
Qed.

Lemma pass2_Forall P tickets : forall m,
  (forall tk ad, tk ∈ tickets -> P (Ticket.responder_id tk, ad) ->
     Ticket.id tk ∈ AgentData.ticketIds ad ->
     P (Ticket.responder_id tk, creditClosure tk ad)) ->
  Forall P m -> Forall P (fold_left closurePass tickets m).
Proof.
  induction tickets as [|tk tickets IH]; intros m Hc Hm; simpl; [exact Hm|].
  apply IH; [intros tk' ad Hin; apply Hc; right; exact Hin|].
  apply (closurePass_Forall P P); [auto| |exact Hm].
  intros ad. apply Hc. left.
Qed.

Lemma initialActivity_Forall P :
  (forall k name, P (k, newAgentData name)) -> Forall P (initialActivity agentMap).
Proof.
  intros HP. unfold initialActivity, JsMap.entries.
  assert (H : forall l m, Forall P m ->
            Forall P (fold_left (fun m e => JsMap.set (fst e) (newAgentData (snd e)) m) l m)).
  { induction l as [|e l IH]; intros m Hm; simpl; [exact Hm|].
    apply IH. apply Forall_set; [exact Hm|apply HP]. }
  apply H. constructor.
Qed.

(** Whatever holds of a fresh record and is kept by the three updates holds
    of every record that [aggregate] returns. *)
Lemma aggregate_Forall P tickets :
  (forall k name, P (k, newAgentData name)) ->
  (forall tk c ad, tk ∈ tickets -> c ∈ Ticket.conversations tk -> qualifies c = true ->
     P (Conversation.user_id c, ad) ->
     P (Conversation.user_id c, creditActivity tk c ad)) ->
  (forall tk k ad, P (k, ad) -> P (k, creditWorked tk ad)) ->
  (forall tk ad, tk ∈ tickets -> P (Ticket.responder_id tk, ad) ->
     Ticket.id tk ∈ AgentData.ticketIds ad ->
     P (Ticket.responder_id tk, creditClosure tk ad)) ->
  Forall P (aggregate tickets).
Proof.
  intros H0 H1 H2 H3. unfold LogicUtils.aggregate.
  apply pass2_Forall; [exact H3|].
  apply pass1_Forall; [exact H1|exact H2|].
  apply initialActivity_Forall. exact H0.
Qed.


(** ** Estimates never go negative *)

Lemma aggregate_nonneg tickets : Forall nonneg (aggregate tickets).
Proof.
  apply aggregate_Forall; unfold nonneg; simpl.
  - intros _ _. split; [lia|constructor].
  - intros tk c ad _ _ _ [Hmin Hdaily].
    unfold LogicUtils.creditActivity; simpl.
    set (dateStr := formatLocalDate localOffset _).
    set (daily := ensure dateStr _ _).
    assert (Hd : Forall (fun d : string * Daily.t => 0 <= Daily.totalMin (snd d)) daily).
    { unfold daily, ensure. destruct (JsMap.has _ _); [exact Hdaily|].
      apply Forall_set; [exact Hdaily|simpl; lia]. }
    split.
    + repeat case_match; lia.
    + apply Forall_set; [exact Hd|].
      destruct (JsMap.get dateStr daily) as [dd|] eqn:Hget; simpl.
      * apply (Forall_get _ _ _ _ Hd) in Hget. simpl in Hget. case_match; simpl; lia.
      * case_match; simpl; lia.
  - intros tk k ad H. exact H.
  - intros tk ad _ [Hmin Hdaily] _.
    unfold LogicUtils.creditClosure; simpl. split; [lia|].
    destruct (JsMap.get _ _) as [dd|] eqn:Hget.
    + apply Forall_set; [exact Hdaily|].
      apply (Forall_get _ _ _ _ Hdaily) in Hget. simpl in *. lia.
    + apply Forall_set; [exact Hdaily|simpl; lia].
Qed.

(** ** Closures are counted on touched tickets, one per ticket *)

Lemma pass1_unclosed tickets :
  Forall (fun e => AgentData.totalClosed (snd e) = 0)
         (fold_left activityPass tickets (initialActivity agentMap)).
Proof.
  apply pass1_Forall; simpl; auto.
  apply initialActivity_Forall. reflexivity.
Qed.

Lemma pass2_closedOn post : forall done m,
  NoDup (map Ticket.id (done ++ post)) ->
  Forall (closedOn done) m ->
  Forall (closedOn (done ++ post)) (fold_left closurePass post m).
Proof.
  induction post as [|tk post IH]; intros done m Hnd Hm; simpl.
  - rewrite app_nil_r. exact Hm.
  - replace (done ++ tk :: post) with ((done ++ [tk]) ++ post) in *
      by (rewrite <- app_assoc; reflexivity).
    apply IH; [exact Hnd|].
    apply (closurePass_Forall (closedOn done)); [| |exact Hm].
    + intros e (credited & Hsub & Hin & Hsz). exists credited.
      repeat split; auto. intros x Hx. rewrite map_app, elem_of_app. left. auto.
    + intros ad (credited & Hsub & Hin & Hsz) Htouched. simpl in *.
      assert (Hfresh : Ticket.id tk ∉ credited).
      { intros Hc. apply Hin in Hc.
        rewrite !map_app in Hnd. apply NoDup_app in Hnd as (Hnd & _ & _).
        apply NoDup_app in Hnd as (_ & Hdis & _).
        apply (Hdis _ Hc). simpl. left. }
      exists ({[Ticket.id tk]} ∪ credited). simpl. repeat split.
      * apply union_subseteq. split; [|exact Hsub].
        apply singleton_subseteq_l. exact Htouched.
      * intros x Hx. rewrite map_app, elem_of_app.
        apply elem_of_union in Hx as [Hx|Hx]; [right|left; auto].
        apply elem_of_singleton in Hx as ->. simpl. left.
      * rewrite size_union, size_singleton by (apply disjoint_singleton_l; exact Hfresh).
        unfold LogicUtils.creditClosure; simpl. lia.
Qed.

Lemma aggregate_closedOn tickets :
  NoDup (map Ticket.id tickets) -> Forall (closedOn tickets) (aggregate tickets).
Proof.
  intros Hnd. unfold LogicUtils.aggregate.
  apply (pass2_closedOn tickets []); [exact Hnd|].
  eapply Forall_impl; [apply pass1_unclosed|].
  intros e He. exists ∅. repeat split.
  - apply empty_subseteq.
  - intros x Hx. apply not_elem_of_empty in Hx. destruct Hx.
  - rewrite He, size_empty. reflexivity.
Qed.

(** ** Every touched ticket has a conversation that qualifies *)

Lemma pass1_touchedOnly tickets :
  Forall (touchedOnly tickets) (fold_left activityPass tickets (initialActivity agentMap)).
Proof.
  apply pass1_Forall; unfold touchedOnly; simpl.
  - intros tk c ad Htk Hc Hq Had x Hx.
    unfold LogicUtils.creditActivity in Hx; simpl in Hx.
    apply elem_of_union in Hx as [Hx|Hx]; [|auto].
    apply elem_of_singleton in Hx as ->. exists tk, c. auto.
  - intros tk k ad Had x Hx. apply Had. exact Hx.
  - apply initialActivity_Forall. intros k name x Hx. simpl in Hx.
    apply not_elem_of_empty in Hx. destruct Hx.
Qed.

Lemma pass2_touchedOnly tickets done m :
  Forall (touchedOnly tickets) m ->
  Forall (touchedOnly tickets) (fold_left closurePass done m).
Proof.
  intros Hm. apply pass2_Forall; [|exact Hm].
  intros tk ad _ Had _ x Hx. apply Had. exact Hx.
Qed.

(** ** One agent's record depends on that agent's record only *)

Lemma elem_of_addWorked r a w : r ∈ addWorked a w <-> r ∈ w \/ r = a.
Proof.
  unfold addWorked. destruct (decide (a ∈ w)) as [Hin|Hout].
  - split; [auto|]. intros [H| ->]; assumption.
  - rewrite elem_of_app, list_elem_of_singleton. reflexivity.
Qed.

Lemma addWorked_NoDup a w : NoDup w -> NoDup (addWorked a w).
Proof.
  intros Hw. unfold addWorked. destruct (decide (a ∈ w)) as [Hin|Hout]; [exact Hw|].
  apply NoDup_app. repeat split; [exact Hw| |apply NoDup_singleton].
  intros x Hx Hx'. apply list_elem_of_singleton in Hx' as ->. contradiction.
Qed.

Lemma counts_split m c :
  counts m c = qualifies c && JsMap.has (Conversation.user_id c) m.
Proof.
  unfold LogicUtils.counts, LogicUtils.qualifies.
  destruct (inRange _ _ _), (JsMap.has _ agentMap), (JsMap.has _ m), (isSystem c);
    reflexivity.
Qed.

Lemma activityStep_get r tk c m w :
  JsMap.get r (fst (activityStep tk (m, w) c))
  = (if decide (r = Conversation.user_id c)
     then if qualifies c then creditActivity tk c <$> JsMap.get r m else JsMap.get r m
     else JsMap.get r m)
  /\ (r ∈ snd (activityStep tk (m, w) c) <->
      r ∈ w \/ (r = Conversation.user_id c /\ qualifies c = true /\ is_Some (JsMap.get r m))).
Proof.
  unfold LogicUtils.activityStep. rewrite counts_split. unfold JsMap.has.
  destruct (qualifies c) eqn:Hq; simpl;
    destruct (JsMap.get (Conversation.user_id c) m) as [ad|] eqn:Hget; simpl.
  - rewrite get_set, elem_of_addWorked.
    destruct (decide (r = Conversation.user_id c)) as [->|Hne].
    + rewrite Hget. simpl. split; [reflexivity|]. split; [intros _; right; eauto|auto].
    + split; [reflexivity|]. split; [intros [H|H]; [auto|contradiction]|].
      intros [H|(H & _)]; [auto|contradiction].
  - destruct (decide (r = Conversation.user_id c)) as [->|Hne].
    + rewrite Hget. simpl. split; [reflexivity|]. split; [auto|].
      intros [H|(_ & _ & [? ?])]; [auto|discriminate].
    + split; [reflexivity|]. split; [auto|]. intros [H|(H & _)]; [auto|contradiction].
  - destruct (decide (r = Conversation.user_id c)); (split; [reflexivity|]);
      (split; [auto|]); intros [H|(_ & H & _)]; auto; discriminate.
  - destruct (decide (r = Conversation.user_id c)); (split; [reflexivity|]);
      (split; [auto|]); intros [H|(_ & H & _)]; auto; discriminate.
Qed.

Lemma activityFold_local r tk cs : forall m1 w1 m2 w2,
  JsMap.get r m1 = JsMap.get r m2 -> (r ∈ w1 <-> r ∈ w2) ->
  JsMap.get r (fst (fold_left (activityStep tk) cs (m1, w1)))
  = JsMap.get r (fst (fold_left (activityStep tk) cs (m2, w2)))
  /\ (r ∈ snd (fold_left (activityStep tk) cs (m1, w1)) <->
      r ∈ snd (fold_left (activityStep tk) cs (m2, w2))).
Proof.
  induction cs as [|c cs IH]; intros m1 w1 m2 w2 Hm Hw; simpl; [auto|].
  destruct (activityStep_get r tk c m1 w1) as [G1 W1].
  destruct (activityStep_get r tk c m2 w2) as [G2 W2].
  destruct (activityStep tk (m1, w1) c) as [m1' w1'].
  destruct (activityStep tk (m2, w2) c) as [m2' w2']. simpl in *.
  apply IH.
  - rewrite G1, G2, Hm. reflexivity.
  - rewrite W1, W2, Hm, Hw. reflexivity.
Qed.

Lemma activityFold_skip r tk cs : forall m w,
  (forall c, c ∈ cs -> Conversation.user_id c = r -> qualifies c = false) ->
  JsMap.get r (fst (fold_left (activityStep tk) cs (m, w))) = JsMap.get r m
  /\ (r ∈ snd (fold_left (activityStep tk) cs (m, w)) <-> r ∈ w).
Proof.
  induction cs as [|c cs IH]; intros m w Hc; simpl; [auto|].
  destruct (activityStep_get r tk c m w) as [G W].
  destruct (activityStep tk (m, w) c) as [m' w']. simpl in *.
  assert (Hq : r = Conversation.user_id c -> qualifies c = false).
  { intros ->. apply Hc; [left|reflexivity]. }
  destruct (IH m' w') as [G' W'].
  { intros c' Hin. apply Hc. right. exact Hin. }
  rewrite G', W', G, W. split.
  - destruct (decide (r = Conversation.user_id c)) as [E|E]; [|reflexivity].
    rewrite (Hq E). reflexivity.
  - split; [|auto]. intros [H|(E & Hq' & _)]; [exact H|].
    rewrite (Hq E) in Hq'. discriminate.
Qed.

Lemma activityFold_NoDup tk cs : forall m w,
  NoDup w -> NoDup (snd (fold_left (activityStep tk) cs (m, w))).
Proof.
  induction cs as [|c cs IH]; intros m w Hw; simpl; [exact Hw|].
  assert (H : NoDup (snd (activityStep tk (m, w) c))).
  { unfold LogicUtils.activityStep. repeat case_match; simpl; auto using addWorked_NoDup. }
  destruct (activityStep tk (m, w) c) as [m' w']. apply IH. exact H.
Qed.

Lemma workedFold_get r tk w : forall m,
  NoDup w ->
  JsMap.get r (fold_left (workedStep tk) w m)
  = if decide (r ∈ w) then creditWorked tk <$> JsMap.get r m else JsMap.get r m.
Proof.
  induction w as [|a w IH]; intros m Hnd; simpl.
  - destruct (decide (r ∈ [])) as [H|H]; [|reflexivity].
    apply elem_of_nil in H. destruct H.
  - apply NoDup_cons in Hnd as [Ha Hnd]. rewrite IH by exact Hnd.
    assert (Hstep : JsMap.get r (workedStep tk m a)
                    = if decide (r = a) then creditWorked tk <$> JsMap.get r m
                      else JsMap.get r m).
    { unfold workedStep. destruct (JsMap.get a m) as [ad|] eqn:Hget.
      - rewrite get_set. destruct (decide (r = a)) as [->|]; [|reflexivity].
        rewrite Hget. reflexivity.
      - destruct (decide (r = a)) as [->|]; [|reflexivity]. rewrite Hget. reflexivity. }
    rewrite Hstep.
    destruct (decide (r = a)) as [->|Hne].
    + destruct (decide (a ∈ w)); [contradiction|].
      destruct (decide (a ∈ a :: w)) as [_|H]; [reflexivity|].
      exfalso. apply H. left.
    + destruct (decide (r ∈ w)) as [Hin|Hout];
        destruct (decide (r ∈ a :: w)) as [Hin'|Hout']; try reflexivity.
      * exfalso. apply Hout'. right. exact Hin.
      * exfalso. apply elem_of_cons in Hin' as [?|?]; contradiction.
Qed.

Lemma activityPass_get r tk m :
  JsMap.get r (activityPass m tk)
  = let st := fold_left (activityStep tk) (Ticket.conversations tk) (m, []) in
    if decide (r ∈ snd st) then creditWorked tk <$> JsMap.get r (fst st)
    else JsMap.get r (fst st).
Proof.
  unfold LogicUtils.activityPass.
  pose proof (activityFold_NoDup tk (Ticket.conversations tk) m [] (NoDup_nil_2)) as Hnd.
  destruct (fold_left _ _ _) as [m' w'] eqn:E. simpl in *.
  apply workedFold_get. exact Hnd.
Qed.

Lemma activityPass_local r tk m1 m2 :
  JsMap.get r m1 = JsMap.get r m2 ->
  JsMap.get r (activityPass m1 tk) = JsMap.get r (activityPass m2 tk).
Proof.
  intros Hm. rewrite !activityPass_get. cbv zeta.
  destruct (activityFold_local r tk (Ticket.conversations tk) m1 [] m2 [] Hm) as [G W];
    [reflexivity|].
  rewrite G. repeat case_decide; try reflexivity; exfalso; tauto.
Qed.

Lemma activityPass_skip r tk m :
  (forall c, c ∈ Ticket.conversations tk -> Conversation.user_id c = r ->
             qualifies c = false) ->
  JsMap.get r (activityPass m tk) = JsMap.get r m.
Proof.
  intros Hc. rewrite activityPass_get. cbv zeta.
  destruct (activityFold_skip r tk (Ticket.conversations tk) m [] Hc) as [G W].
  rewrite G. case_decide; [|reflexivity].
  exfalso. apply W in H. apply elem_of_nil in H. exact H.
Qed.

Lemma closurePass_local r tk m1 m2 :
  JsMap.get r m1 = JsMap.get r m2 ->
  JsMap.get r (closurePass m1 tk) = JsMap.get r (closurePass m2 tk).
Proof.
  intros Hm. unfold LogicUtils.closurePass.
  destruct ((Ticket.status tk =? 4) || (Ticket.status tk =? 5)); [|exact Hm].
  destruct (inRange _ _ _); [|exact Hm].
  destruct (decide (r = Ticket.responder_id tk)) as [->|Hne].
  - unfold JsMap.has. rewrite <- Hm.
    destruct (JsMap.get (Ticket.responder_id tk) agentMap); simpl; [|exact Hm].
    destruct (JsMap.get (Ticket.responder_id tk) m1) as [ad|] eqn:Hget; simpl; [|congruence].
    destruct (decide (Ticket.id tk ∈ AgentData.ticketIds ad)); [|congruence].
    rewrite !get_set. case_decide; [reflexivity|congruence].
  - assert (H : forall m, JsMap.get r
        (if JsMap.has (Ticket.responder_id tk) agentMap && JsMap.has (Ticket.responder_id tk) m
         then match JsMap.get (Ticket.responder_id tk) m with
              | Some ad =>
                  if decide (Ticket.id tk ∈ AgentData.ticketIds ad)
                  then JsMap.set (Ticket.responder_id tk) (creditClosure tk ad) m
                  else m
              | None => m
              end
         else m) = JsMap.get r m).
    { intros m. repeat case_match; try reflexivity.
      rewrite get_set. destruct (decide (r = Ticket.responder_id tk)); [contradiction|reflexivity]. }
    rewrite !H. exact Hm.
Qed.

Lemma pass1_local r tickets : forall m1 m2,
  JsMap.get r m1 = JsMap.get r m2 ->
  JsMap.get r (fold_left activityPass tickets m1)
  = JsMap.get r (fold_left activityPass tickets m2).
Proof.
  induction tickets as [|tk tickets IH]; intros m1 m2 Hm; simpl; [exact Hm|].
  apply IH, activityPass_local, Hm.
Qed.

Lemma pass2_local r tickets : forall m1 m2,
  JsMap.get r m1 = JsMap.get r m2 ->
  JsMap.get r (fold_left closurePass tickets m1)
  = JsMap.get r (fold_left closurePass tickets m2).
Proof.
  induction tickets as [|tk tickets IH]; intros m1 m2 Hm; simpl; [exact Hm|].
  apply IH, closurePass_local, Hm.
Qed.

(** C3. A ticket whose responder has no qualifying conversation on it in the
    window (on any input record that carries the ticket's id) earns the
    responder no closure, also when it is resolved or closed in the window:
    the closure pass leaves every record as it is when it visits the ticket,
    and the responder's record, with its [totalClosed], its daily closed
    counts and its group closed counts, is the one computed from the input
    without the ticket. *)
Theorem closure_needs_activity (pre post : list Ticket.t) (t : Ticket.t) :
  (forall t' c, t' ∈ pre ++ t :: post -> Ticket.id t' = Ticket.id t ->
     c ∈ Ticket.conversations t' ->
     Conversation.user_id c = Ticket.responder_id t -> qualifies c = false) ->
  let before :=
    fold_left closurePass pre
      (fold_left activityPass (pre ++ t :: post) (initialActivity agentMap)) in
  closurePass before t = before /\
  JsMap.get (Ticket.responder_id t) (aggregate (pre ++ t :: post))
  = JsMap.get (Ticket.responder_id t) (aggregate (pre ++ post)).
Proof.
  intros Hnone before.
  assert (Hnoop : closurePass before t = before).
  { pose proof (pass2_touchedOnly (pre ++ t :: post) pre _
                  (pass1_touchedOnly (pre ++ t :: post))) as Htouched.
    fold before in Htouched.
    unfold LogicUtils.closurePass.
    destruct ((Ticket.status t =? 4) || (Ticket.status t =? 5)); [|reflexivity].
    destruct (inRange _ _ _); [|reflexivity].
    destruct (JsMap.has _ agentMap && JsMap.has _ before); [|reflexivity].
    destruct (JsMap.get (Ticket.responder_id t) before) as [ad|] eqn:Hget; [|reflexivity].
    destruct (decide (Ticket.id t ∈ AgentData.ticketIds ad)) as [Ht|]; [|reflexivity].
    exfalso. apply (Forall_get _ _ _ _ Htouched) in Hget. apply Hget in Ht.
    destruct Ht as (tk & c & Htk & Hid & Hc & Hu & Hq). simpl in Hu.
    rewrite (Hnone tk c Htk Hid Hc Hu) in Hq. discriminate. }
  split; [exact Hnoop|].
  unfold LogicUtils.aggregate.
  rewrite (fold_left_app closurePass pre (t :: post)). simpl.
  fold before. rewrite Hnoop. unfold before.
  rewrite (fold_left_app closurePass pre post).
  apply pass2_local, pass2_local.
  rewrite !(fold_left_app activityPass pre). simpl.
  apply pass1_local, activityPass_skip.
  intros c Hc Hu. apply (Hnone t c); auto.
  apply elem_of_app. right. left.
Qed.

(** ** The passes keep the keys of the map *)

Lemma activityFold_keys tk cs : forall m w,
  JsMap.keys (fst (fold_left (activityStep tk) cs (m, w))) = JsMap.keys m.
Proof.
  induction cs as [|c cs IH]; intros m w; simpl; [reflexivity|].
  assert (H : JsMap.keys (fst (activityStep tk (m, w) c)) = JsMap.keys m).
  { unfold LogicUtils.activityStep. repeat case_match; simpl; try reflexivity.
    eapply keys_set_present; eauto. }
  destruct (activityStep tk (m, w) c) as [m' w']. rewrite IH. exact H.
Qed.

Lemma activityPass_keys tk m : JsMap.keys (activityPass m tk) = JsMap.keys m.
Proof.
  unfold LogicUtils.activityPass.
  pose proof (activityFold_keys tk (Ticket.conversations tk) m []) as H.
  destruct (fold_left _ _ _) as [m' w']. simpl in H. rewrite <- H. clear H.
  revert m'. induction w' as [|x w' IH]; intros m'; simpl; [reflexivity|].
  rewrite IH. unfold workedStep. case_match; [|reflexivity].
  eapply keys_set_present; eauto.
Qed.

Lemma closurePass_keys tk m : JsMap.keys (closurePass m tk) = JsMap.keys m.
Proof.
  unfold LogicUtils.closurePass. repeat case_match; try reflexivity.
  eapply keys_set_present; eauto.
Qed.

Lemma aggregate_keys_NoDup tickets : NoDup (JsMap.keys (aggregate tickets)).
Proof.
  unfold LogicUtils.aggregate.
  assert (H2 : forall l m, JsMap.keys (fold_left closurePass l m) = JsMap.keys m).
  { induction l as [|tk l IH]; intros m; simpl; [reflexivity|].
    rewrite IH. apply closurePass_keys. }
  assert (H1 : forall l m, JsMap.keys (fold_left activityPass l m) = JsMap.keys m).
  { induction l as [|tk l IH]; intros m; simpl; [reflexivity|].
    rewrite IH. apply activityPass_keys. }
  rewrite H2, H1. unfold initialActivity, JsMap.entries.
  assert (H0 : forall l (m : list (Z * AgentData.t)), NoDup (JsMap.keys m) ->
            NoDup (JsMap.keys
              (fold_left (fun m e => JsMap.set (fst e) (newAgentData (snd e)) m) l m))).
  { induction l as [|e l IH]; intros m Hm; simpl; [exact Hm|].
    apply IH, keys_set_NoDup, Hm. }
  apply H0. constructor.
Qed.


End Engine.

(** ** What the summaries say *)

Lemma summaries_from localOffset agentMap startDate endDate groupMap tickets summary :
  summary ∈ calculateAllAgentActivity localOffset agentMap startDate endDate groupMap tickets ->
  exists total e,
    e ∈ aggregate localOffset agentMap startDate endDate tickets /\
    summary = summarize groupMap total e.
Proof.
  unfold calculateAllAgentActivity, JsMap.entries. intros Hin.
  apply sort_elem, list_elem_of_In, filter_In in Hin as [Hin _].
  apply in_map_iff in Hin as (e & <- & He).
  eexists _, e. split; [apply list_elem_of_In; exact He|reflexivity].
Qed.

(** C4. On non-negative estimates [constrainTimeEstimate] keeps [min] and
    returns a [max] between [min] and [ceil(1.5 * min)], which is 0 when [min]
    is; the range printed for every agent and the range of every day of every
    daily breakdown that [calculateAllAgentActivity] returns obey this bound. *)
Theorem time_range_bounded :
  (forall min max, 0 <= min -> 0 <= max ->
     let r := constrainTimeEstimate min max in
     fst r = min /\ min <= snd r <= ceil15 min /\ (min = 0 -> snd r = 0))
  /\
  (forall localOffset agentMap startDate endDate groupMap tickets summary,
     summary ∈ calculateAllAgentActivity localOffset agentMap startDate endDate groupMap tickets ->
     (exists min max,
        0 <= min /\ min <= max <= ceil15 min /\
        AgentActivitySummary.estimatedTimeRange summary = formatTimeRange min max) /\
     (forall day, day ∈ AgentActivitySummary.dailyBreakdown summary ->
        0 <= DailyAgentStats.totalMin day /\
        DailyAgentStats.totalMin day <= DailyAgentStats.totalMax day
          <= ceil15 (DailyAgentStats.totalMin day) /\
        DailyAgentStats.estimatedTimeRange day
          = formatTimeRange (DailyAgentStats.totalMin day) (DailyAgentStats.totalMax day))).
Proof.
  split.
  - intros min max Hmin _. cbv zeta.
    pose proof (constrain_bounds min max Hmin) as Hb.
    split; [apply constrain_fst|]. split; [exact Hb|].
    intros ->. change (ceil15 0) with 0 in Hb. lia.
  - intros localOffset agentMap startDate endDate groupMap tickets summary Hin.
    apply summaries_from in Hin as (total & [k ad] & He & ->).
    pose proof (aggregate_nonneg localOffset agentMap startDate endDate tickets) as Hnn.
    rewrite Forall_forall in Hnn. destruct (Hnn _ He) as [Hmin Hdaily]. simpl in *.
    split.
    + exists (AgentData.totalMin ad),
             (snd (constrainTimeEstimate (AgentData.totalMin ad) (AgentData.totalMax ad))).
      split; [exact Hmin|]. split; [apply constrain_bounds; exact Hmin|reflexivity].
    + intros day Hday.
      apply list_elem_of_In, in_map_iff in Hday as ([date stats] & <- & Hd).
      apply list_elem_of_In, sort_elem in Hd.
      rewrite Forall_forall in Hdaily. specialize (Hdaily _ Hd). simpl in *.
      split; [exact Hdaily|]. split; [apply constrain_bounds; exact Hdaily|reflexivity].
Qed.

Lemma time_range_bounded_witness :
  let r := constrainTimeEstimate 7 11 in
  fst r = 7 /\ 7 <= snd r <= ceil15 7 /\ (7 = 0 -> snd r = 0).
Proof. apply (proj1 time_range_bounded 7 11); lia. Defined.

(** C9. When the tickets of the input carry pairwise distinct ids, every
    summary that [calculateAllAgentActivity] returns has
    [totalClosed <= ticketCount]. *)
Theorem closed_at_most_touched localOffset agentMap startDate endDate groupMap tickets summary :
  NoDup (map Ticket.id tickets) ->
  summary ∈ calculateAllAgentActivity localOffset agentMap startDate endDate groupMap tickets ->
  AgentActivitySummary.totalClosed summary <= AgentActivitySummary.ticketCount summary.
Proof.
  intros Hnd Hin.
  apply summaries_from in Hin as (total & [k ad] & He & ->).
  pose proof (aggregate_closedOn localOffset agentMap startDate endDate tickets Hnd) as Hc.
  rewrite Forall_forall in Hc. destruct (Hc _ He) as (credited & Hsub & _ & Hsz).
  simpl in *. unfold sizeOf. rewrite Hsz.
  apply inj_le, subseteq_size. exact Hsub.
Qed.

(** ** The scenario of one closed ticket with a reply and a spam note *)

Section Scenario.
Variable localOffset : Z -> Z.
Variable agentMap : list (Z * string).
Variables startDate endDate : Z.
Variable groupMap : list (Z * string).

Local Abbreviation qualifies := (qualifies agentMap startDate endDate).
Local Abbreviation activityStep := (activityStep localOffset agentMap startDate endDate).
Local Abbreviation activityPass := (activityPass localOffset agentMap startDate endDate).
Local Abbreviation closurePass := (closurePass localOffset agentMap startDate endDate).
Local Abbreviation aggregate := (aggregate localOffset agentMap startDate endDate).


Variable t : Ticket.t.
Variables cPublic cPrivate : Conversation.t.
Variable a : Z.
Variable body : string.
Variable st : TicketStats.t.
Variable closedAt : Z.

Hypothesis agent_known : JsMap.has a agentMap = true.
Hypothesis ticket_closed : Ticket.status t = 5.
Hypothesis ticket_responder : Ticket.responder_id t = a.
Hypothesis ticket_stats : Ticket.stats t = Some st.
Hypothesis ticket_closed_at : TicketStats.closed_at st = Some closedAt.
Hypothesis closed_in_window : startDate <= closedAt <= endDate.
Hypothesis ticket_conversations :
  Ticket.conversations t = [cPublic; cPrivate] \/ Ticket.conversations t = [cPrivate; cPublic].
Hypothesis public_author : Conversation.user_id cPublic = a.
Hypothesis public_reply : Conversation.private cPublic = false.
Hypothesis public_in_window :
  startDate <= Conversation.created_at cPublic <= endDate.
Hypothesis public_body : Conversation.body_text cPublic = Some body.
Hypothesis public_length : String.length body = 80%nat.
Hypothesis public_trimmed : 50 <= Z.of_nat (String.length (Js.toLowerCase (Js.trim body))).
Hypothesis public_not_system : Js.includes (Js.toLowerCase body) "system" = false.
Hypothesis private_author : Conversation.user_id cPrivate = a.
Hypothesis private_note : Conversation.private cPrivate = true.
Hypothesis private_in_window :
  startDate <= Conversation.created_at cPrivate <= endDate.
Hypothesis private_body : Conversation.body_text cPrivate = Some "marked as spam"%string.













End Scenario.

Import Samples.



End LogicFacts.

(** * Properties of the retrying fetch *)

Section FetchFacts.
Import Http ApiUtils.
Context {T : Type}.
Variable net : string -> nat -> Outcome T.
Variable url : string.

Lemma backendError_detected (response : Response T) :
  Js.includes (message (backendError url response)) "Backend Error" = true.
Proof. reflexivity. Qed.

Lemma backendError_prefix (response : Response T) :
  Js.startsWith (message (backendError url response)) "Backend Error" = true.
Proof. reflexivity. Qed.

Lemma afterLoop_backendError (response : Response T) :
  afterLoop url (backendError url response) = backendError url response.
Proof. reflexivity. Qed.

(** The errors that [fetchWithRetry] builds for a busy server or an
    unreachable one do not start with "Backend Error". *)
Lemma afterLoop_prefix (lastError : Error) :
  Js.startsWith (message (afterLoop url lastError)) "Backend Error" = true ->
  afterLoop url lastError = lastError.
Proof.
  unfold afterLoop. repeat case_match; try reflexivity; simpl; discriminate.
Qed.

Lemma busyError_prefix (retryAfter : option Z) :
  Js.startsWith (message (afterLoop url (busyError retryAfter))) "Backend Error" = false.
Proof.
  unfold afterLoop. repeat case_match; reflexivity.
Qed.

Lemma fetched_opening attempt a' rest :
  Fetched url a' ∈ (if (0 <? attempt)%nat then [Slept attempt] else [])
                     ++ Fetched url attempt :: rest <->
  a' = attempt \/ Fetched url a' ∈ rest.
Proof.
  rewrite elem_of_app, elem_of_cons.
  split.
  - intros [H|[H|H]]; [|injection H; auto|auto].
    destruct (0 <? attempt)%nat.
    + apply list_elem_of_singleton in H. discriminate.
    + apply elem_of_nil in H. destruct H.
  - intros [->|H]; auto.
Qed.

Lemma attemptFrom_fetches k : forall attempt a',
  Fetched url a' ∈ fst (attemptFrom net url attempt k) -> (attempt <= a')%nat.
Proof.
  induction k as [|k IH]; intros attempt a'; simpl;
    rewrite fetched_opening; (intros [->|H]; [lia|]).
  - repeat (case_match; simpl in H);
      try (apply elem_of_nil in H; destruct H);
      apply elem_of_cons in H as [H|H]; try discriminate;
      apply elem_of_nil in H; destruct H.
  - repeat (case_match; simpl in H);
      try (apply elem_of_nil in H; destruct H);
      try (apply elem_of_cons in H as [H|H]; [discriminate|]);
      apply IH in H; lia.
Qed.


Lemma attemptFrom_routingFault k : forall attempt a' response,
  Fetched url a' ∈ fst (attemptFrom net url attempt k) ->
  net url a' = Responds response -> isRoutingFault response ->
  snd (attemptFrom net url attempt k) = Throw (backendError url response) /\
  forall later, Fetched url later ∈ fst (attemptFrom net url attempt k) -> (later <= a')%nat.
Proof.
  induction k as [|k IH]; intros attempt a' response; simpl;
    rewrite fetched_opening; intros Hin Hnet [H404 Hjson].
  - destruct Hin as [->|Hin].
    + rewrite Hnet, H404, Hjson. simpl. split; [reflexivity|].
      intros later. rewrite fetched_opening. intros [->|H]; [lia|].
      apply elem_of_nil in H. destruct H.
    + exfalso. repeat (case_match; simpl in Hin);
        try (apply elem_of_nil in Hin; destruct Hin);
        apply elem_of_cons in Hin as [Hin|Hin]; try discriminate;
        apply elem_of_nil in Hin; destruct Hin.
  - destruct Hin as [->|Hin].
    + rewrite Hnet, H404, Hjson. simpl. split; [reflexivity|].
      intros later. rewrite fetched_opening. intros [->|H]; [lia|].
      apply elem_of_nil in H. destruct H.
    + assert (Hnext : forall rest : list Effect * Result (Response T),
                (Fetched url a' ∈ fst rest ->
                   Fetched url a' ∈ fst (attemptFrom net url (S attempt) k)) ->
                (forall later, Fetched url later ∈ fst rest ->
                   Fetched url later ∈ fst (attemptFrom net url (S attempt) k)) ->
                snd rest = snd (attemptFrom net url (S attempt) k) ->
                Fetched url a' ∈ fst rest ->
                snd rest = Throw (backendError url response) /\
                forall later,
                  Fetched url later ∈
                    (if (0 <? attempt)%nat then [Slept attempt] else [])
                      ++ Fetched url attempt :: fst rest -> (later <= a')%nat).
      { intros rest Hsub Hsub' Hsnd Hin'.
        destruct (IH (S attempt) a' response (Hsub Hin') Hnet (conj H404 Hjson)) as [Hres Hlater].
        split; [congruence|].
        intros later. rewrite fetched_opening. intros [->|Hl].
        - apply Hsub, attemptFrom_fetches in Hin'. lia.
        - apply Hlater, Hsub', Hl. }
      assert (Hback : forall s later (rest : list Effect),
                Fetched url later ∈ GlobalBackoff s :: rest -> Fetched url later ∈ rest).
      { intros s later rest H. apply elem_of_cons in H as [H|H]; [discriminate|exact H]. }
      destruct (net url attempt) as [r|e].
      * destruct ((code r =? 404) && negb (isJsonType (contentType r))).
        -- exfalso. simpl in Hin. apply elem_of_nil in Hin. exact Hin.
        -- destruct ((code r =? 429) || (code r =? 503)).
           ++ apply Hnext; simpl; [apply Hback|intros later; apply Hback|reflexivity|exact Hin].
           ++ simpl in Hin. apply elem_of_nil in Hin. destruct Hin.
      * destruct (Js.includes (message e) "Backend Error");
          [exfalso; simpl in Hin; apply elem_of_nil in Hin; exact Hin|].
        destruct (isNetworkError e);
          [|exfalso; simpl in Hin; apply elem_of_nil in Hin; exact Hin].
        apply Hnext; auto.
Qed.

(** An error that starts with "Backend Error" comes out of a call only for a
    routing fault, or when [fetch] itself rejected with such an error. *)
Lemma attemptFrom_backendError_only k : forall attempt e,
  snd (attemptFrom net url attempt k) = Throw e ->
  Js.startsWith (message e) "Backend Error" = true ->
  (exists a' response,
     Fetched url a' ∈ fst (attemptFrom net url attempt k) /\
     net url a' = Responds response /\ isRoutingFault response /\
     e = backendError url response)
  \/ (exists a', net url a' = Rejects e).
Proof.
  assert (Hbreak : forall err e a',
            net url a' = Rejects err ->
            Throw (afterLoop url err) = (Throw e : Result (Response T)) ->
            Js.startsWith (message e) "Backend Error" = true ->
            exists a', net url a' = Rejects e).
  { intros err e a' Hnet [= <-] Hpre. rewrite (afterLoop_prefix _ Hpre). eauto. }
  assert (Hbusy : forall s e,
            Throw (afterLoop url (busyError s)) = (Throw e : Result (Response T)) ->
            Js.startsWith (message e) "Backend Error" = true -> False).
  { intros s e [= <-] Hpre. rewrite busyError_prefix in Hpre. discriminate. }
  induction k as [|k IH]; intros attempt e; simpl.
  - destruct (net url attempt) as [r|err] eqn:Hnet.
    + destruct ((code r =? 404) && negb (isJsonType (contentType r))) eqn:Hf; simpl.
      * intros [= <-] _. left. exists attempt, r.
        apply andb_prop in Hf as [H404 Hj]. apply Z.eqb_eq in H404.
        apply negb_true_iff in Hj.
        repeat split; auto. apply fetched_opening. left. reflexivity.
      * destruct ((code r =? 429) || (code r =? 503)); simpl; [|discriminate].
        destruct (Js.includes _ _); simpl; intros H1 H2; destruct (Hbusy _ _ H1 H2).
    + destruct (Js.includes (message err) "Backend Error"); simpl;
        intros H1 H2; right; eapply Hbreak; eauto.
  - destruct (net url attempt) as [r|err] eqn:Hnet.
    + destruct ((code r =? 404) && negb (isJsonType (contentType r))) eqn:Hf; simpl.
      * intros [= <-] _. left. exists attempt, r.
        apply andb_prop in Hf as [H404 Hj]. apply Z.eqb_eq in H404.
        apply negb_true_iff in Hj.
        repeat split; auto. apply fetched_opening. left. reflexivity.
      * destruct ((code r =? 429) || (code r =? 503)); simpl; [|discriminate].
        intros H1 H2. destruct (IH _ _ H1 H2) as [(a' & r' & Hin & Hrest)|Hrej]; [left|right; auto].
        exists a', r'. split; [|exact Hrest].
        apply fetched_opening. right. right. exact Hin.
    + destruct (Js.includes (message err) "Backend Error"); simpl;
        [intros H1 H2; right; eapply Hbreak; eauto|].
      destruct (isNetworkError err); simpl;
        [|intros H1 H2; right; eapply Hbreak; eauto].
      intros H1 H2. destruct (IH _ _ H1 H2) as [(a' & r' & Hin & Hrest)|Hrej]; [left|right; auto].
      exists a', r'. split; [|exact Hrest].
      apply fetched_opening. right. exact Hin.
Qed.

(** C7. A 404 whose content type is not JSON ends the call on the attempt
    that received it: no later attempt is made, and the call throws the
    "Backend Error" that names the route.  No other outcome of the call
    throws an error that starts with these words, unless [fetch] itself
    rejected with one. *)
Theorem routing_fault_not_retried (maxRetries attempt : nat) (response : Response T) :
  Fetched url attempt ∈ fst (fetchWithRetry net url maxRetries) ->
  net url attempt = Responds response ->
  code response = 404 ->
  isJsonType (contentType response) = false ->
  snd (fetchWithRetry net url maxRetries) = Throw (backendError url response) /\
  (forall later, Fetched url later ∈ fst (fetchWithRetry net url maxRetries) ->
                 (later <= attempt)%nat) /\
  Js.startsWith (message (backendError url response)) "Backend Error" = true /\
  (forall retries e,
     snd (fetchWithRetry net url retries) = Throw e ->
     Js.startsWith (message e) "Backend Error" = true ->
     (exists a' r, Fetched url a' ∈ fst (fetchWithRetry net url retries) /\
                   net url a' = Responds r /\ isRoutingFault r /\ e = backendError url r)
     \/ (exists a', net url a' = Rejects e)).
Proof.
  intros Hin Hnet H404 Hjson. unfold fetchWithRetry in *.
  destruct (attemptFrom_routingFault maxRetries 0 attempt response Hin Hnet (conj H404 Hjson))
    as [Hres Hlater].
  repeat split; [exact Hres|exact Hlater|].
  intros retries e. apply attemptFrom_backendError_only.
Qed.

End FetchFacts.

(** * Properties of the paginator and of the typed queries *)

Section ServiceFacts.
Import Http FreshdeskService.
Context {T : Type}.
Variable parseApiError : Response T -> string.
Variable net : string -> nat -> Outcome T.

(** The errors of [handleApiError] do not start with "Backend Error" either. *)
Lemma handleApiError_prefix (response : Response T) (context : string) :
  Js.startsWith (message (handleApiError parseApiError response context)) "Backend Error"
  = false.
Proof. unfold handleApiError. repeat case_match; reflexivity. Qed.

(** ** A search of 73 results in pages of 30 *)

Variable endpoint : string.
Variable items : list T.

Local Abbreviation pageOf := (pageOf items).
Local Abbreviation firstPage := (firstPage net endpoint).
Local Abbreviation laterPage := (laterPage net endpoint).
Local Abbreviation delivers := (delivers items).

Hypothesis search_mode : Js.includes endpoint "/search/" = true.
Hypothesis seventy_three : length items = 73%nat.

Lemma searchPage_delivers k :
  delivers (laterPage k) k -> searchPage net endpoint k = pageOf k.
Proof.
  intros (r & Hr & Hok & Hjson). unfold searchPage. fold (laterPage k).
  rewrite Hr, Hok, Hjson. reflexivity.
Qed.

Lemma searchPage_fails k : fails (laterPage k) -> searchPage net endpoint k = [].
Proof.
  unfold fails, searchPage. fold (laterPage k).
  destruct (laterPage k) as [r|e]; [|reflexivity].
  intros ->. reflexivity.
Qed.

Lemma pages_cover : pageOf 1 ++ pageOf 2 ++ pageOf 3 = items.
Proof.
  unfold pageOf. simpl Z.to_nat. change (Pos.to_nat 30) with 30%nat.
  change (Pos.to_nat 60) with 60%nat. rewrite drop_0.
  rewrite (take_ge (drop 60 items)) by (rewrite length_drop; lia).
  replace (drop 60 items) with (drop 30 (drop 30 items)) by (rewrite drop_drop; reflexivity).
  rewrite take_drop, take_drop. reflexivity.
Qed.

Lemma pageOf_lengths :
  length (pageOf 1) = 30%nat /\ length (pageOf 2) = 30%nat /\ length (pageOf 3) = 13%nat.
Proof.
  unfold pageOf. simpl Z.to_nat. change (Pos.to_nat 30) with 30%nat.
  change (Pos.to_nat 60) with 60%nat.
  rewrite !length_take, !length_drop, seventy_three. lia.
Qed.

Lemma search_result maxPages :
  delivers firstPage 1 ->
  fetchPaginatedFreshdeskAPI parseApiError net endpoint maxPages
  = Ok (pageOf 1 ++ searchPage net endpoint 2 ++ searchPage net endpoint 3).
Proof.
  intros (r & Hr & Hok & Hjson). unfold fetchPaginatedFreshdeskAPI.
  rewrite search_mode. fold firstPage. rewrite Hr. simpl bind.
  rewrite Hok, Hjson. simpl.
  destruct pageOf_lengths as (-> & _ & _). simpl. rewrite app_nil_r. reflexivity.
Qed.

(** C8, as amended. When the first page is delivered, the search returns
    the 73 items if pages 2 and 3 are delivered too, fewer if one of them
    fails (a failed page counts as empty), and never more than 73. *)
Theorem search_returns_at_most_total (maxPages : Z) :
  delivers firstPage 1 ->
  (delivers (laterPage 2) 2 \/ fails (laterPage 2)) ->
  (delivers (laterPage 3) 3 \/ fails (laterPage 3)) ->
  exists l,
    fetchPaginatedFreshdeskAPI parseApiError net endpoint maxPages = Ok l /\
    (length l <= 73)%nat /\
    (delivers (laterPage 2) 2 -> delivers (laterPage 3) 3 -> l = items) /\
    (fails (laterPage 2) \/ fails (laterPage 3) -> (length l < 73)%nat).
Proof.
  intros H1 H2 H3. eexists. split; [apply search_result; exact H1|].
  destruct pageOf_lengths as (L1 & L2 & L3).
  assert (Hle2 : (length (searchPage net endpoint 2) <= 30)%nat).
  { destruct H2 as [H|H]; [rewrite searchPage_delivers|rewrite searchPage_fails];
      simpl; auto; lia. }
  assert (Hle3 : (length (searchPage net endpoint 3) <= 13)%nat).
  { destruct H3 as [H|H]; [rewrite searchPage_delivers|rewrite searchPage_fails];
      simpl; auto; lia. }
  rewrite !length_app, L1. repeat split.
  - lia.
  - intros D2 D3. rewrite !searchPage_delivers by assumption. apply pages_cover.
  - intros [F|F]; rewrite (searchPage_fails _ F); simpl; lia.
Qed.

End ServiceFacts.

Section SearchSamples.
Import Http FreshdeskService Samples.

Lemma search_returns_at_most_total_witness :
  exists l,
    fetchPaginatedFreshdeskAPI noMessage (searchServer (fun k => k =? 3)) searchEndpoint 300
    = Ok l /\
    (length l <= 73)%nat /\
    (delivers seventyThree (laterPage (searchServer (fun k => k =? 3)) searchEndpoint 2) 2 ->
     delivers seventyThree (laterPage (searchServer (fun k => k =? 3)) searchEndpoint 3) 3 ->
     l = seventyThree) /\
    (fails (laterPage (searchServer (fun k => k =? 3)) searchEndpoint 2)
     \/ fails (laterPage (searchServer (fun k => k =? 3)) searchEndpoint 3) ->
     (length l < 73)%nat).
Proof.
  apply (search_returns_at_most_total noMessage (searchServer (fun k => k =? 3))
           searchEndpoint seventyThree).
  - reflexivity.
  - reflexivity.
  - eexists. split; [vm_compute; reflexivity|]. split; reflexivity.
  - left. eexists. split; [vm_compute; reflexivity|]. split; reflexivity.
  - right. vm_compute. reflexivity.
Defined.

(** When it is the first page that fails, the search returns nothing at
    all: it throws. *)
Lemma first_page_failure_throws :
  ~ exists l,
      fetchPaginatedFreshdeskAPI noMessage (searchServer (fun k => k =? 1)) searchEndpoint 300
      = Ok l /\ (length l < 73)%nat.
Proof. intros (l & Hl & _). vm_compute in Hl. discriminate. Qed.

End SearchSamples.

(** * The fallback of the tickets-updated query *)

Section Fallback.
Import Http FreshdeskService Samples.

Lemma executeRequest_passes {T} (net : string -> nat -> Outcome T)
    (endpoint : string) (params : list (string * string)) (context : string)
    (r : Response T) :
  net (getTargetUrl endpoint params) 0%nat = Responds r ->
  code r <> 404 -> code r <> 429 -> code r <> 503 ->
  executeRequest net endpoint params context = Ok r.
Proof.
  intros Hnet H404 H429 H503.
  unfold executeRequest, ApiUtils.fetchWithRetry. simpl ApiUtils.attemptFrom.
  rewrite Hnet.
  apply Z.eqb_neq in H404, H429, H503. rewrite H404, H429, H503. simpl.
  rewrite H404. reflexivity.
Qed.

Variable parseApiError : Response Ticket.t -> string.
Variable net : string -> nat -> Outcome Ticket.t.
Variable toDate : Z.
Variable r : Response Ticket.t.

Lemma list_mode : Js.includes (listEndpointOf reportFrom) "/search/" = false.
Proof. vm_compute. reflexivity. Qed.

Lemma handleApiError_403 (context : string) :
  code r = 403 ->
  handleApiError parseApiError r context
  = newError ("Access Denied: You do not have permission to access " ++ context ++ ".")%string.
Proof. intros Hcode. unfold handleApiError. rewrite Hcode. reflexivity. Qed.

Lemma handleApiError_400 (context : string) :
  code r = 400 ->
  handleApiError parseApiError r context
  = newError ("API Error (400): " ++ parseApiError r)%string.
Proof. intros Hcode. unfold handleApiError. rewrite Hcode. reflexivity. Qed.

Lemma not_ok (status : Z) : code r = status -> (status <? 200) || (299 <? status) = true ->
  ok r = false.
Proof.
  intros Hc H. unfold ok. rewrite Hc. apply orb_prop in H as [H|H]; apply Z.ltb_lt in H.
  - apply andb_false_intro1, Z.leb_gt. exact H.
  - apply andb_false_intro2, Z.leb_gt. exact H.
Qed.

Lemma accessDenied_eq :
  newError ("Access Denied: You do not have permission to access "
            ++ listEndpointOf reportFrom ++ ".")%string = accessDenied.
Proof. vm_compute. reflexivity. Qed.

Lemma accessDenied_no_fallback : isFallbackError accessDenied = false.
Proof. vm_compute. reflexivity. Qed.

(** C6 at the failing input. When the list endpoint answers 403 to the
    first page, [handleApiError] throws "Access Denied", a message without
    "403" and an error without [status]; the test for the fallback fails
    and the error goes to the caller: no search is made. *)
Theorem primary_403_propagates :
  net primaryUrl 0%nat = Responds r -> code r = 403 ->
  getTicketsUpdatedInPeriod parseApiError net reportFrom toDate = Throw accessDenied /\
  isFallbackError accessDenied = false.
Proof.
  intros Hnet Hcode. split; [|exact accessDenied_no_fallback].
  unfold getTicketsUpdatedInPeriod, fetchPaginatedFreshdeskAPI.
  rewrite list_mode.
  rewrite (executeRequest_passes net _ _ _ r); [|exact Hnet|lia|lia|lia].
  cbn [bind]. rewrite (not_ok 403 Hcode eq_refl). cbn [negb bind].
  rewrite (handleApiError_403 _ Hcode), accessDenied_eq, accessDenied_no_fallback.
  reflexivity.
Qed.

(** The same query answered 400 does fall back: the message of the error,
    "API Error (400): ...", contains "400". *)
Lemma primary_400_falls_back :
  net primaryUrl 0%nat = Responds r -> code r = 400 ->
  getTicketsUpdatedInPeriod parseApiError net reportFrom toDate
  = fetchPaginatedFreshdeskAPI parseApiError net (searchEndpointOf reportFrom toDate) 10.
Proof.
  intros Hnet Hcode.
  unfold getTicketsUpdatedInPeriod.
  unfold fetchPaginatedFreshdeskAPI at 1.
  rewrite list_mode.
  rewrite (executeRequest_passes net _ _ _ r); [|exact Hnet|lia|lia|lia].
  cbn [bind]. rewrite (not_ok 400 Hcode eq_refl). cbn [negb bind].
  rewrite (handleApiError_400 _ Hcode).
  assert (E : isFallbackError (newError ("API Error (400): " ++ parseApiError r)%string) = true).
  { unfold isFallbackError.
    replace (Js.includes _ "400") with true by reflexivity.
    rewrite orb_true_r. reflexivity. }
  rewrite E. reflexivity.
Qed.

End Fallback.

Section FallbackSamples.
Import Http FreshdeskService Samples.

Lemma primary_403_propagates_witness :
  getTicketsUpdatedInPeriod noMessage forbiddenServer reportFrom 1704153599999
  = Throw accessDenied /\
  isFallbackError accessDenied = false.
Proof.
  apply (primary_403_propagates noMessage forbiddenServer 1704153599999 forbidden);
    reflexivity.
Defined.

End FallbackSamples.

(** * The theorems at the sample inputs *)

Section MoreSamples.
Import Http ApiUtils LogicUtils Samples.

(** Ticket #200 was closed by an automation: Agent B wrote nothing on it that
    qualifies, and gets no closure for it. *)
Lemma closure_needs_activity_witness :
  let before :=
    fold_left (closurePass utc agentsAB windowStart windowEnd) [ticket100]
      (fold_left (activityPass utc agentsAB windowStart windowEnd) [ticket100; ticket200]
         (initialActivity agentsAB)) in
  closurePass utc agentsAB windowStart windowEnd before ticket200 = before /\
  JsMap.get 2 (aggregate utc agentsAB windowStart windowEnd [ticket100; ticket200])
  = JsMap.get 2 (aggregate utc agentsAB windowStart windowEnd [ticket100]).
Proof.
  apply (closure_needs_activity utc agentsAB windowStart windowEnd [ticket100] [] ticket200).
  intros t' c Ht' Hid Hc Hu.
  apply list_elem_of_In in Ht'. simpl in Ht'. destruct Ht' as [<-|[<-|[]]].
  - vm_compute in Hid. discriminate.
  - apply list_elem_of_In in Hc. simpl in Hc. destruct Hc as [<-|[]].
    vm_compute. reflexivity.
Defined.

(** Tickets #100 and #200 have distinct ids. *)
Lemma closed_at_most_touched_witness :
  Forall (fun summary =>
            AgentActivitySummary.totalClosed summary
            <= AgentActivitySummary.ticketCount summary)
    (calculateAllAgentActivity utc agentsAB windowStart windowEnd groupsD
       [ticket100; ticket200]).
Proof.
  apply Forall_forall. intros summary Hin.
  apply (closed_at_most_touched utc agentsAB windowStart windowEnd groupsD
           [ticket100; ticket200] summary); [|exact Hin].
  apply (bool_decide_eq_true_1 _). vm_compute. reflexivity.
Defined.

(** The engine tells tickets apart by their id alone.  Two records of ticket
    #100 in one input give Agent A two closures on one touched ticket, the
    second for a record that carries no conversation: this is why the bound
    on closures asks for distinct ids, and why a conversation on a ticket is
    one on any record with its id. *)
Remark records_share_their_id :
  (fun ad => (AgentData.totalClosed ad, sizeOf ad))
    <$> JsMap.get 1 (aggregate utc agentsAB windowStart windowEnd [ticket100; bare100])
  = Some (2, 1).
Proof. vm_compute. reflexivity. Qed.

(** The first call is dropped and retried; the second meets the 404 page of
    the proxy, and the third is never made. *)
Lemma routing_fault_not_retried_witness :
  snd (fetchWithRetry unroutedNet "/api/v2/agents" 2)
  = Throw (backendError "/api/v2/agents" htmlNotFound) /\
  (forall later, Fetched "/api/v2/agents" later ∈ fst (fetchWithRetry unroutedNet "/api/v2/agents" 2) ->
                 (later <= 1)%nat).
Proof.
  destruct (routing_fault_not_retried unroutedNet "/api/v2/agents" 2 1 htmlNotFound)
    as (Hthrow & Hlast & _).
  - apply list_elem_of_In. vm_compute. right. right. left. reflexivity.
  - reflexivity.
  - reflexivity.
  - reflexivity.
  - split; [exact Hthrow|exact Hlast].
Defined.

End MoreSamples.

(** * Further properties of the rate limiter *)

Section LimiterOrder.
Import RateLimiter.

Lemma processQueue_queue now now' l :
  match snd (processQueue now now' l) with
  | Started task _ => queue l = task :: queue (fst (processQueue now now' l))
  | _ => queue (fst (processQueue now now' l)) = queue l
  end.
Proof.
  unfold processQueue. repeat case_match; simpl in *; subst; try reflexivity; try congruence.
Qed.

Lemma record_order s now' inFlight0 l0 now :
  map snd (starts (record s now' inFlight0 (processQueue now now' l0)))
    ++ queue (limiter (record s now' inFlight0 (processQueue now now' l0)))
  = map snd (starts s) ++ queue l0.
Proof.
  pose proof (processQueue_queue now now' l0) as H. unfold record.
  destruct (snd (processQueue now now' l0)); simpl; try (rewrite H; reflexivity).
  rewrite H, map_app, <- app_assoc. reflexivity.
Qed.

Lemma step_order s e s' :
  step s e = Some s' ->
  map snd (starts s') ++ queue (limiter s')
  = map snd (starts s) ++ queue (limiter s) ++ scheduled [e].
Proof.
  destruct e as [task now now'|now now'|task now now'|seconds now|config now]; simpl.
  - destruct (ticks s now now'); [|discriminate]. intros [= <-].
    unfold schedule. rewrite record_order. reflexivity.
  - destruct (ticks s now now'); [|discriminate]. intros [= <-].
    rewrite record_order, app_nil_r. reflexivity.
  - destruct (ticks s now now'); [|discriminate].
    destruct (removeFirst task (inFlight s)); [|discriminate]. intros [= <-].
    unfold settle. rewrite record_order, app_nil_r. reflexivity.
  - destruct (clock s <=? now); [|discriminate]. intros [= <-]. simpl.
    rewrite app_nil_r. reflexivity.
  - destruct (clock s <=? now); [|discriminate]. intros [= <-]. simpl.
    rewrite app_nil_r. reflexivity.
Qed.

Lemma run_order es : forall s s',
  run s es = Some s' ->
  map snd (starts s') ++ queue (limiter s')
  = map snd (starts s) ++ queue (limiter s) ++ scheduled es.
Proof.
  induction es as [|e es IH]; intros s s'; simpl.
  - intros [= <-]. rewrite app_nil_r. reflexivity.
  - destruct (step s e) as [s1|] eqn:E; [|discriminate]. intros Hrun.
    rewrite (IH _ _ Hrun), app_assoc, (step_order _ _ _ E). rewrite <- !app_assoc.
    f_equal. f_equal. destruct e; reflexivity.
Qed.

(** X1. The limiter starts the tasks in the order in which they were
    scheduled, and loses none: whatever was scheduled has started or is
    waiting in the queue, in that order. *)
Theorem tasks_start_in_order (N W M t0 : Z) (es : list Event) (s : System) :
  run (configured N W M t0) es = Some s ->
  map snd (starts s) ++ queue (limiter s) = scheduled es.
Proof. intros Hrun. rewrite (run_order _ _ _ Hrun). reflexivity. Qed.

Lemma processQueue_wakes now now' l :
  maxConcurrent (fst (processQueue now now' l)) = maxConcurrent l /\
  match snd (processQueue now now' l) with
  | Rescheduled _ => activeRequests (fst (processQueue now now' l)) = activeRequests l
  | Returned =>
      activeRequests (fst (processQueue now now' l)) = activeRequests l /\
      (queue (fst (processQueue now now' l)) = [] \/ maxConcurrent l <= activeRequests l)
  | Started _ _ => activeRequests (fst (processQueue now now' l)) = activeRequests l + 1
  end.
Proof.
  unfold processQueue. repeat case_match; simpl in *; subst;
    repeat split; try reflexivity; try congruence; try discriminate.
  all: try (right; apply Z.leb_le; assumption).
  all: try (left; reflexivity).
Qed.

(** The limiter counts the tasks in flight and admits one at least; a waiting
    task has a call of [processQueue] to come. *)
Local Abbreviation awake s n :=
  (activeRequests (limiter s) = Z.of_nat (length (inFlight s)) /\
   1 <= maxConcurrent (limiter s) /\
   (queue (limiter s) <> [] -> inFlight s <> [] \/ (0 < n)%nat)).

Lemma record_awake s now now' inFlight0 l0 (n : nat) :
  activeRequests l0 = Z.of_nat (length inFlight0) ->
  1 <= maxConcurrent l0 ->
  let r := processQueue now now' l0 in
  let set := match snd r with Rescheduled _ => 1%nat | _ => 0%nat end in
  awake (record s now' inFlight0 r) (n + set)%nat.
Proof.
  intros Hact Hmax. cbn zeta.
  destruct (processQueue_wakes now now' l0) as [Hm Hcase]. unfold record.
  destruct (snd (processQueue now now' l0)) eqn:E; simpl.
  - rewrite Hm, Hcase. repeat split; [assumption..|]. intros _. right. lia.
  - destruct Hcase as [Ha Hq]. rewrite Hm, Ha. repeat split; [assumption..|].
    intros Hne. destruct Hq as [Hq|Hq]; [contradiction|]. left.
    destruct inFlight0; [simpl in *; lia|discriminate].
  - rewrite Hm, Hcase, length_app. simpl. repeat split; [lia|assumption|].
    intros _. left. destruct inFlight0; discriminate.
Qed.

Lemma pending_awake es : forall s n m s',
  forallb (fun e => negb (isConfig e)) es = true ->
  awake s n ->
  run s es = Some s' -> pendingTimers s n es = Some m ->
  awake s' m.
Proof.
  induction es as [|e es IH]; intros s n m s' Hcfg Hinv; simpl.
  - intros [= <-] [= <-]. exact Hinv.
  - simpl in Hcfg. apply andb_true_iff in Hcfg as [He Hcfg].
    destruct (step s e) as [s1|] eqn:E; [|discriminate].
    destruct Hinv as (Hact & Hmax & Hq).
    destruct e as [task now now'|now now'|task now now'|seconds now|config now];
      simpl in E, He |- *; try discriminate.
    + destruct (ticks s now now'); [|discriminate]. injection E as <-.
      intros Hrun Hp. eapply (IH _ _ _ _ Hcfg); [|exact Hrun|exact Hp].
      unfold schedule. apply record_awake; simpl; assumption.
    + destruct (ticks s now now'); [|discriminate]. injection E as <-.
      destruct n as [|k]; [discriminate|].
      intros Hrun Hp. eapply (IH _ _ _ _ Hcfg); [|exact Hrun|exact Hp].
      apply record_awake; assumption.
    + destruct (ticks s now now'); [|discriminate].
      destruct (removeFirst task (inFlight s)) as [rest|] eqn:Hrm; [|discriminate].
      injection E as <-.
      intros Hrun Hp. eapply (IH _ _ _ _ Hcfg); [|exact Hrun|exact Hp].
      unfold settle. apply record_awake; simpl; [|assumption].
      apply removeFirst_length in Hrm. lia.
    + destruct (clock s <=? now); [|discriminate]. injection E as <-.
      intros Hrun Hp. eapply (IH _ _ _ _ Hcfg); [|exact Hrun|exact Hp].
      simpl. rewrite Nat.add_0_r. repeat split; assumption.
Qed.

(** X2. No task is left waiting with nothing to wake the limiter: while the
    queue is not empty, a task is in flight, whose settlement calls
    [processQueue], or a timer is pending. *)
Theorem queue_is_woken (N W M t0 : Z) (es : list Event) (s : System) (n : nat) :
  1 <= N ->
  forallb (fun e => negb (isConfig e)) es = true ->
  run (configured N W M t0) es = Some s ->
  pendingTimers (configured N W M t0) 0 es = Some n ->
  queue (limiter s) <> [] ->
  inFlight s <> [] \/ (0 < n)%nat.
Proof.
  intros HN Hcfg Hrun Hp.
  refine (proj2 (proj2 (pending_awake es _ _ _ _ Hcfg _ Hrun Hp))).
  simpl. repeat split; [assumption|]. intros H. contradiction.
Qed.

End LimiterOrder.

(** * Further properties of the retrying fetch *)

Section RetryFacts.
Import Http ApiUtils.
Context {T : Type}.
Variable net : string -> nat -> Outcome T.
Variable url : string.

Local Abbreviation opening attempt :=
  ((if (0 <? attempt)%nat then [Slept attempt] else []) ++ [Fetched url attempt]).

(** One iteration of the loop, by what the call of [fetch] settles to. *)
Lemma attemptFrom_step attempt k :
  attemptFrom net url attempt k =
  match net url attempt with
  | Rejects e =>
      if Js.includes (message e) "Backend Error" then (opening attempt, Throw (afterLoop url e))
      else match k with
           | S k' =>
               if isNetworkError e
               then (opening attempt ++ fst (attemptFrom net url (S attempt) k'),
                     snd (attemptFrom net url (S attempt) k'))
               else (opening attempt, Throw (afterLoop url e))
           | O => (opening attempt, Throw (afterLoop url e))
           end
  | Responds r =>
      if (code r =? 404) && negb (isJsonType (contentType r))
      then (opening attempt, Throw (backendError url r))
      else if (code r =? 429) || (code r =? 503) then
        match k with
        | S k' =>
            (opening attempt ++ GlobalBackoff (retryAfterOf r)
               :: fst (attemptFrom net url (S attempt) k'),
             snd (attemptFrom net url (S attempt) k'))
        | O =>
            (opening attempt ++ [GlobalBackoff (retryAfterOf r)],
             Throw (afterLoop url (busyError (retryAfterOf r))))
        end
      else (opening attempt, Ok r)
  end.
Proof.
  destruct k as [|k']; cbn [attemptFrom].
  - destruct (net url attempt) as [r|e].
    + destruct ((code r =? 404) && negb (isJsonType (contentType r))).
      * rewrite backendError_detected. cbn [fst snd]. rewrite afterLoop_backendError. reflexivity.
      * destruct ((code r =? 429) || (code r =? 503)); cbn [fst snd].
        -- destruct (Js.includes (message (busyError (retryAfterOf r))) "Backend Error");
             cbn [fst snd]; rewrite <- app_assoc; reflexivity.
        -- reflexivity.
    + destruct (Js.includes (message e) "Backend Error"); reflexivity.
  - destruct (net url attempt) as [r|e].
    + destruct ((code r =? 404) && negb (isJsonType (contentType r))).
      * rewrite backendError_detected. cbn [fst snd]. rewrite afterLoop_backendError. reflexivity.
      * destruct ((code r =? 429) || (code r =? 503)); cbn [fst snd].
        -- rewrite <- app_assoc. reflexivity.
        -- reflexivity.
    + destruct (Js.includes (message e) "Backend Error"); [reflexivity|].
      destruct (isNetworkError e); cbn [fst snd]; [|reflexivity].
      rewrite <- app_assoc. reflexivity.
Qed.


Lemma filter_opening attempt rest :
  List.filter isFetch (opening attempt ++ rest)
  = Fetched url attempt :: List.filter isFetch rest.
Proof. destruct (0 <? attempt)%nat; reflexivity. Qed.

Lemma attemptFrom_attempts k : forall attempt,
  exists n,
    (1 <= n <= S k)%nat /\
    List.filter isFetch (fst (attemptFrom net url attempt k))
    = map (Fetched url) (seq attempt n) /\
    forall a, (attempt <= a)%nat -> (S a < attempt + n)%nat ->
      (exists r, net url a = Responds r /\ (code r = 429 \/ code r = 503)) \/
      (exists e, net url a = Rejects e /\ isNetworkError e = true).
Proof.
  induction k as [|k IH]; intros attempt; rewrite attemptFrom_step.
  - exists 1%nat. split; [lia|]. split; [|intros; lia].
    destruct (net url attempt) as [r|e]; repeat case_match; cbn [fst];
      rewrite ?filter_opening; reflexivity.
  - assert (Hone : forall res : Result (Response T),
              exists n, (1 <= n <= S (S k))%nat /\
                List.filter isFetch (fst (opening attempt, res))
                = map (Fetched url) (seq attempt n) /\
                forall a, (attempt <= a)%nat -> (S a < attempt + n)%nat ->
                  (exists r, net url a = Responds r /\ (code r = 429 \/ code r = 503)) \/
                  (exists e, net url a = Rejects e /\ isNetworkError e = true)).
    { intros res. exists 1%nat. split; [lia|]. split; [|intros; lia]. cbn [fst].
      rewrite <- (app_nil_r (opening attempt)). apply filter_opening. }
    destruct (IH (S attempt)) as (n & Hn & Hf & Hj).
    destruct (net url attempt) as [r|e] eqn:Hnet.
    + destruct ((code r =? 404) && negb (isJsonType (contentType r))); [apply Hone|].
      destruct ((code r =? 429) || (code r =? 503)) eqn:Hbusy; [|apply Hone].
      exists (S n). split; [lia|]. cbn [fst]. rewrite filter_opening. cbn [List.filter isFetch].
      rewrite Hf. split; [reflexivity|].
      intros a Ha Hlt. destruct (decide (a = attempt)) as [->|Hne].
      * left. exists r. split; [exact Hnet|].
        apply orb_true_iff in Hbusy as [H|H]; apply Z.eqb_eq in H; auto.
      * apply Hj; lia.
    + destruct (Js.includes (message e) "Backend Error"); [apply Hone|].
      destruct (isNetworkError e) eqn:Hne'; [|apply Hone].
      exists (S n). split; [lia|]. cbn [fst]. rewrite filter_opening, Hf.
      split; [reflexivity|].
      intros a Ha Hlt. destruct (decide (a = attempt)) as [->|Hne].
      * right. exists e. auto.
      * apply Hj; lia.
Qed.

(** X3. The calls of [fetch] made for one request are the attempts 0, 1, ...
    in this order, at most [maxRetries + 1] of them, and each attempt that
    is followed by another met a busy server or a network failure. *)
Theorem retries_are_bounded (maxRetries : nat) :
  exists n,
    (1 <= n <= maxRetries + 1)%nat /\
    List.filter isFetch (fst (fetchWithRetry net url maxRetries))
    = map (Fetched url) (seq 0 n) /\
    forall a, (S a < n)%nat ->
      (exists r, net url a = Responds r /\ (code r = 429 \/ code r = 503)) \/
      (exists e, net url a = Rejects e /\ isNetworkError e = true).
Proof.
  destruct (attemptFrom_attempts maxRetries 0) as (n & Hn & Hf & Hj).
  exists n. split; [lia|]. split; [exact Hf|].
  intros a Ha. apply Hj; lia.
Qed.

Lemma attemptFrom_ok k : forall attempt r,
  snd (attemptFrom net url attempt k) = Ok r ->
  (exists a, (attempt <= a <= attempt + k)%nat /\ net url a = Responds r) /\
  code r <> 429 /\ code r <> 503 /\ ~ isRoutingFault r.
Proof.
  induction k as [|k IH]; intros attempt r; rewrite attemptFrom_step.
  - destruct (net url attempt) as [r0|e] eqn:Hnet.
    + destruct ((code r0 =? 404) && negb (isJsonType (contentType r0))) eqn:H404;
        [discriminate|].
      destruct ((code r0 =? 429) || (code r0 =? 503)) eqn:Hbusy; [discriminate|].
      cbn [snd]. intros [= <-].
      apply orb_false_iff in Hbusy as [H1 H2]. apply Z.eqb_neq in H1, H2.
      split; [exists attempt; split; [lia|exact Hnet]|].
      split; [exact H1|]. split; [exact H2|].
      intros [Hc Hj]. rewrite Hj in H404. apply Z.eqb_eq in Hc. rewrite Hc in H404.
      discriminate.
    + destruct (Js.includes (message e) "Backend Error"); discriminate.
  - assert (Hnext : snd (attemptFrom net url (S attempt) k) = Ok r ->
              (exists a, (attempt <= a <= attempt + S k)%nat /\ net url a = Responds r) /\
              code r <> 429 /\ code r <> 503 /\ ~ isRoutingFault r).
    { intros H. destruct (IH _ _ H) as ((a & Ha & Hnet) & Hrest).
      split; [exists a; split; [lia|exact Hnet]|exact Hrest]. }
    destruct (net url attempt) as [r0|e] eqn:Hnet.
    + destruct ((code r0 =? 404) && negb (isJsonType (contentType r0))) eqn:H404;
        [discriminate|].
      destruct ((code r0 =? 429) || (code r0 =? 503)) eqn:Hbusy; [exact Hnext|].
      cbn [snd]. intros [= <-].
      apply orb_false_iff in Hbusy as [H1 H2]. apply Z.eqb_neq in H1, H2.
      split; [exists attempt; split; [lia|exact Hnet]|].
      split; [exact H1|]. split; [exact H2|].
      intros [Hc Hj]. rewrite Hj in H404. apply Z.eqb_eq in Hc. rewrite Hc in H404.
      discriminate.
    + destruct (Js.includes (message e) "Backend Error"); [discriminate|].
      destruct (isNetworkError e); [exact Hnext|discriminate].
Qed.

(** X4. A response that [fetchWithRetry] returns came from one of its
    attempts, and is neither a busy response nor the 404 of an unserved
    route. *)
Theorem returned_response_is_final (maxRetries : nat) (r : Response T) :
  snd (fetchWithRetry net url maxRetries) = Ok r ->
  (exists a, (a <= maxRetries)%nat /\ net url a = Responds r) /\
  code r <> 429 /\ code r <> 503 /\ ~ isRoutingFault r.
Proof.
  intros H. destruct (attemptFrom_ok _ _ _ H) as ((a & Ha & Hnet) & Hrest).
  split; [exists a; split; [lia|exact Hnet]|exact Hrest].
Qed.

End RetryFacts.

Section RequestFacts.
Import Http ApiUtils FreshdeskService.
Context {T : Type}.
Variable net : string -> nat -> Outcome T.

(** X5. [executeRequest] adds nothing to [fetchWithRetry] with one retry: its
    own test for an unserved route never fires, because [fetchWithRetry] has
    thrown by then. *)
Theorem executeRequest_is_fetch (endpoint : string) (params : list (string * string))
    (context : string) :
  executeRequest net endpoint params context
  = snd (fetchWithRetry net (getTargetUrl endpoint params) 1).
Proof.
  unfold executeRequest.
  destruct (snd (fetchWithRetry net (getTargetUrl endpoint params) 1)) as [r|e] eqn:E;
    [|reflexivity].
  cbn [bind]. destruct (attemptFrom_ok _ _ _ _ _ E) as (_ & _ & _ & Hrf).
  destruct ((code r =? 404) && negb (isJsonType (contentType r))) eqn:H404; [|reflexivity].
  exfalso. apply Hrf. apply andb_true_iff in H404 as [H1 H2].
  split; [apply Z.eqb_eq; exact H1|]. apply negb_true_iff. exact H2.
Qed.

End RequestFacts.

Section StringFacts.

(** A needle whose first character does not occur in the text is not found. *)
Lemma includes_absent (c : ascii) (needle hay : string) :
  Forall (fun c' => c' <> c) (list_ascii_of_string hay) ->
  Js.includes hay (String c needle) = false.
Proof.
  unfold Js.includes. induction hay as [|b hay IH]; simpl; intros H; [reflexivity|].
  apply Forall_cons in H as [Hb H].
  destruct (ascii_dec c b) as [->|_]; [contradiction|].
  specialize (IH H). destruct (index 0 (String c needle) hay); [discriminate|reflexivity].
Qed.

Lemma chars_app (s1 s2 : string) :
  list_ascii_of_string (s1 ++ s2) = list_ascii_of_string s1 ++ list_ascii_of_string s2.
Proof. induction s1 as [|c s1 IH]; simpl; [reflexivity|]. rewrite IH. reflexivity. Qed.

Lemma string_of_uint_digits (d : Decimal.uint) :
  Forall (fun c => Js.isDigit c = true) (list_ascii_of_string (NilZero.string_of_uint d)).
Proof.
  assert (H : forall d', Forall (fun c => Js.isDigit c = true)
                           (list_ascii_of_string (NilEmpty.string_of_uint d'))).
  { induction d'; simpl; constructor; try reflexivity; assumption. }
  destruct d; try apply H. repeat constructor.
Qed.

(** [String(n)] is made of digits after an optional minus sign. *)
Lemma ofZ_chars (n : Z) :
  Forall (fun c => Js.isDigit c = true \/ c = "-"%char) (list_ascii_of_string (Js.ofZ n)).
Proof.
  unfold Js.ofZ, NilZero.string_of_int.
  destruct (Z.to_int n) as [d|d]; simpl; [|constructor; [right; reflexivity|]];
    (eapply Forall_impl; [apply string_of_uint_digits|]); simpl; auto.
Qed.

End StringFacts.

Section BusyFacts.
Import Http ApiUtils.
Context {T : Type}.
Variable net : string -> nat -> Outcome T.
Variable url : string.

Lemma busyError_absent (c : ascii) (needle : string) (retryAfter : option Z) :
  Js.isDigit c = false ->
  Forall (fun c' => c' <> c)
    (list_ascii_of_string "Server is busy. Please try again in NaN seconds.-") ->
  Js.includes (message (busyError retryAfter)) (String c needle) = false.
Proof.
  intros Hd Hc. apply includes_absent. unfold busyError, newError, message.
  rewrite !chars_app. rewrite !Forall_app.
  assert (Hin : forall c', c' ∈ list_ascii_of_string
                  "Server is busy. Please try again in NaN seconds.-" -> c' <> c).
  { apply Forall_forall. exact Hc. }
  split; [|split].
  - apply Forall_forall. intros c' H. apply Hin.
    change (c' ∈ list_ascii_of_string "Server is busy. Please try again in "
                  ++ list_ascii_of_string "NaN seconds.-").
    apply elem_of_app. left. exact H.
  - destruct retryAfter as [v|]; simpl showNumber.
    + eapply Forall_impl; [apply ofZ_chars|]. simpl. intros c' Hc' Heq. subst c'.
      destruct Hc' as [H|H]; [congruence|].
      apply (Hin "-"%char); [|symmetry; exact H]. apply list_elem_of_In. simpl. tauto.
    + apply Forall_forall. intros c' H. apply Hin.
      apply list_elem_of_In in H. apply list_elem_of_In. simpl in *. tauto.
  - apply Forall_forall. intros c' H. apply Hin.
    apply list_elem_of_In in H. apply list_elem_of_In. simpl in *. tauto.
Qed.

(** The error of a busy server passes the code after the loop unchanged. *)
Lemma afterLoop_busyError (retryAfter : option Z) :
  afterLoop url (busyError retryAfter) = busyError retryAfter.
Proof.
  unfold afterLoop.
  rewrite (busyError_absent "B" "ackend Error"), (busyError_absent "F" "ailed to fetch").
  - reflexivity.
  - reflexivity.
  - repeat constructor; discriminate.
  - reflexivity.
  - repeat constructor; discriminate.
Qed.

Variable busy : nat -> Response T.

Lemma attemptFrom_busy k : forall attempt,
  (forall a, (attempt <= a <= attempt + k)%nat ->
     net url a = Responds (busy a) /\ (code (busy a) = 429 \/ code (busy a) = 503)) ->
  attemptFrom net url attempt k
  = (flat_map (fun a => (if (0 <? a)%nat then [Slept a] else [])
                        ++ [Fetched url a; GlobalBackoff (retryAfterOf (busy a))])
              (seq attempt (S k)),
     Throw (busyError (retryAfterOf (busy (attempt + k))))).
Proof.
  induction k as [|k IH]; intros attempt Hbusy; rewrite attemptFrom_step;
    destruct (Hbusy attempt ltac:(lia)) as [-> Hcode];
    assert (H404 : (code (busy attempt) =? 404) = false)
      by (apply Z.eqb_neq; lia);
    assert (Hb : (code (busy attempt) =? 429) || (code (busy attempt) =? 503) = true)
      by (apply orb_true_iff; rewrite !Z.eqb_eq; exact Hcode);
    rewrite H404, Hb; cbn [andb].
  - rewrite afterLoop_busyError, Nat.add_0_r. simpl. rewrite app_nil_r, <- app_assoc.
    reflexivity.
  - rewrite IH by (intros a Ha; apply Hbusy; lia). cbn [fst snd].
    replace (S attempt + k)%nat with (attempt + S k)%nat by lia.
    f_equal. change (seq attempt (S (S k))) with (attempt :: seq (S attempt) (S k)).
    cbn [flat_map]. rewrite <- !app_assoc. reflexivity.
Qed.

(** X6. Against a server that stays busy, [fetchWithRetry] makes
    [maxRetries + 1] calls, backs the limiter off after each, sleeps before
    each retry, and throws the busy error with the last [Retry-After]. *)
Theorem busy_server_exhausts_retries (maxRetries : nat) :
  (forall a, (a <= maxRetries)%nat ->
     net url a = Responds (busy a) /\ (code (busy a) = 429 \/ code (busy a) = 503)) ->
  fetchWithRetry net url maxRetries
  = (flat_map (fun a => (if (0 <? a)%nat then [Slept a] else [])
                        ++ [Fetched url a; GlobalBackoff (retryAfterOf (busy a))])
              (seq 0 (S maxRetries)),
     Throw (busyError (retryAfterOf (busy maxRetries)))).
Proof.
  intros H. unfold fetchWithRetry. rewrite attemptFrom_busy; [reflexivity|].
  intros a Ha. apply H. lia.
Qed.

End BusyFacts.

(** * Lists in pages *)

Section ListingFacts.
Import Http ApiUtils FreshdeskService.
Context {T : Type}.
Variable parseApiError : Response T -> string.
Variable net : string -> nat -> Outcome T.
Variable endpoint : string.

Local Abbreviation listPage := (listPage net endpoint).
Local Abbreviation listsFrom := (listsFrom net endpoint).
Local Abbreviation full := (fun p : list T => length p = 100%nat).

(** The loop over the pages after the first, while pages are full. *)
Lemma listPages_full pages : forall k acc fuel,
  Forall full pages -> listsFrom k pages ->
  listPages net endpoint 100 (length pages + fuel) k acc
  = listPages net endpoint 100 fuel (k + Z.of_nat (length pages)) (acc ++ concat pages).
Proof.
  induction pages as [|p pages IH]; intros k acc fuel Hfull Hl.
  - simpl. rewrite Z.add_0_r, app_nil_r. reflexivity.
  - apply Forall_cons in Hfull as [Hp Hfull]. destruct Hl as [(r & Hr & Hok & Hjson) Hl].
    cbn [length Nat.add listPages].
    change (executeRequest net endpoint _ _) with (listPage k). rewrite Hr. cbn [bind].
    rewrite Hok, Hjson, Hp. cbn [negb].
    change (0 <? Z.of_nat 100) with true. change (Z.of_nat 100 <? 100) with false. cbv iota.
    rewrite (IH (k + 1) (acc ++ p) fuel Hfull Hl).
    rewrite <- app_assoc. cbn [concat]. f_equal. lia.
Qed.

Lemma listPages_short k acc fuel last :
  lists (listPage k) last -> (length last < 100)%nat ->
  listPages net endpoint 100 (S fuel) k acc = Ok (acc ++ last).
Proof.
  intros (r & Hr & Hok & Hjson) Hlen. cbn [listPages].
  change (executeRequest net endpoint _ _) with (listPage k). rewrite Hr. cbn [bind].
  rewrite Hok, Hjson. cbn [negb].
  destruct (0 <? Z.of_nat (length last)) eqn:E.
  - assert ((Z.of_nat (length last) <? 100) = true) as -> by (apply Z.ltb_lt; lia).
    reflexivity.
  - apply Z.ltb_ge in E. destruct last; [|simpl in E; lia]. rewrite app_nil_r. reflexivity.
Qed.

Lemma listPages_failed k acc fuel r :
  listPage k = Ok r -> ok r = false ->
  listPages net endpoint 100 (S fuel) k acc = Ok acc.
Proof.
  intros Hr Hok. cbn [listPages].
  change (executeRequest net endpoint _ _) with (listPage k). rewrite Hr. cbn [bind].
  rewrite Hok. reflexivity.
Qed.

Lemma listPages_thrown k acc fuel e :
  listPage k = Throw e ->
  listPages net endpoint 100 (S fuel) k acc = Throw e.
Proof.
  intros He. cbn [listPages].
  change (executeRequest net endpoint _ _) with (listPage k). rewrite He. reflexivity.
Qed.

(** What a request is answered with at once, when the answer is neither a
    busy one nor the 404 of an unserved route. *)
Lemma executeRequest_answered (params : list (string * string)) (context : string)
    (r : Response T) :
  net (getTargetUrl endpoint params) 0%nat = Responds r ->
  code r <> 429 -> code r <> 503 -> ~ isRoutingFault r ->
  executeRequest net endpoint params context = Ok r.
Proof.
  intros Hnet H429 H503 Hrf. unfold executeRequest, fetchWithRetry.
  rewrite attemptFrom_step, Hnet.
  assert (H404 : (code r =? 404) && negb (isJsonType (contentType r)) = false).
  { destruct ((code r =? 404) && negb (isJsonType (contentType r))) eqn:E; [|reflexivity].
    exfalso. apply Hrf. apply andb_true_iff in E as [E1 E2].
    split; [apply Z.eqb_eq; exact E1|apply negb_true_iff; exact E2]. }
  rewrite H404.
  assert ((code r =? 429) || (code r =? 503) = false) as ->
    by (apply orb_false_iff; split; apply Z.eqb_neq; assumption).
  cbn [snd bind]. rewrite H404. reflexivity.
Qed.

Lemma executeRequest_unserved (params : list (string * string)) (context : string)
    (r : Response T) :
  net (getTargetUrl endpoint params) 0%nat = Responds r -> isRoutingFault r ->
  executeRequest net endpoint params context
  = Throw (backendError (getTargetUrl endpoint params) r).
Proof.
  intros Hnet [H404 Hj]. unfold executeRequest, fetchWithRetry.
  rewrite attemptFrom_step, Hnet, H404, Hj. reflexivity.
Qed.

Lemma executeRequest_busy (params : list (string * string)) (context : string)
    (r0 r1 : Response T) :
  net (getTargetUrl endpoint params) 0%nat = Responds r0 ->
  net (getTargetUrl endpoint params) 1%nat = Responds r1 ->
  code r0 = 429 \/ code r0 = 503 -> code r1 = 429 \/ code r1 = 503 ->
  executeRequest net endpoint params context = Throw (busyError (retryAfterOf r1)).
Proof.
  intros H0 H1 Hc0 Hc1. unfold executeRequest, fetchWithRetry.
  rewrite (attemptFrom_busy net _ (fun a => match a with O => r0 | S _ => r1 end) 1 0).
  - reflexivity.
  - intros [|[|a]] Ha; try lia; auto.
Qed.

Hypothesis list_mode : Js.includes endpoint "/search/" = false.

(** The first page of a list is full: the loop takes over. *)
Lemma first_page_full maxPages first :
  lists (listPage 1) first -> full first ->
  fetchPaginatedFreshdeskAPI parseApiError net endpoint maxPages
  = listPages net endpoint 100 (Z.to_nat (maxPages - 1)) 2 first.
Proof.
  intros (r & Hr & Hok & Hjson) Hfull. unfold fetchPaginatedFreshdeskAPI.
  rewrite list_mode. cbv zeta.
  change (executeRequest net endpoint _ _) with (listPage 1). rewrite Hr. cbn [bind].
  rewrite Hok, Hjson, Hfull. cbn [negb bind]. reflexivity.
Qed.

Lemma listPages_concat (maxPages : Z) (pages : list (list T)) (last : list T) :
  Forall full pages -> (length last < 100)%nat ->
  listsFrom 1 (pages ++ [last]) ->
  Z.of_nat (length pages) < maxPages \/ pages = [] ->
  fetchPaginatedFreshdeskAPI parseApiError net endpoint maxPages
  = Ok (concat (pages ++ [last])).
Proof.
  intros Hfull Hlast Hl Hmax.
  destruct pages as [|first pages].
  - destruct Hl as [(r & Hr & Hok & Hjson) _]. unfold fetchPaginatedFreshdeskAPI.
    rewrite list_mode. cbv zeta.
    change (executeRequest net endpoint _ _) with (listPage 1). rewrite Hr. cbn [bind].
    rewrite Hok, Hjson. cbn [negb bind].
    assert ((Z.of_nat (length last) <? 100) = true) as -> by (apply Z.ltb_lt; lia).
    simpl. rewrite app_nil_r. reflexivity.
  - destruct Hmax as [Hmax|Hmax]; [|discriminate].
    apply Forall_cons in Hfull as [Hfirst Hfull]. destruct Hl as [H1 Hl].
    rewrite (first_page_full _ first H1 Hfirst).
    change (1 + 1) with 2 in Hl.
    assert (Hsplit : forall l1 l2 k, listsFrom k (l1 ++ l2) ->
              listsFrom k l1 /\ listsFrom (k + Z.of_nat (length l1)) l2).
    { clear. induction l1 as [|p l1 IH]; intros l2 k.
      - simpl. rewrite Z.add_0_r. auto.
      - cbn [app FreshdeskService.listsFrom length]. intros [Hp H].
        destruct (IH _ _ H) as [Ha Hb].
        replace (k + Z.of_nat (S (length l1))) with (k + 1 + Z.of_nat (length l1)) by lia.
        repeat split; assumption. }
    destruct (Hsplit _ _ _ Hl) as [Hpages [Hshort _]].
    cbn [length] in Hmax.
    replace (Z.to_nat (maxPages - 1))
      with (length pages + S (Z.to_nat (maxPages - 1) - length pages - 1))%nat by lia.
    rewrite (listPages_full pages 2 first _ Hfull Hpages).
    rewrite (listPages_short _ _ _ last Hshort Hlast).
    cbn [app concat]. rewrite concat_app. simpl. rewrite app_nil_r, app_assoc. reflexivity.
Qed.

(** X7. A list is fetched page by page until a page is not full, and the
    result is the pages in order. *)
Theorem list_pages_are_concatenated (maxPages : Z) (pages : list (list T)) (last : list T) :
  Forall full pages -> (length last < 100)%nat ->
  listsFrom 1 (pages ++ [last]) ->
  Z.of_nat (length pages) < maxPages \/ pages = [] ->
  fetchPaginatedFreshdeskAPI parseApiError net endpoint maxPages
  = Ok (concat (pages ++ [last])).
Proof. apply listPages_concat. Qed.

(** X8. A list stops at [maxPages] pages, whatever follows them. *)
Theorem list_stops_at_max_pages (pages : list (list T)) :
  pages <> [] -> Forall full pages -> listsFrom 1 pages ->
  fetchPaginatedFreshdeskAPI parseApiError net endpoint (Z.of_nat (length pages))
  = Ok (concat pages).
Proof.
  intros Hne Hfull Hl. destruct pages as [|first pages]; [contradiction|].
  apply Forall_cons in Hfull as [Hfirst Hfull]. destruct Hl as [H1 Hl].
  rewrite (first_page_full _ first H1 Hfirst).
  replace (Z.to_nat (Z.of_nat (length (first :: pages)) - 1))
    with (length pages + 0)%nat by (cbn [length]; lia).
  rewrite (listPages_full pages 2 first 0 Hfull Hl). reflexivity.
Qed.

(** X9. When the pages 1 to k of a list are full and the request for page
    k + 1 fails, what happens depends on how it fails.  Answered with an
    error status that is not 429, 503 or the 404 of an unserved route, the
    page ends the list without an error, and the k pages are the result.
    When the request throws, the whole call throws the same error and the
    pages fetched so far are lost: so it is for an unserved route, and for
    a server that is busy at both attempts. *)
Theorem later_list_page_failure (maxPages : Z) (pages : list (list T)) :
  pages <> [] -> Forall full pages -> listsFrom 1 pages ->
  Z.of_nat (length pages) < maxPages ->
  let next :=
    getTargetUrl endpoint
      [("page"%string, Js.ofZ (Z.of_nat (length pages) + 1));
       ("per_page"%string, Js.ofZ 100)] in
  (forall r, net next 0%nat = Responds r -> ok r = false ->
             code r <> 429 -> code r <> 503 -> ~ isRoutingFault r ->
     fetchPaginatedFreshdeskAPI parseApiError net endpoint maxPages = Ok (concat pages)) /\
  (forall e, listPage (Z.of_nat (length pages) + 1) = Throw e ->
     fetchPaginatedFreshdeskAPI parseApiError net endpoint maxPages = Throw e) /\
  (forall r, net next 0%nat = Responds r -> isRoutingFault r ->
     fetchPaginatedFreshdeskAPI parseApiError net endpoint maxPages
     = Throw (backendError next r)) /\
  (forall r0 r1, net next 0%nat = Responds r0 -> net next 1%nat = Responds r1 ->
                 code r0 = 429 \/ code r0 = 503 -> code r1 = 429 \/ code r1 = 503 ->
     fetchPaginatedFreshdeskAPI parseApiError net endpoint maxPages
     = Throw (busyError (retryAfterOf r1))).
Proof.
  intros Hne Hfull Hl Hmax. cbv zeta.
  destruct pages as [|first pages]; [contradiction|].
  apply Forall_cons in Hfull as [Hfirst Hfull]. destruct Hl as [H1 Hl].
  rewrite (first_page_full _ first H1 Hfirst).
  cbn [length] in Hmax |- *.
  replace (Z.to_nat (maxPages - 1))
    with (length pages + S (Z.to_nat (maxPages - 1) - length pages - 1))%nat by lia.
  rewrite (listPages_full pages 2 first _ Hfull Hl).
  replace (2 + Z.of_nat (length pages)) with (Z.of_nat (S (length pages)) + 1) by lia.
  assert (Hthrow : forall e, listPage (Z.of_nat (S (length pages)) + 1) = Throw e ->
            listPages net endpoint 100
              (S (Z.to_nat (maxPages - 1) - length pages - 1))
              (Z.of_nat (S (length pages)) + 1) (first ++ concat pages) = Throw e).
  { intros e He. apply listPages_thrown, He. }
  split; [|split; [exact Hthrow|split]].
  - intros r Hnet Hok H429 H503 Hrf.
    apply (listPages_failed _ _ _ r); [|exact Hok].
    apply executeRequest_answered; assumption.
  - intros r Hnet Hrf. apply Hthrow. apply executeRequest_unserved; assumption.
  - intros r0 r1 Hn0 Hn1 Hc0 Hc1. apply Hthrow.
    apply (executeRequest_busy _ _ r0 r1); assumption.
Qed.

End ListingFacts.

Section ConversationFacts.
Import Http FreshdeskService.

Lemma includes_cons_ne (a c : ascii) (n hay : string) :
  a <> c -> Js.includes (String c hay) (String a n) = Js.includes hay (String a n).
Proof.
  intros Hne. unfold Js.includes. cbn [String.index String.prefix].
  destruct (ascii_dec a c) as [E|_]; [congruence|].
  destruct (String.index 0 (String a n) hay); reflexivity.
Qed.

Lemma includes_cons_eq (a b c : ascii) (n hay : string) :
  b <> c ->
  Js.includes (String a (String c hay)) (String a (String b n))
  = Js.includes (String c hay) (String a (String b n)).
Proof.
  intros Hne. unfold Js.includes.
  change (String.index 0 (String a (String b n)) (String a (String c hay)))
    with (if String.prefix (String a (String b n)) (String a (String c hay)) then Some 0%nat
          else match String.index 0 (String a (String b n)) (String c hay) with
               | Some n => Some (S n)
               | None => None
               end).
  cbn [String.prefix]. destruct (ascii_dec a a) as [_|E]; [|congruence].
  destruct (ascii_dec b c) as [E|_]; [congruence|].
  destruct (String.index 0 (String a (String b n)) (String c hay)); reflexivity.
Qed.

(** No "/search/" in the digits of a ticket id followed by "/conversations". *)
Lemma digits_not_search (digits : string) :
  Forall (fun c => Js.isDigit c = true \/ c = "-"%char) (list_ascii_of_string digits) ->
  Js.includes (digits ++ "/conversations") "/search/" = false /\
  Js.includes (String "/" (digits ++ "/conversations")) "/search/" = false.
Proof.
  induction digits as [|c r IH]; intros H.
  - split; reflexivity.
  - simpl in H. apply Forall_cons in H as [Hc H]. destruct (IH H) as [IH1 _].
    assert (Hslash : "/"%char <> c) by (intros <-; destruct Hc; discriminate).
    assert (Hs : "s"%char <> c) by (intros <-; destruct Hc; discriminate).
    change (String c r ++ "/conversations")%string with (String c (r ++ "/conversations")).
    rewrite (includes_cons_eq "/" "s" c) by exact Hs.
    rewrite (includes_cons_ne "/" c) by exact Hslash. auto.
Qed.

(** The conversations of a ticket are a list, fetched in pages of 100. *)
Lemma conversations_list_mode (ticketId : Z) :
  Js.includes ("/v2/tickets/" ++ Js.ofZ ticketId ++ "/conversations") "/search/" = false.
Proof.
  destruct (digits_not_search (Js.ofZ ticketId) (ofZ_chars ticketId)) as [_ H].
  generalize dependent (Js.ofZ ticketId). intros digits H.
  change ("/v2/tickets/" ++ digits ++ "/conversations")%string
    with (String "/" (String "v" (String "2" (String "/" (String "t" (String "i"
           (String "c" (String "k" (String "e" (String "t" (String "s"
             (String "/" (digits ++ "/conversations"))))))))))))).
  rewrite (includes_cons_eq "/" "s" "v") by discriminate.
  rewrite !includes_cons_ne by discriminate.
  rewrite (includes_cons_eq "/" "s" "t") by discriminate.
  rewrite !includes_cons_ne by discriminate.
  exact H.
Qed.

Variable parseApiError : Response Conversation.t -> string.
Variable net : string -> nat -> Outcome Conversation.t.

(** X10. The thread of a ticket is the pages of its conversations in order,
    up to the first page that is not full. *)
Theorem conversations_are_complete (ticketId : Z)
    (pages : list (list Conversation.t)) (last : list Conversation.t) :
  Forall (fun p => length p = 100%nat) pages -> (length last < 100)%nat ->
  (length pages < 300)%nat ->
  listsFrom net ("/v2/tickets/" ++ Js.ofZ ticketId ++ "/conversations") 1 (pages ++ [last]) ->
  getConversations parseApiError net ticketId = concat (pages ++ [last]).
Proof.
  intros Hfull Hlast Hmax Hl. unfold getConversations.
  rewrite (listPages_concat parseApiError net _ (conversations_list_mode ticketId)
             300 pages last Hfull Hlast Hl); [reflexivity|].
  left. lia.
Qed.

End ConversationFacts.

(** * The active tickets *)

Section OfListFacts.
Context {K V : Type} `{EqDecision K}.
Implicit Types (m : list (K * V)).

Lemma fold_set_keys_NoDup (l : list (K * V)) : forall m,
  NoDup (JsMap.keys m) ->
  NoDup (JsMap.keys (fold_left (fun m kv => JsMap.set (fst kv) (snd kv) m) l m)).
Proof.
  induction l as [|kv l IH]; intros m Hm; simpl; [exact Hm|].
  apply IH, keys_set_NoDup, Hm.
Qed.

Lemma ofList_keys_NoDup (l : list (K * V)) : NoDup (JsMap.keys (JsMap.ofList l)).
Proof. apply fold_set_keys_NoDup. constructor. Qed.

(** [new Map(pairs)] keeps, for each key, the value of its last pair. *)
Lemma fold_set_get k (l : list (K * V)) : forall m,
  JsMap.get k (fold_left (fun m kv => JsMap.set (fst kv) (snd kv) m) l m)
  = match JsMap.get k (rev l) with Some v => Some v | None => JsMap.get k m end.
Proof.
  induction l as [|[k0 v0] l IH]; intros m; simpl; [reflexivity|].
  rewrite IH, get_set. clear IH.
  assert (Happ : forall l1 l2 : list (K * V),
            JsMap.get k (l1 ++ l2)
            = match JsMap.get k l1 with Some v => Some v | None => JsMap.get k l2 end).
  { induction l1 as [|[k1 v1] l1 IH1]; intros l2; simpl; [reflexivity|].
    destruct (decide (k = k1)); [reflexivity|apply IH1]. }
  rewrite Happ. simpl. destruct (JsMap.get k (rev l)); [reflexivity|].
  destruct (decide (k = k0)); reflexivity.
Qed.

Lemma ofList_get k (l : list (K * V)) : JsMap.get k (JsMap.ofList l) = JsMap.get k (rev l).
Proof.
  unfold JsMap.ofList. rewrite fold_set_get. destruct (JsMap.get k (rev l)); reflexivity.
Qed.

End OfListFacts.

Section ActiveTickets.
Import Http FreshdeskService.

(** The first record with the id of [t] in a list of records keyed by id. *)
Lemma get_keyed (t : Ticket.t) (l : list Ticket.t) :
  JsMap.get (Ticket.id t) (map (fun t => (Ticket.id t, t)) l) = Some t <->
  exists l1 l2, l = l1 ++ t :: l2 /\ Ticket.id t ∉ map Ticket.id l1.
Proof.
  induction l as [|x l IH]; simpl.
  - split; [discriminate|]. intros (l1 & l2 & H & _). destruct l1; discriminate.
  - destruct (decide (Ticket.id t = Ticket.id x)) as [Heq|Hne].
    + split.
      * intros [= ->]. exists [], l. split; [reflexivity|]. apply not_elem_of_nil.
      * intros (l1 & l2 & H & Hnot). destruct l1 as [|y l1]; simpl in H.
        -- congruence.
        -- injection H as -> _. exfalso. apply Hnot. simpl. rewrite Heq. left.
    + rewrite IH. split.
      * intros (l1 & l2 & -> & Hnot). exists (x :: l1), l2. split; [reflexivity|].
        simpl. intros Hin. apply elem_of_cons in Hin as [Hin|Hin]; [congruence|auto].
      * intros (l1 & l2 & H & Hnot). destruct l1 as [|y l1]; simpl in H.
        -- congruence.
        -- injection H as -> ->. exists l1, l2. split; [reflexivity|].
           intros Hin. apply Hnot. simpl. right. exact Hin.
Qed.

(** What [new Map(allTickets.map(t => [t.id, t])).values()] keeps: one record
    for each id, the last one. *)
Lemma uniqueById_spec (allTickets : list Ticket.t) :
  NoDup (map Ticket.id (uniqueById allTickets)) /\
  forall t, t ∈ uniqueById allTickets <->
    exists l1 l2, allTickets = l1 ++ t :: l2 /\ Ticket.id t ∉ map Ticket.id l2.
Proof.
  unfold uniqueById, JsMap.values.
  set (pairs := map (fun t => (Ticket.id t, t)) allTickets).
  pose proof (ofList_keys_NoDup pairs) as Hnd.
  assert (Hkeyed : Forall (fun e : Z * Ticket.t => fst e = Ticket.id (snd e)) (JsMap.ofList pairs)).
  { unfold JsMap.ofList.
    assert (G : forall l m,
              Forall (fun e : Z * Ticket.t => fst e = Ticket.id (snd e)) l ->
              Forall (fun e : Z * Ticket.t => fst e = Ticket.id (snd e)) m ->
              Forall (fun e : Z * Ticket.t => fst e = Ticket.id (snd e))
                     (fold_left (fun m kv => JsMap.set (fst kv) (snd kv) m) l m)).
    { induction l as [|[k v] l IH]; intros m Hl Hm; simpl; [exact Hm|].
      apply Forall_cons in Hl as [Hkv Hl]. apply IH; [exact Hl|].
      apply Forall_set; assumption. }
    apply G; [|constructor]. unfold pairs. apply Forall_forall. intros e He.
    apply list_elem_of_In, in_map_iff in He as (t & <- & _). reflexivity. }
  assert (Hids : map Ticket.id (map snd (JsMap.ofList pairs)) = JsMap.keys (JsMap.ofList pairs)).
  { unfold JsMap.keys. rewrite map_map. apply map_ext_in. intros e He.
    rewrite Forall_forall in Hkeyed. symmetry. apply Hkeyed, list_elem_of_In, He. }
  split; [rewrite Hids; exact Hnd|].
  intros t.
  assert (Hget : t ∈ map snd (JsMap.ofList pairs) <->
                 JsMap.get (Ticket.id t) (JsMap.ofList pairs) = Some t).
  { split.
    - intros Hin. apply list_elem_of_In, in_map_iff in Hin as ([k v] & Hv & Hin). simpl in Hv.
      subst v. apply list_elem_of_In in Hin. rewrite Forall_forall in Hkeyed.
      pose proof (Hkeyed _ Hin) as Hk. simpl in Hk. subst k.
      apply elem_get; assumption.
    - intros Hg. apply get_elem in Hg. apply list_elem_of_In, in_map_iff.
      exists (Ticket.id t, t). split; [reflexivity|apply list_elem_of_In; exact Hg]. }
  rewrite Hget, ofList_get. unfold pairs. rewrite <- map_rev, get_keyed.
  split.
  - intros (l1 & l2 & Hrev & Hnot). exists (rev l2), (rev l1). split.
    + rewrite <- (rev_involutive allTickets), Hrev, rev_app_distr. simpl.
      rewrite <- app_assoc. reflexivity.
    + intros Hin. apply Hnot. rewrite map_rev in Hin.
      apply list_elem_of_In, in_rev in Hin. apply list_elem_of_In. exact Hin.
  - intros (l1 & l2 & -> & Hnot). exists (rev l2), (rev l1). split.
    + rewrite rev_app_distr. simpl. rewrite <- app_assoc. reflexivity.
    + intros Hin. apply Hnot. rewrite map_rev in Hin.
      apply list_elem_of_In, in_rev in Hin. apply list_elem_of_In. exact Hin.
Qed.

Variable parseApiError : Response Ticket.t -> string.
Variable nets : nat -> string -> nat -> Outcome Ticket.t.

(** X11. Asked for the active tickets of some groups, [getActiveTickets] never
    throws; it returns each ticket once, in the last version that the
    queries delivered, and the number of tickets as the total. *)
Theorem active_tickets_by_group (openStatusIds : option (list Z)) (gid : Z) (gids : list Z) :
  let fetched :=
    concat (imap (fun i g => groupTickets parseApiError (nets i)
                               (statusQueryOf openStatusIds) g) (gid :: gids)) in
  exists tickets,
    getActiveTickets parseApiError nets openStatusIds (Some (gid :: gids))
    = Ok (tickets, Z.of_nat (length tickets)) /\
    NoDup (map Ticket.id tickets) /\
    forall t, t ∈ tickets <->
      exists l1 l2, fetched = l1 ++ t :: l2 /\ Ticket.id t ∉ map Ticket.id l2.
Proof.
  cbv zeta. eexists. split; [reflexivity|]. apply uniqueById_spec.
Qed.

(** X12. Without groups, the request for the count asks for the very URL of
    the first page of the search. *)
Theorem count_request_is_first_page (openStatusIds : option (list Z)) :
  let fullQuery := (dquote ++ statusQueryOf openStatusIds ++ dquote)%string in
  getTargetUrl activeEndpoint [("query", fullQuery); ("page", "1")]%string
  = getTargetUrl (activeEndpoint ++ "?query=" ++ Js.encodeURIComponent fullQuery)%string
      [("page", "1")]%string.
Proof.
  cbv zeta. unfold getTargetUrl, activeEndpoint. cbn [map fst snd].
  generalize (Js.encodeURIComponent (dquote ++ statusQueryOf openStatusIds ++ dquote)).
  intros q. simpl. reflexivity.
Qed.

End ActiveTickets.

(** * Further properties of the aggregation engine *)

(** ** The order and the contents of a sorted list *)

Section SortOrder.
Context {A : Type} (le : A -> A -> bool).

Lemma insertSorted_Permutation x l : Js.insertSorted le x l ≡ₚ x :: l.
Proof.
  induction l as [|y l IH]; simpl; [reflexivity|].
  destruct (le x y); [reflexivity|].
  rewrite IH. apply Permutation_swap.
Qed.

Lemma sort_Permutation l : Js.sort le l ≡ₚ l.
Proof.
  unfold Js.sort. induction l as [|x l IH]; simpl; [reflexivity|].
  rewrite insertSorted_Permutation, IH. reflexivity.
Qed.

End SortOrder.

Section SortByKey.
Context {A : Type} (key : A -> Z).

Lemma insertSorted_descending x l :
  StronglySorted (fun a b => key b <= key a) l ->
  StronglySorted (fun a b => key b <= key a)
    (Js.insertSorted (fun a b => key b <=? key a) x l).
Proof.
  induction 1 as [|y l Hl IH Hy]; simpl.
  - constructor; constructor.
  - destruct (key y <=? key x) eqn:E.
    + apply Z.leb_le in E. constructor; [constructor; assumption|].
      constructor; [exact E|].
      eapply Forall_impl; [exact Hy|]. simpl. intros z Hz. lia.
    + apply Z.leb_gt in E. constructor; [exact IH|].
      apply Forall_forall. intros z Hz.
      apply insertSorted_elem in Hz as [->|Hz]; [lia|].
      rewrite Forall_forall in Hy. auto.
Qed.

Lemma sort_descending l :
  StronglySorted (fun a b => key b <= key a) (Js.sort (fun a b => key b <=? key a) l).
Proof.
  unfold Js.sort. induction l as [|x l IH]; simpl; [constructor|].
  apply insertSorted_descending, IH.
Qed.

End SortByKey.

(** ** Sums over lists and maps *)

Section Totals.
Import LogicUtils.
Context {A : Type} (f : A -> Z).

Lemma total_app l1 l2 : total f (l1 ++ l2) = total f l1 + total f l2.
Proof. induction l1 as [|x l1 IH]; simpl; [reflexivity|]. rewrite IH. lia. Qed.

Lemma total_Permutation l1 l2 : l1 ≡ₚ l2 -> total f l1 = total f l2.
Proof. induction 1; simpl; lia. Qed.

Lemma total_map {B} (g : B -> A) l : total f (map g l) = total (fun x => f (g x)) l.
Proof. induction l as [|x l IH]; simpl; [reflexivity|]. rewrite IH. reflexivity. Qed.

Lemma total_ext (g : A -> Z) l :
  (forall x, x ∈ l -> f x = g x) -> total f l = total g l.
Proof.
  induction l as [|x l IH]; simpl; intros H; [reflexivity|].
  rewrite H by left. rewrite IH; [reflexivity|].
  intros y Hy. apply H. right. exact Hy.
Qed.

Lemma total_filter (p : A -> bool) l :
  (forall x, x ∈ l -> p x = false -> f x = 0) ->
  total f (List.filter p l) = total f l.
Proof.
  induction l as [|x l IH]; simpl; intros H; [reflexivity|].
  assert (IH' : total f (List.filter p l) = total f l).
  { apply IH. intros y Hy. apply H. right. exact Hy. }
  destruct (p x) eqn:E; simpl; rewrite IH'; [reflexivity|].
  rewrite (H x); [reflexivity|left|exact E].
Qed.

Lemma fold_left_total (g : A -> Z) l : forall acc,
  fold_left (fun sum x => sum + g x) l acc = acc + total g l.
Proof.
  induction l as [|x l IH]; simpl; intros acc; [lia|].
  rewrite IH. lia.
Qed.

End Totals.

Section MapTotals.
Import LogicUtils.
Context {K V : Type} `{EqDecision K} (f : V -> Z).

Lemma total_set k v (m : list (K * V)) :
  total f (JsMap.values (JsMap.set k v m))
  = total f (JsMap.values m) - from_option f 0 (JsMap.get k m) + f v.
Proof.
  unfold JsMap.values. induction m as [|[k0 v0] m IH]; simpl.
  - lia.
  - destruct (decide (k = k0)); simpl; [lia|]. rewrite IH. lia.
Qed.

(** [if (!m.has(k)) m.set(k, zero)], then [m.set(k, v)]. *)
Lemma total_upsert k zero v (m : list (K * V)) :
  f zero = 0 ->
  total f (JsMap.values (JsMap.set k v (ensure k zero m)))
  = total f (JsMap.values m) - f (default zero (JsMap.get k (ensure k zero m))) + f v.
Proof.
  intros Hz. unfold ensure, JsMap.has. simpl.
  destruct (JsMap.get k m) as [v0|] eqn:Hget.
  - rewrite total_set, Hget. reflexivity.
  - rewrite !total_set, !get_set, Hget.
    destruct (decide (k = k)); [|congruence]. simpl. lia.
Qed.

Lemma Forall_ensure (Q : V -> Prop) k zero (m : list (K * V)) :
  Q zero -> Forall (fun d => Q (snd d)) m ->
  Forall (fun d => Q (snd d)) (ensure k zero m)
  /\ Q (default zero (JsMap.get k (ensure k zero m))).
Proof.
  intros Hz Hm.
  assert (He : Forall (fun d => Q (snd d)) (ensure k zero m)).
  { unfold ensure. destruct (JsMap.has k m); [exact Hm|].
    apply Forall_set; [exact Hm|exact Hz]. }
  split; [exact He|].
  destruct (JsMap.get k (ensure k zero m)) as [v|] eqn:Hget; simpl; [|exact Hz].
  exact (Forall_get (fun d => Q (snd d)) k v _ He Hget).
Qed.

End MapTotals.

Section Report.
Import LogicUtils.
Variable localOffset : Z -> Z.
Variable agentMap : list (Z * string).
Variables startDate endDate : Z.
Variable groupMap : list (Z * string).

Local Abbreviation qualifies := (qualifies agentMap startDate endDate).
Local Abbreviation aggregate := (aggregate localOffset agentMap startDate endDate).

Lemma initialActivity_from (P : Z * AgentData.t -> Prop) :
  (forall k name, (k, name) ∈ agentMap -> P (k, newAgentData name)) ->
  Forall P (initialActivity agentMap).
Proof.
  intros H. unfold initialActivity, JsMap.entries.
  assert (G : forall l m, (forall e, e ∈ l -> e ∈ agentMap) -> Forall P m ->
     Forall P (fold_left (fun m e => JsMap.set (fst e) (newAgentData (snd e)) m) l m)).
  { induction l as [|[k name] l IH]; simpl; intros m Hl Hm; [exact Hm|].
    apply IH; [intros e He; apply Hl; right; exact He|].
    apply Forall_set; [exact Hm|]. apply H, Hl. left. }
  apply G; [auto|constructor].
Qed.

Lemma aggregate_from (P : Z * AgentData.t -> Prop) tickets :
  (forall k name, (k, name) ∈ agentMap -> P (k, newAgentData name)) ->
  (forall tk c ad, tk ∈ tickets -> c ∈ Ticket.conversations tk -> qualifies c = true ->
     P (Conversation.user_id c, ad) ->
     P (Conversation.user_id c, creditActivity localOffset tk c ad)) ->
  (forall tk k ad, P (k, ad) -> P (k, creditWorked tk ad)) ->
  (forall tk ad, tk ∈ tickets -> P (Ticket.responder_id tk, ad) ->
     Ticket.id tk ∈ AgentData.ticketIds ad ->
     P (Ticket.responder_id tk, creditClosure localOffset tk ad)) ->
  Forall P (aggregate tickets).
Proof.
  intros H0 H1 H2 H3. unfold LogicUtils.aggregate.
  apply pass2_Forall; [exact H3|].
  apply pass1_Forall; [exact H1|exact H2|].
  apply initialActivity_from, H0.
Qed.

(** What the report is made of: the records that pass the filter. *)
Lemma report_elem tickets s :
  s ∈ calculateAllAgentActivity localOffset agentMap startDate endDate groupMap tickets ->
  exists T e, e ∈ aggregate tickets /\ s = summarize groupMap T e /\ kept s = true.
Proof.
  unfold calculateAllAgentActivity. intros Hs.
  apply sort_elem, list_elem_of_In, filter_In in Hs as [Hs Hk].
  apply in_map_iff in Hs as (e & <- & He).
  eexists _, e. split; [apply list_elem_of_In; exact He|]. split; [reflexivity|exact Hk].
Qed.

Lemma aggregate_closed_worked tickets :
  Forall (fun e => 0 <= AgentData.totalClosed (snd e) /\
                   (0 < AgentData.totalClosed (snd e) ->
                    exists x, x ∈ AgentData.ticketIds (snd e)))
         (aggregate tickets).
Proof.
  apply aggregate_from; simpl.
  - intros _ _ _. split; [lia|lia].
  - intros tk c ad _ _ _ [H0 H1]. split; [exact H0|].
    intros _. exists (Ticket.id tk). apply elem_of_union_l, elem_of_singleton. reflexivity.
  - intros tk k ad H. exact H.
  - intros tk ad _ [H0 _] Hin. split; [lia|]. intros _. eauto.
Qed.

Lemma kept_has_tickets tickets s :
  s ∈ calculateAllAgentActivity localOffset agentMap startDate endDate groupMap tickets ->
  1 <= AgentActivitySummary.ticketCount s.
Proof.
  intros Hs. destruct (report_elem _ _ Hs) as (T & [k ad] & He & -> & Hk).
  pose proof (aggregate_closed_worked tickets) as Hall.
  rewrite Forall_forall in Hall. destruct (Hall _ He) as [_ Hc]. simpl in Hc.
  unfold kept in Hk. simpl in *. unfold sizeOf in *.
  assert (Hx : exists x, x ∈ AgentData.ticketIds ad).
  { apply orb_true_iff in Hk as [Hk|Hk]; apply Z.ltb_lt in Hk.
    - apply size_pos_elem_of. lia.
    - auto. }
  destruct Hx as [x Hx].
  assert (size (AgentData.ticketIds ad) <> 0%nat); [|lia].
  intros Hz. apply size_empty_inv in Hz. rewrite Hz in Hx. exact (not_elem_of_empty x Hx).
Qed.

(** X13. Every agent of the report has worked on a ticket. *)
Theorem listed_agents_worked tickets s :
  s ∈ calculateAllAgentActivity localOffset agentMap startDate endDate groupMap tickets ->
  1 <= AgentActivitySummary.ticketCount s.
Proof. apply kept_has_tickets. Qed.

Lemma aggregate_touchedOnly tickets :
  Forall (touchedOnly agentMap startDate endDate tickets) (aggregate tickets).
Proof.
  unfold LogicUtils.aggregate. apply pass2_touchedOnly, pass1_touchedOnly.
Qed.

Lemma filter_none {A} (p : A -> bool) l :
  (forall x, x ∈ l -> p x = false) -> List.filter p l = [].
Proof.
  induction l as [|x l IH]; simpl; intros H; [reflexivity|].
  rewrite (H x) by left. apply IH. intros y Hy. apply H. right. exact Hy.
Qed.

(** X14. Without a conversation that qualifies the report is empty. *)
Theorem no_activity_no_report tickets :
  (forall tk c, tk ∈ tickets -> c ∈ Ticket.conversations tk -> qualifies c = false) ->
  calculateAllAgentActivity localOffset agentMap startDate endDate groupMap tickets = [].
Proof.
  intros Hnone. unfold calculateAllAgentActivity.
  rewrite filter_none; [reflexivity|].
  intros s Hs. apply list_elem_of_In, in_map_iff in Hs as ([k ad] & <- & He).
  apply list_elem_of_In in He.
  pose proof (aggregate_touchedOnly tickets) as Ht.
  pose proof (aggregate_closed_worked tickets) as Hc.
  rewrite Forall_forall in Ht, Hc.
  specialize (Ht _ He). destruct (Hc _ He) as [_ Hw]. simpl in *.
  assert (Hempty : forall x, x ∉ AgentData.ticketIds ad).
  { intros x Hx. destruct (Ht x Hx) as (tk & c & Htk & _ & Hcin & _ & Hq).
    rewrite (Hnone tk c Htk Hcin) in Hq. discriminate. }
  unfold kept. simpl. unfold sizeOf.
  apply orb_false_iff. split; apply Z.ltb_ge.
  - assert (size (AgentData.ticketIds ad) = 0%nat); [|lia].
    apply size_empty_iff, elem_of_equiv_empty. exact Hempty.
  - destruct (Z_lt_le_dec 0 (AgentData.totalClosed ad)) as [Hpos|]; [|assumption].
    destruct (Hw Hpos) as [x Hx]. destruct (Hempty x Hx).
Qed.

Lemma NoDup_map_filter {A B} (f : A -> B) (p : A -> bool) l :
  NoDup (map f l) -> NoDup (map f (List.filter p l)).
Proof.
  induction l as [|x l IH]; simpl; intros Hnd; [constructor|].
  apply NoDup_cons in Hnd as [Hx Hnd].
  destruct (p x); simpl; [|auto].
  apply NoDup_cons. split; [|auto].
  intros Hin. apply Hx.
  apply list_elem_of_In, in_map_iff in Hin as (y & Hy & Hin).
  apply list_elem_of_In, in_map_iff. exists y. split; [exact Hy|].
  apply filter_In in Hin as [Hin _]. exact Hin.
Qed.

(** X15. The report lists an agent once, under the upper-cased name that
    [agentMap] gives the agent. *)
Theorem report_agents tickets :
  NoDup (map AgentActivitySummary.agentId
           (calculateAllAgentActivity localOffset agentMap startDate endDate groupMap tickets)) /\
  forall s,
    s ∈ calculateAllAgentActivity localOffset agentMap startDate endDate groupMap tickets ->
    exists name, (AgentActivitySummary.agentId s, name) ∈ agentMap /\
                 AgentActivitySummary.agentName s = Js.toUpperCase name.
Proof.
  split.
  - unfold calculateAllAgentActivity.
    rewrite (Permutation_map AgentActivitySummary.agentId (sort_Permutation _ _)).
    apply NoDup_map_filter. rewrite map_map.
    erewrite map_ext;
      [exact (aggregate_keys_NoDup localOffset agentMap startDate endDate tickets)|].
    intros [k ad]. reflexivity.
  - intros s Hs. destruct (report_elem _ _ Hs) as (T & [k ad] & He & -> & _).
    assert (Hall : Forall (fun e => exists name, (fst e, name) ∈ agentMap /\
                              AgentData.agentName (snd e) = Js.toUpperCase name)
                          (aggregate tickets)).
    { apply aggregate_from; simpl; eauto. }
    rewrite Forall_forall in Hall. exact (Hall _ He).
Qed.

(** X16. The report is in descending order of ticket count. *)
Theorem report_sorted tickets :
  StronglySorted
    (fun a b => AgentActivitySummary.ticketCount b <= AgentActivitySummary.ticketCount a)
    (calculateAllAgentActivity localOffset agentMap startDate endDate groupMap tickets).
Proof. unfold calculateAllAgentActivity. apply sort_descending. Qed.

Lemma aggregate_daily_sums tickets :
  Forall (fun e =>
            total Daily.totalResponses (JsMap.values (AgentData.dailyStats (snd e)))
            = AgentData.totalResponses (snd e) /\
            total Daily.totalActions (JsMap.values (AgentData.dailyStats (snd e)))
            = AgentData.totalActions (snd e) /\
            total Daily.totalClosed (JsMap.values (AgentData.dailyStats (snd e)))
            = AgentData.totalClosed (snd e))
         (aggregate tickets).
Proof.
  apply aggregate_from.
  - intros k name _. simpl. auto.
  - intros tk c ad _ _ _ (Hr & Ha & Hc). unfold creditActivity.
    cbn [snd AgentData.dailyStats AgentData.totalResponses AgentData.totalActions
         AgentData.totalClosed] in *.
    rewrite !total_upsert by reflexivity. rewrite Hr, Ha, Hc.
    destruct (Conversation.private c); simpl; repeat split; lia.
  - intros tk k ad H. exact H.
  - intros tk ad _ (Hr & Ha & Hc) _. unfold creditClosure.
    cbn [snd AgentData.dailyStats AgentData.totalResponses AgentData.totalActions
         AgentData.totalClosed] in *.
    destruct (JsMap.get _ (AgentData.dailyStats ad)) as [d|] eqn:Hget;
      rewrite !total_set, Hget, Hr, Ha, Hc; simpl; repeat split; lia.
Qed.

Lemma dailyBreakdown_total (f : DailyAgentStats.t -> Z) (g : Daily.t -> Z) T e :
  (forall d, f (constrainDay d) = g (snd d)) ->
  total f (AgentActivitySummary.dailyBreakdown (summarize groupMap T e))
  = total g (JsMap.values (AgentData.dailyStats (snd e))).
Proof.
  intros Hfg. destruct e as [k ad]. simpl.
  rewrite total_map. unfold JsMap.values. rewrite total_map.
  rewrite (total_Permutation _ _ _ (sort_Permutation _ _)).
  apply total_ext. intros d _. apply Hfg.
Qed.

(** X17. The days of an agent add up to the agent's totals. *)
Theorem daily_breakdown_adds_up tickets s :
  s ∈ calculateAllAgentActivity localOffset agentMap startDate endDate groupMap tickets ->
  total DailyAgentStats.totalResponses (AgentActivitySummary.dailyBreakdown s)
  = AgentActivitySummary.totalResponses s /\
  total DailyAgentStats.totalActions (AgentActivitySummary.dailyBreakdown s)
  = AgentActivitySummary.totalActions s /\
  total DailyAgentStats.totalClosed (AgentActivitySummary.dailyBreakdown s)
  = AgentActivitySummary.totalClosed s /\
  total DailyAgentStats.totalAgentActivity (AgentActivitySummary.dailyBreakdown s)
  = AgentActivitySummary.totalAgentActivity s.
Proof.
  intros Hs. destruct (report_elem _ _ Hs) as (T & e & He & -> & _).
  pose proof (aggregate_daily_sums tickets) as Hall.
  rewrite Forall_forall in Hall. destruct (Hall _ He) as (Hr & Ha & Hc).
  rewrite (dailyBreakdown_total _ Daily.totalResponses) by (intros []; reflexivity).
  rewrite (dailyBreakdown_total _ Daily.totalActions) by (intros []; reflexivity).
  rewrite (dailyBreakdown_total _ Daily.totalClosed) by (intros []; reflexivity).
  rewrite (dailyBreakdown_total _ (fun d => Daily.totalResponses d + Daily.totalActions d))
    by (intros []; reflexivity).
  destruct e as [k ad]. simpl in *. repeat split; try assumption.
  rewrite <- Hr, <- Ha. clear.
  induction (JsMap.values (AgentData.dailyStats ad)) as [|d l IH]; simpl; lia.
Qed.

Lemma aggregate_daily_minutes tickets :
  Forall (fun e =>
            Forall (fun d : string * Daily.t =>
                      Daily.totalMin (snd d) = Daily.totalClosed (snd d) /\
                      Daily.totalMax (snd d) = 2 * Daily.totalClosed (snd d) /\
                      0 <= Daily.totalClosed (snd d))
                   (AgentData.dailyStats (snd e)))
         (aggregate tickets).
Proof.
  set (Q := fun v : Daily.t =>
              Daily.totalMin v = Daily.totalClosed v /\
              Daily.totalMax v = 2 * Daily.totalClosed v /\ 0 <= Daily.totalClosed v).
  change (Forall (fun e => Forall (fun d : string * Daily.t => Q (snd d))
                                  (AgentData.dailyStats (snd e))) (aggregate tickets)).
  assert (Hzero : Q (Daily.Make 0 0 0 0 0)) by (unfold Q; simpl; lia).
  apply aggregate_from.
  - intros k name _. simpl. constructor.
  - intros tk c ad _ _ _ H. unfold creditActivity. cbn [snd AgentData.dailyStats] in *.
    destruct (Forall_ensure Q (formatLocalDate localOffset (toSATime (Conversation.created_at c)))
                _ _ Hzero H) as [He Hd].
    apply Forall_set; [exact He|]. cbn [snd].
    destruct (Conversation.private c); exact Hd.
  - intros tk k ad H. exact H.
  - intros tk ad _ H _. unfold creditClosure. cbn [snd AgentData.dailyStats] in *.
    destruct (JsMap.get _ (AgentData.dailyStats ad)) as [d|] eqn:Hget.
    + apply Forall_set; [exact H|].
      pose proof (Forall_get _ _ _ _ H Hget) as Hd. unfold Q in *. simpl in *. lia.
    + apply Forall_set; [exact H|]. unfold Q. simpl. lia.
Qed.

(** X18. The estimate of a day counts the closures of the day and nothing
    else. *)
Theorem daily_estimate_counts_closures tickets s day :
  s ∈ calculateAllAgentActivity localOffset agentMap startDate endDate groupMap tickets ->
  day ∈ AgentActivitySummary.dailyBreakdown s ->
  DailyAgentStats.totalMin day = DailyAgentStats.totalClosed day /\
  DailyAgentStats.totalMax day = ceil15 (DailyAgentStats.totalClosed day).
Proof.
  intros Hs Hday. destruct (report_elem _ _ Hs) as (T & [k ad] & He & -> & _).
  pose proof (aggregate_daily_minutes tickets) as Hall.
  rewrite Forall_forall in Hall. specialize (Hall _ He). simpl in *.
  apply list_elem_of_In, in_map_iff in Hday as ([date d] & <- & Hd).
  apply list_elem_of_In, sort_elem in Hd.
  rewrite Forall_forall in Hall. destruct (Hall _ Hd) as (Hmin & Hmax & Hpos).
  cbn [snd] in *. unfold constrainDay.
  cbn [DailyAgentStats.totalMin DailyAgentStats.totalMax DailyAgentStats.totalClosed].
  rewrite constrain_fst, constrain_snd, Hmin, Hmax. split; [reflexivity|].
  unfold ceil15. destruct (3 * Daily.totalClosed d <? 2 * (2 * Daily.totalClosed d)) eqn:E.
  - apply Z.ltb_lt in E. apply Z.max_r. apply Z.div_le_lower_bound; lia.
  - apply Z.ltb_ge in E. assert (Daily.totalClosed d = 0) as -> by lia. reflexivity.
Qed.

Lemma aggregate_group_sums tickets :
  Forall (fun e =>
            total GroupCount.closed (JsMap.values (AgentData.groupStats (snd e)))
            = AgentData.totalClosed (snd e))
         (aggregate tickets).
Proof.
  apply aggregate_from.
  - intros k name _. reflexivity.
  - intros tk c ad _ _ _ H. exact H.
  - intros tk k ad H. unfold creditWorked, updGroup.
    cbn [snd AgentData.groupStats AgentData.totalClosed] in *.
    rewrite total_upsert by reflexivity. rewrite H. simpl. lia.
  - intros tk ad _ H _. unfold creditClosure, updGroup.
    cbn [snd AgentData.groupStats AgentData.totalClosed] in *.
    rewrite total_upsert by reflexivity. rewrite H. simpl. lia.
Qed.

(** X19. The closures of an agent are split among the groups without loss. *)
Theorem group_closures_add_up tickets s :
  s ∈ calculateAllAgentActivity localOffset agentMap startDate endDate groupMap tickets ->
  total AgentGroupStat.closed (AgentActivitySummary.groupStats s)
  = AgentActivitySummary.totalClosed s /\
  Forall (fun g => AgentGroupStat.total g = AgentGroupStat.worked g + AgentGroupStat.closed g)
         (AgentActivitySummary.groupStats s).
Proof.
  intros Hs. destruct (report_elem _ _ Hs) as (T & [k ad] & He & -> & _).
  pose proof (aggregate_group_sums tickets) as Hall.
  rewrite Forall_forall in Hall. specialize (Hall _ He). simpl in *. split.
  - rewrite (total_Permutation _ _ _ (sort_Permutation _ _)).
    rewrite total_map. rewrite <- Hall. unfold JsMap.values. rewrite total_map.
    apply total_ext. intros [gid g] _. reflexivity.
  - apply Forall_forall. intros g Hg. apply sort_elem in Hg.
    apply list_elem_of_In, in_map_iff in Hg as ([gid st] & <- & _). reflexivity.
Qed.

(** X20. The activity ratios of the report are shares of one whole, the sum of
    the ticket counts that the report shows. *)
Theorem activity_ratios_share_total tickets s :
  s ∈ calculateAllAgentActivity localOffset agentMap startDate endDate groupMap tickets ->
  AgentActivitySummary.activityRatio s
  = Of (AgentActivitySummary.ticketCount s)
       (total AgentActivitySummary.ticketCount
          (calculateAllAgentActivity localOffset agentMap startDate endDate groupMap tickets)).
Proof.
  intros Hs.
  set (T0 := fold_left (fun sum data => sum + sizeOf data)
                       (JsMap.values (aggregate tickets)) 0).
  assert (HT : total AgentActivitySummary.ticketCount
      (calculateAllAgentActivity localOffset agentMap startDate endDate groupMap tickets) = T0).
  { unfold calculateAllAgentActivity. fold T0.
    rewrite (total_Permutation _ _ _ (sort_Permutation _ _)).
    rewrite total_filter.
    - rewrite total_map. unfold T0, JsMap.values. rewrite fold_left_total, total_map.
      simpl. apply total_ext. intros [k ad] _. reflexivity.
    - intros x Hx Hk. apply list_elem_of_In, in_map_iff in Hx as ([k ad] & <- & _).
      unfold kept in Hk. apply orb_false_iff in Hk as [Hk _]. apply Z.ltb_ge in Hk.
      simpl in *. unfold sizeOf in *. lia. }
  rewrite HT.
  pose proof (kept_has_tickets tickets s Hs) as Hone.
  assert (Hpos : 0 < T0).
  { rewrite <- HT. clear HT T0.
    apply list_elem_of_In, in_split in Hs as (l1 & l2 & Hs). rewrite Hs.
    rewrite total_app. simpl.
    assert (Hnn : forall l, Forall (fun x => 0 <= AgentActivitySummary.ticketCount x) l ->
                            0 <= total AgentActivitySummary.ticketCount l).
    { induction 1; simpl; lia. }
    assert (Hall : Forall (fun x => 0 <= AgentActivitySummary.ticketCount x)
      (calculateAllAgentActivity localOffset agentMap startDate endDate groupMap tickets)).
    { apply Forall_forall. intros x Hx. pose proof (kept_has_tickets tickets x Hx). lia. }
    rewrite Hs in Hall. apply Forall_app in Hall as [H1 H2]. apply Forall_cons in H2 as [_ H2].
    pose proof (Hnn _ H1). pose proof (Hnn _ H2). lia. }
  unfold calculateAllAgentActivity in Hs. fold T0 in Hs.
  apply sort_elem, list_elem_of_In, filter_In in Hs as [Hs _].
  apply in_map_iff in Hs as ([k ad] & <- & _). simpl.
  apply Z.ltb_lt in Hpos. rewrite Hpos. reflexivity.
Qed.

End Report.

Section Worked.
Import LogicUtils.
Variable localOffset : Z -> Z.
Variable agentMap : list (Z * string).
Variables startDate endDate : Z.
Variable groupMap : list (Z * string).

Local Abbreviation qualifies := (qualifies agentMap startDate endDate).
Local Abbreviation activityStep := (activityStep localOffset agentMap startDate endDate).
Local Abbreviation activityPass := (activityPass localOffset agentMap startDate endDate).
Local Abbreviation closurePass := (closurePass localOffset agentMap startDate endDate).
Local Abbreviation aggregate := (aggregate localOffset agentMap startDate endDate).
Local Abbreviation workedOn := (workedOn agentMap startDate endDate).

Local Abbreviation workedSum ad :=
  (total GroupCount.worked (JsMap.values (AgentData.groupStats ad))).

(** The conversations of one ticket, as the record of agent [r] sees them. *)
Lemma activityFold_key r tk cs : forall m w ad,
  JsMap.get r m = Some ad ->
  let st := fold_left (activityStep tk) cs (m, w) in
  let any := existsb (fun c => (Conversation.user_id c =? r) && qualifies c) cs in
  exists ad',
    JsMap.get r (fst st) = Some ad' /\
    AgentData.ticketIds ad'
    = (if any then {[Ticket.id tk]} ∪ AgentData.ticketIds ad else AgentData.ticketIds ad) /\
    AgentData.groupStats ad' = AgentData.groupStats ad /\
    (r ∈ snd st <-> r ∈ w \/ any = true).
Proof.
  induction cs as [|c cs IH]; intros m w ad Hget; cbn zeta.
  - exists ad. simpl. repeat split; auto. intros [H|H]; [exact H|discriminate].
  - cbn [fold_left existsb].
    destruct (activityStep_get localOffset agentMap startDate endDate r tk c m w) as [G W].
    destruct (activityStep tk (m, w) c) as [m1 w1] eqn:E. cbn [fst snd] in G, W.
    rewrite Hget in G, W.
    destruct (decide (r = Conversation.user_id c)) as [Hr|Hr].
    + assert (Heq : (Conversation.user_id c =? r) = true) by (apply Z.eqb_eq; congruence).
      rewrite Heq. cbn [andb].
      destruct (qualifies c) eqn:Hq.
      * simpl in G.
        destruct (IH m1 w1 _ G) as (ad' & G' & Hids & Hgs & W').
        exists ad'. split; [exact G'|]. cbn zeta in *. cbn [orb].
        split; [|split].
        -- rewrite Hids. unfold creditActivity. cbn [AgentData.ticketIds].
           destruct (existsb _ cs); [|reflexivity].
           apply set_eq. intros x. rewrite !elem_of_union, !elem_of_singleton. tauto.
        -- rewrite Hgs. reflexivity.
        -- rewrite W', W. split; [auto|]. intros _. left. right. eauto.
      * destruct (IH m1 w1 _ G) as (ad' & G' & Hids & Hgs & W').
        exists ad'. split; [exact G'|]. cbn zeta in *. cbn [orb].
        split; [exact Hids|]. split; [exact Hgs|].
        rewrite W', W. split.
        -- intros [[H|(_ & H & _)]|H]; auto; discriminate.
        -- intros [H|H]; auto.
    + assert (Hne : (Conversation.user_id c =? r) = false) by (apply Z.eqb_neq; congruence).
      rewrite Hne. cbn [andb orb].
      destruct (IH m1 w1 _ G) as (ad' & G' & Hids & Hgs & W').
      exists ad'. split; [exact G'|]. cbn zeta in *.
      split; [exact Hids|]. split; [exact Hgs|].
      rewrite W', W. split.
      * intros [[H|(H & _)]|H]; auto; contradiction.
      * intros [H|H]; auto.
Qed.

Lemma activityPass_key r tk m ad :
  JsMap.get r m = Some ad ->
  exists ad',
    JsMap.get r (activityPass m tk) = Some ad' /\
    AgentData.ticketIds ad'
    = (if workedOn r tk then {[Ticket.id tk]} ∪ AgentData.ticketIds ad
       else AgentData.ticketIds ad) /\
    workedSum ad' = workedSum ad + (if workedOn r tk then 1 else 0).
Proof.
  intros Hget. rewrite activityPass_get. cbv zeta.
  destruct (activityFold_key r tk (Ticket.conversations tk) m [] ad Hget)
    as (ad' & G & Hids & Hgs & W).
  cbn zeta in *. fold (workedOn r tk) in Hids, W.
  rewrite G. case_decide as Hin.
  - apply W in Hin as [Hin|Hin]; [apply elem_of_nil in Hin; destruct Hin|].
    rewrite Hin in *. eexists. split; [reflexivity|]. split; [exact Hids|].
    unfold creditWorked, updGroup. cbn [AgentData.groupStats].
    rewrite total_upsert by reflexivity. rewrite Hgs. simpl. lia.
  - destruct (workedOn r tk) eqn:Hw; [exfalso; apply Hin, W; auto|].
    exists ad'. split; [reflexivity|]. split; [exact Hids|]. rewrite Hgs. lia.
Qed.

Lemma pass1_key r tickets : forall m ad,
  JsMap.get r m = Some ad ->
  exists ad',
    JsMap.get r (fold_left activityPass tickets m) = Some ad' /\
    AgentData.ticketIds ad'
    = list_to_set (map Ticket.id (List.filter (workedOn r) tickets)) ∪ AgentData.ticketIds ad /\
    workedSum ad' = workedSum ad + Z.of_nat (length (List.filter (workedOn r) tickets)).
Proof.
  induction tickets as [|tk tickets IH]; intros m ad Hget; simpl.
  - exists ad. split; [exact Hget|]. split; [|lia].
    apply set_eq. intros x. rewrite elem_of_union, elem_of_empty. tauto.
  - destruct (activityPass_key r tk m ad Hget) as (ad1 & G1 & Hids1 & Hw1).
    destruct (IH _ _ G1) as (ad' & G & Hids & Hw).
    exists ad'. split; [exact G|]. rewrite Hids, Hw, Hids1, Hw1.
    destruct (workedOn r tk); simpl.
    + split; [|lia]. apply set_eq. intros x.
      rewrite !elem_of_union, elem_of_singleton. tauto.
    + split; [reflexivity|lia].
Qed.

Lemma closurePass_key r tk m ad :
  JsMap.get r m = Some ad ->
  exists ad',
    JsMap.get r (closurePass m tk) = Some ad' /\
    AgentData.ticketIds ad' = AgentData.ticketIds ad /\
    workedSum ad' = workedSum ad.
Proof.
  intros Hget. unfold LogicUtils.closurePass.
  repeat case_match; try solve [exists ad; auto].
  rewrite get_set.
  destruct (decide (r = Ticket.responder_id tk)) as [Hr|Hr]; [|exists ad; auto].
  subst r. eexists. split; [reflexivity|].
  match goal with H : JsMap.get _ m = Some ?a |- context [creditClosure _ _ ?a] =>
    assert (a = ad) as -> by congruence end.
  unfold creditClosure, updGroup. cbn [AgentData.ticketIds AgentData.groupStats].
  split; [reflexivity|]. rewrite total_upsert by reflexivity. simpl. lia.
Qed.

Lemma pass2_key r tickets : forall m ad,
  JsMap.get r m = Some ad ->
  exists ad',
    JsMap.get r (fold_left closurePass tickets m) = Some ad' /\
    AgentData.ticketIds ad' = AgentData.ticketIds ad /\
    workedSum ad' = workedSum ad.
Proof.
  induction tickets as [|tk tickets IH]; intros m ad Hget; simpl.
  - exists ad. auto.
  - destruct (closurePass_key r tk m ad Hget) as (ad1 & G1 & Hids1 & Hw1).
    destruct (IH _ _ G1) as (ad' & G & Hids & Hw).
    exists ad'. split; [exact G|]. split; congruence.
Qed.

Lemma elem_has {V} (k : Z) (v : V) (m : list (Z * V)) : (k, v) ∈ m -> JsMap.has k m = true.
Proof.
  unfold JsMap.has. induction m as [|[k0 v0] m IH]; simpl; intros Hin.
  - apply elem_of_nil in Hin. destruct Hin.
  - destruct (decide (k = k0)); [reflexivity|].
    apply elem_of_cons in Hin as [Hin|Hin]; [congruence|auto].
Qed.

Lemma aggregate_key tickets k ad :
  (k, ad) ∈ aggregate tickets ->
  AgentData.ticketIds ad = list_to_set (map Ticket.id (List.filter (workedOn k) tickets)) /\
  workedSum ad = Z.of_nat (length (List.filter (workedOn k) tickets)).
Proof.
  intros He.
  assert (Hget : JsMap.get k (aggregate tickets) = Some ad).
  { apply elem_get; [apply aggregate_keys_NoDup|exact He]. }
  assert (Hkey : JsMap.has k (initialActivity agentMap) = true).
  { assert (Hk : k ∈ JsMap.keys (aggregate tickets)).
    { apply list_elem_of_In, in_map_iff. exists (k, ad).
      split; [reflexivity|apply list_elem_of_In; exact He]. }
    unfold LogicUtils.aggregate in Hk.
    assert (H2 : forall l m, JsMap.keys (fold_left closurePass l m) = JsMap.keys m).
    { induction l as [|tk l IH]; intros m; simpl; [reflexivity|].
      rewrite IH. apply closurePass_keys. }
    assert (H1 : forall l m, JsMap.keys (fold_left activityPass l m) = JsMap.keys m).
    { induction l as [|tk l IH]; intros m; simpl; [reflexivity|].
      rewrite IH. apply activityPass_keys. }
    rewrite H2, H1 in Hk.
    apply list_elem_of_In, in_map_iff in Hk as ([k' v] & Hk & Hin). simpl in Hk. subst k'.
    eapply elem_has. apply list_elem_of_In. exact Hin. }
  unfold JsMap.has in Hkey.
  destruct (JsMap.get k (initialActivity agentMap)) as [ad0|] eqn:H0; [|discriminate].
  assert (Hnew : AgentData.ticketIds ad0 = ∅ /\ AgentData.groupStats ad0 = []).
  { pose proof (initialActivity_Forall agentMap
                  (fun e => AgentData.ticketIds (snd e) = ∅ /\ AgentData.groupStats (snd e) = [])
                  ltac:(intros; split; reflexivity)) as Hall.
    exact (Forall_get _ _ _ _ Hall H0). }
  destruct Hnew as [Hids0 Hgs0].
  destruct (pass1_key k tickets _ _ H0) as (ad1 & G1 & Hids1 & Hw1).
  destruct (pass2_key k tickets _ _ G1) as (ad2 & G2 & Hids2 & Hw2).
  unfold LogicUtils.aggregate in Hget. rewrite G2 in Hget. injection Hget as <-.
  rewrite Hids2, Hw2, Hids1, Hw1, Hids0, Hgs0. simpl. split; [|lia].
  apply set_eq. intros x. rewrite elem_of_union, elem_of_empty. tauto.
Qed.

(** X21. What an agent has worked on.  The worked counts of the groups add up
    to the number of ticket records on which the agent has a conversation
    that qualifies; the ticket count is the number of distinct ids among
    them. *)
Theorem worked_counts tickets s :
  s ∈ calculateAllAgentActivity localOffset agentMap startDate endDate groupMap tickets ->
  let worked := List.filter (workedOn (AgentActivitySummary.agentId s)) tickets in
  total AgentGroupStat.worked (AgentActivitySummary.groupStats s) = Z.of_nat (length worked) /\
  AgentActivitySummary.ticketCount s
  = Z.of_nat (size (list_to_set (map Ticket.id worked) : gset Z)) /\
  (NoDup (map Ticket.id tickets) ->
   AgentActivitySummary.ticketCount s = Z.of_nat (length worked)).
Proof.
  intros Hs. destruct (report_elem _ _ _ _ _ _ _ Hs) as (T & [k ad] & He & -> & _).
  destruct (aggregate_key tickets k ad He) as [Hids Hw].
  cbn zeta. simpl. unfold sizeOf. rewrite Hids.
  split; [|split].
  - rewrite (total_Permutation _ _ _ (sort_Permutation _ _)).
    rewrite total_map. rewrite <- Hw. unfold JsMap.values. rewrite total_map.
    apply total_ext. intros [gid g] _. reflexivity.
  - reflexivity.
  - intros Hnd. rewrite size_list_to_set; [rewrite length_map; reflexivity|].
    apply NoDup_map_filter, Hnd.
Qed.

End Worked.

Section DateOrder.
Import LogicUtils.

Lemma ascii_compare_trans (a b c : ascii) :
  Ascii.compare a b = Lt -> Ascii.compare b c = Lt -> Ascii.compare a c = Lt.
Proof.
  unfold Ascii.compare. rewrite !N.compare_lt_iff. apply N.lt_trans.
Qed.

Lemma string_compare_refl (s : string) : String.compare s s = Eq.
Proof.
  induction s as [|c s IH]; simpl; [reflexivity|].
  assert (Ascii.compare c c = Eq) as -> by (unfold Ascii.compare; apply N.compare_refl).
  exact IH.
Qed.

Lemma string_compare_lt_trans (s1 : string) : forall s2 s3,
  String.compare s1 s2 = Lt -> String.compare s2 s3 = Lt -> String.compare s1 s3 = Lt.
Proof.
  induction s1 as [|c1 s1 IH]; intros [|c2 s2] [|c3 s3]; simpl; try congruence.
  destruct (Ascii.compare c1 c2) eqn:E12; try discriminate;
    destruct (Ascii.compare c2 c3) eqn:E23; try discriminate; intros H12 H23.
  - apply Ascii.compare_eq_iff in E12, E23. subst c2 c3.
    assert (Ascii.compare c1 c1 = Eq) as -> by (unfold Ascii.compare; apply N.compare_refl).
    eauto.
  - apply Ascii.compare_eq_iff in E12. subst c2. rewrite E23. reflexivity.
  - apply Ascii.compare_eq_iff in E23. subst c3. rewrite E12. reflexivity.
  - rewrite (ascii_compare_trans _ _ _ E12 E23). reflexivity.
Qed.

(** Code-unit order is transitive. *)
Lemma strLe_trans (s1 s2 s3 : string) :
  Js.strLe s1 s2 = true -> Js.strLe s2 s3 = true -> Js.strLe s1 s3 = true.
Proof.
  unfold Js.strLe, String.leb.
  destruct (String.compare s1 s2) eqn:E12; try discriminate;
    destruct (String.compare s2 s3) eqn:E23; try discriminate; intros _ _.
  - apply String.compare_eq_iff in E12, E23. subst. rewrite string_compare_refl. reflexivity.
  - apply String.compare_eq_iff in E12. subst. rewrite E23. reflexivity.
  - apply String.compare_eq_iff in E23. subst. rewrite E12. reflexivity.
  - rewrite (string_compare_lt_trans _ _ _ E12 E23). reflexivity.
Qed.

Lemma insertSorted_by_date (x : string * Daily.t) (l : list (string * Daily.t)) :
  StronglySorted (fun a b => Js.strLe (fst a) (fst b) = true) l ->
  StronglySorted (fun a b => Js.strLe (fst a) (fst b) = true)
    (Js.insertSorted (fun a b => Js.strLe (fst a) (fst b)) x l).
Proof.
  induction 1 as [|y l Hl IH Hy]; simpl.
  - constructor; constructor.
  - destruct (Js.strLe (fst x) (fst y)) eqn:E.
    + constructor; [constructor; assumption|].
      constructor; [exact E|].
      eapply Forall_impl; [exact Hy|]. simpl. intros z Hz. eapply strLe_trans; eauto.
    + constructor; [exact IH|].
      apply Forall_forall. intros z Hz.
      apply insertSorted_elem in Hz as [->|Hz].
      * destruct (String.leb_total (fst x) (fst y)) as [H|H]; [|exact H].
        unfold Js.strLe in E. congruence.
      * rewrite Forall_forall in Hy. auto.
Qed.

Lemma sort_by_date (l : list (string * Daily.t)) :
  StronglySorted (fun a b => Js.strLe (fst a) (fst b) = true)
    (Js.sort (fun a b => Js.strLe (fst a) (fst b)) l).
Proof.
  unfold Js.sort. induction l as [|x l IH]; simpl; [constructor|].
  apply insertSorted_by_date, IH.
Qed.

Lemma StronglySorted_weaken {A} (R R' : A -> A -> Prop) (l : list A) :
  (forall a b, R a b -> R' a b) -> StronglySorted R l -> StronglySorted R' l.
Proof.
  intros HR. induction 1 as [|x l Hl IH Hx]; constructor; [exact IH|].
  eapply Forall_impl; [exact Hx|]. auto.
Qed.

Lemma StronglySorted_map {A B} (R : B -> B -> Prop) (f : A -> B) (l : list A) :
  StronglySorted (fun a b => R (f a) (f b)) l -> StronglySorted R (map f l).
Proof.
  induction 1 as [|x l Hl IH Hx]; simpl; constructor; [exact IH|].
  apply Forall_forall. intros y Hy. apply list_elem_of_In, in_map_iff in Hy as (z & <- & Hz).
  rewrite Forall_forall in Hx. apply Hx, list_elem_of_In, Hz.
Qed.

Variable localOffset : Z -> Z.
Variable agentMap : list (Z * string).
Variables startDate endDate : Z.
Variable groupMap : list (Z * string).

Lemma aggregate_days_NoDup tickets :
  Forall (fun e => NoDup (JsMap.keys (AgentData.dailyStats (snd e))))
         (aggregate localOffset agentMap startDate endDate tickets).
Proof.
  apply aggregate_from.
  - intros k name _. constructor.
  - intros tk c ad _ _ _ H. unfold creditActivity. cbn [snd AgentData.dailyStats] in *.
    apply keys_set_NoDup. unfold ensure. destruct (JsMap.has _ _); [exact H|].
    apply keys_set_NoDup, H.
  - intros tk k ad H. exact H.
  - intros tk ad _ H _. unfold creditClosure. cbn [snd AgentData.dailyStats] in *.
    destruct (JsMap.get _ (AgentData.dailyStats ad)); apply keys_set_NoDup, H.
Qed.

(** X30. The days of an agent are listed in ascending order of their date,
    each date once. *)
Theorem daily_breakdown_in_date_order tickets s :
  s ∈ calculateAllAgentActivity localOffset agentMap startDate endDate groupMap tickets ->
  StronglySorted
    (fun a b => Js.strLe (DailyAgentStats.date a) (DailyAgentStats.date b) = true)
    (AgentActivitySummary.dailyBreakdown s) /\
  NoDup (map DailyAgentStats.date (AgentActivitySummary.dailyBreakdown s)).
Proof.
  intros Hs.
  destruct (report_elem _ _ _ _ _ _ _ Hs) as (T & [k ad] & He & -> & _).
  pose proof (aggregate_days_NoDup tickets) as Hall.
  rewrite Forall_forall in Hall. specialize (Hall _ He). cbn [snd] in Hall.
  unfold summarize. cbn [AgentActivitySummary.dailyBreakdown]. split.
  - apply StronglySorted_map.
    eapply StronglySorted_weaken; [|apply sort_by_date]. intros [d1 v1] [d2 v2] H. exact H.
  - rewrite map_map.
    rewrite (map_ext (fun x => DailyAgentStats.date (constrainDay x)) fst)
      by (intros [d v]; reflexivity).
    rewrite (Permutation_map fst (sort_Permutation _ _)). exact Hall.
Qed.

End DateOrder.

(** * Group names and categories *)

Section TrimFacts.

Lemma trimEnd_keeps_head c r :
  Js.isSpace c = false -> exists r', Js.trimEnd (String c r) = String c r'.
Proof.
  intros Hc. simpl. destruct (Js.trimEnd r); [rewrite Hc|]; eauto.
Qed.

Lemma trimStart_head s :
  Js.trimStart s = EmptyString \/
  exists c r, Js.trimStart s = String c r /\ Js.isSpace c = false.
Proof.
  induction s as [|c s IH]; simpl; [auto|].
  destruct (Js.isSpace c) eqn:E; [exact IH|]. right. eauto.
Qed.

Lemma trimEnd_idempotent s : Js.trimEnd (Js.trimEnd s) = Js.trimEnd s.
Proof.
  induction s as [|c s IH]; simpl; [reflexivity|].
  destruct (Js.trimEnd s) as [|c' r'] eqn:E.
  - destruct (Js.isSpace c) eqn:Hc; simpl; [reflexivity|]. rewrite Hc. reflexivity.
  - change (Js.trimEnd (String c (String c' r'))) with
      (match Js.trimEnd (String c' r') with
       | EmptyString => if Js.isSpace c then EmptyString else String c EmptyString
       | r'' => String c r''
       end).
    rewrite IH. reflexivity.
Qed.

Lemma trim_idempotent s : Js.trim (Js.trim s) = Js.trim s.
Proof.
  unfold Js.trim.
  assert (H : Js.trimStart (Js.trimEnd (Js.trimStart s)) = Js.trimEnd (Js.trimStart s)).
  { destruct (trimStart_head s) as [->|(c & r & -> & Hc)]; [reflexivity|].
    destruct (trimEnd_keeps_head c r Hc) as [r' ->]. simpl. rewrite Hc. reflexivity. }
  rewrite H. apply trimEnd_idempotent.
Qed.

Lemma mapChars_app f s1 s2 :
  Js.mapChars f (s1 ++ s2) = (Js.mapChars f s1 ++ Js.mapChars f s2)%string.
Proof. induction s1 as [|c s1 IH]; simpl; [reflexivity|]. rewrite IH. reflexivity. Qed.

End TrimFacts.

Section HelperFacts.
Import LogicUtils.

Lemma cleanGroupName_clean (name : string) :
  cleanGroupName name <> ""%string /\
  cleanGroupName name <> "Unknown"%string /\
  Js.trim (cleanGroupName name) = cleanGroupName name.
Proof.
  unfold cleanGroupName. cbv zeta.
  set (cleaned := Js.trim _).
  destruct (bool_decide (cleaned = "Unknown"%string)) eqn:E1;
    [repeat split; discriminate || reflexivity|].
  destruct (bool_decide (cleaned = ""%string)) eqn:E2;
    [repeat split; discriminate || reflexivity|].
  apply bool_decide_eq_false in E1, E2. cbn [orb].
  repeat split; [exact E2|exact E1|]. apply trim_idempotent.
Qed.

(** X22. A cleaned group name is never blank and never "Unknown", and carries
    no white space at its ends. *)
Theorem clean_group_name_is_presentable (name : string) :
  cleanGroupName name <> ""%string /\
  cleanGroupName name <> "Unknown"%string /\
  Js.trim (cleanGroupName name) = cleanGroupName name.
Proof. apply cleanGroupName_clean. Qed.

(** X23. The cleaned map gives every group its cleaned name, the name of the
    last group when two share an id, and holds clean names only. *)
Theorem clean_group_map_lookup (groups : list Group.t) :
  (forall g, g ∈ groups -> is_Some (JsMap.get (Group.id g) (cleanGroupMap groups))) /\
  (forall i n, JsMap.get i (cleanGroupMap groups) = Some n ->
     n <> ""%string /\ n <> "Unknown"%string /\
     exists l1 g l2, groups = l1 ++ g :: l2 /\ Group.id g = i /\
                     (i ∉ map Group.id l2) /\ n = cleanGroupName (Group.name g)).
Proof.
  assert (Hmap : cleanGroupMap groups
                 = JsMap.ofList
                     (map (fun g => (Group.id g, cleanGroupName (Group.name g))) groups)).
  { unfold cleanGroupMap, JsMap.ofList. generalize (@nil (Z * string)).
    induction groups as [|g gs IH]; intros m; simpl; [reflexivity|]. apply IH. }
  assert (Hget : forall i (l : list Group.t) n,
            JsMap.get i (map (fun g => (Group.id g, cleanGroupName (Group.name g))) l) = Some n ->
            exists l1 g l2, l = l1 ++ g :: l2 /\ Group.id g = i /\
                            (i ∉ map Group.id l1) /\ n = cleanGroupName (Group.name g)).
  { intros i l n. induction l as [|g l IH]; simpl; [discriminate|].
    destruct (decide (i = Group.id g)) as [->|Hne].
    - intros [= <-]. exists [], g, l. repeat split. apply not_elem_of_nil.
    - intros H. destruct (IH H) as (l1 & g' & l2 & -> & Hid & Hnot & Hn).
      exists (g :: l1), g', l2. repeat split; try assumption.
      simpl. intros Hin. apply elem_of_cons in Hin as [Hin|Hin]; [congruence|auto]. }
  rewrite Hmap. split.
  - intros g Hg. rewrite ofList_get, <- map_rev.
    apply list_elem_of_In, in_rev in Hg.
    induction (rev groups) as [|x l IH]; simpl; [destruct Hg|].
    destruct (decide (Group.id g = Group.id x)); [eauto|].
    destruct Hg as [->|Hg]; [congruence|auto].
  - intros i n. rewrite ofList_get, <- map_rev. intros H.
    destruct (Hget _ _ _ H) as (l1 & g & l2 & Hrev & Hid & Hnot & ->).
    destruct (cleanGroupName_clean (Group.name g)) as (H1 & H2 & _).
    split; [exact H1|]. split; [exact H2|].
    exists (rev l2), g, (rev l1). repeat split; try assumption.
    + rewrite <- (rev_involutive groups), Hrev, rev_app_distr. simpl.
      rewrite <- app_assoc. reflexivity.
    + intros Hin. apply Hnot. rewrite map_rev in Hin.
      apply list_elem_of_In, in_rev in Hin. apply list_elem_of_In. exact Hin.
Qed.

(** X24. Every ticket falls into one of the ten categories, each of which has
    a colour. *)
Theorem category_has_color (ticket : Ticket.t) :
  autoCategorizeTicket ticket ∈ CATEGORIES /\
  is_Some (JsMap.get (autoCategorizeTicket ticket) CATEGORY_COLORS).
Proof.
  unfold autoCategorizeTicket. cbv zeta.
  repeat match goal with |- context [if ?b then _ else _] => destruct b end;
    (split; [apply list_elem_of_In; simpl; tauto|eexists; vm_compute; reflexivity]).
Qed.

(** X25. The category of a ticket does not depend on the case of the letters
    of its subject and description. *)
Theorem category_ignores_case (t t' : Ticket.t) :
  Js.toLowerCase (Ticket.subject t) = Js.toLowerCase (Ticket.subject t') ->
  Js.toLowerCase (Ticket.description_text t) = Js.toLowerCase (Ticket.description_text t') ->
  autoCategorizeTicket t = autoCategorizeTicket t'.
Proof.
  intros Hs Hd.
  assert (H : categoryText t = categoryText t').
  { unfold categoryText, Js.toLowerCase in *. rewrite !mapChars_app, Hs, Hd. reflexivity. }
  unfold autoCategorizeTicket. rewrite H. reflexivity.
Qed.

End HelperFacts.

(** * The cache and the log *)

Section NumberFacts.

(** [String(n)] tells the integers apart. *)
Lemma ofZ_inj (a b : Z) : Js.ofZ a = Js.ofZ b -> a = b.
Proof.
  unfold Js.ofZ. intros H.
  assert (Hnil : forall z, Z.to_int z <> Decimal.Pos Decimal.Nil /\
                           Z.to_int z <> Decimal.Neg Decimal.Nil).
  { intros [|p|p]; simpl; split; try discriminate;
      intros [= Hp]; exact (DecimalPos.Unsigned.to_uint_nonnil p Hp). }
  apply DecimalZ.to_int_inj.
  assert (Some (Z.to_int a) = Some (Z.to_int b)) as [= ->]; [|reflexivity].
  destruct (Hnil a) as [Ha1 Ha2]. destruct (Hnil b) as [Hb1 Hb2].
  rewrite <- (NilZero.isi (Z.to_int a) Ha1 Ha2), <- (NilZero.isi (Z.to_int b) Hb1 Hb2), H.
  reflexivity.
Qed.

End NumberFacts.

Section CacheFacts.
Import CacheService.
Context {D : Type}.
Variable refuses : gmap string (Item D) -> string -> Item D -> option string.

Local Abbreviation getCachedConversations := (@getCachedConversations D).
Local Abbreviation cacheConversations := (cacheConversations refuses).

Lemma convKey_inj (a b : Z) : convKey a = convKey b -> a = b.
Proof. unfold convKey, CONV_PREFIX. simpl. intros [= H]. apply ofZ_inj, H. Qed.

(** X26. What was cached is served as long as the ticket has not been updated
    since; once it has, the entry is dropped and stays dropped. *)
Theorem cache_round_trip (ticketId ticketUpdatedAt readAt now now' later : Z) (data : D)
    (store : gmap string (Item D)) :
  refuses store (convKey ticketId) (Parsed now data) = None ->
  let store' := cacheConversations ticketId ticketUpdatedAt data now now' store in
  (readAt <= now -> getCachedConversations ticketId readAt store' = (Some data, store')) /\
  (now < readAt ->
   fst (getCachedConversations ticketId readAt store') = None /\
   fst (getCachedConversations ticketId later
          (snd (getCachedConversations ticketId readAt store'))) = None).
Proof.
  intros Hok. cbv zeta.
  unfold CacheService.cacheConversations, cache, setItem. rewrite Hok.
  unfold CacheService.getCachedConversations, getCached. rewrite lookup_insert_eq.
  split; intros Hcmp.
  - assert ((now <? readAt) = false) as -> by (apply Z.ltb_ge; lia). reflexivity.
  - assert ((now <? readAt) = true) as -> by (apply Z.ltb_lt; lia). cbn [fst snd].
    split; [reflexivity|]. rewrite lookup_delete_eq. reflexivity.
Qed.

(** X27. Caching the conversations of one ticket leaves what is cached for
    the other tickets as it was. *)
Theorem cache_keeps_other_tickets (ticketId other ticketUpdatedAt readAt now now' : Z)
    (data : D) (store : gmap string (Item D)) :
  other <> ticketId ->
  refuses store (convKey ticketId) (Parsed now data) = None ->
  fst (getCachedConversations other readAt
         (cacheConversations ticketId ticketUpdatedAt data now now' store))
  = fst (getCachedConversations other readAt store).
Proof.
  intros Hne Hok.
  unfold CacheService.cacheConversations, cache, setItem. rewrite Hok.
  unfold CacheService.getCachedConversations, getCached.
  rewrite lookup_insert_ne by (intros H; apply Hne; symmetry; apply convKey_inj, H).
  destruct (store !! convKey other) as [[timestamp d|]|]; try reflexivity.
  destruct (timestamp <? readAt); reflexivity.
Qed.

(** X28. When the storage is full, caching one entry empties the cache of
    everything else. *)
Theorem cache_quota_clears (ticketId ticketUpdatedAt now now' : Z) (data : D)
    (store : gmap string (Item D)) (name key : string) :
  refuses store (convKey ticketId) (Parsed now data) = Some name ->
  isQuotaError name = true ->
  key <> convKey ticketId ->
  cacheConversations ticketId ticketUpdatedAt data now now' store !! key = None.
Proof.
  intros Hfull Hq Hne.
  unfold CacheService.cacheConversations, cache, setItem. rewrite Hfull, Hq.
  destruct (refuses ∅ (convKey ticketId) (Parsed now' data)).
  - apply lookup_empty.
  - rewrite lookup_insert_ne by congruence. apply lookup_empty.
Qed.

End CacheFacts.

Section LogFacts.
Import DebugService.

Lemma take_cons_take {A} (n : nat) (x : A) (l : list A) :
  take (S n) (x :: take (S n) l) = take (S n) (x :: l).
Proof.
  simpl. f_equal. rewrite take_take. f_equal. lia.
Qed.

(** X29. The log holds the newest 1000 entries, the newest first. *)
Theorem log_keeps_newest (entries : list DebugLog) :
  getLogs (fold_left (fun d log => addLog log d) entries new) = take maxLogs (rev entries) /\
  (length (getLogs (fold_left (fun d log => addLog log d) entries new)) <= 1000)%nat.
Proof.
  assert (G : forall l d older,
            isInternal d = false -> logs d = take maxLogs older ->
            logs (fold_left (fun d log => addLog log d) l d) = take maxLogs (rev l ++ older)).
  { induction l as [|x l IH]; intros d older Hint Hlogs; simpl; [exact Hlogs|].
    rewrite (IH _ (x :: older)).
    - rewrite <- app_assoc. reflexivity.
    - unfold addLog. rewrite Hint. reflexivity.
    - unfold addLog. rewrite Hint. cbn [logs]. rewrite Hlogs.
      unfold maxLogs. apply take_cons_take. }
  unfold getLogs. rewrite (G entries new []); [|reflexivity|reflexivity].
  rewrite app_nil_r. split; [reflexivity|].
  rewrite length_take. unfold maxLogs. lia.
Qed.

End LogFacts.

(** * The further theorems at the sample inputs *)

Section LimiterSamples.
Import RateLimiter.

(** Four tasks for a limiter that runs one at a time: the second starts when
    the first settles, the others wait in order. *)
Lemma tasks_start_in_order_witness :
  exists s,
    run (configured 1 1000 10 0)
      [Schedule 1%nat 0 0; Schedule 2%nat 1 1; Schedule 3%nat 2 2; Settle 1%nat 10 10;
       Schedule 4%nat 11 11] = Some s /\
    map snd (starts s) ++ queue (limiter s) = [1; 2; 3; 4]%nat.
Proof.
  eexists. split; [vm_compute; reflexivity|].
  apply (tasks_start_in_order 1 1000 10 0
           [Schedule 1%nat 0 0; Schedule 2%nat 1 1; Schedule 3%nat 2 2; Settle 1%nat 10 10;
            Schedule 4%nat 11 11]).
  vm_compute. reflexivity.
Defined.

(** One start per second: the second task waits for the window with no task
    in flight, and a timer is pending for it. *)
Lemma queue_is_woken_witness :
  exists s n,
    run (configured 5 1000 1 0)
      [Schedule 1%nat 0 0; Settle 1%nat 10 10; Schedule 2%nat 20 20] = Some s /\
    pendingTimers (configured 5 1000 1 0) 0
      [Schedule 1%nat 0 0; Settle 1%nat 10 10; Schedule 2%nat 20 20] = Some n /\
    queue (limiter s) = [2%nat] /\ inFlight s = [] /\
    (inFlight s <> [] \/ (0 < n)%nat).
Proof.
  eexists. eexists.
  split; [vm_compute; reflexivity|]. split; [vm_compute; reflexivity|].
  split; [reflexivity|]. split; [reflexivity|].
  apply (queue_is_woken 5 1000 1 0
           [Schedule 1%nat 0 0; Settle 1%nat 10 10; Schedule 2%nat 20 20]);
    [lia|vm_compute; reflexivity|vm_compute; reflexivity|vm_compute; reflexivity|discriminate].
Defined.

End LimiterSamples.

Section FetchSamples.
Import Http ApiUtils FreshdeskService Samples.

(** The second attempt is answered, and its response is returned. *)
Lemma returned_response_is_final_witness :
  (exists a, (a <= 2)%nat /\ busyOnce "/api/v2/agents" a = Responds threeAgents) /\
  code threeAgents <> 429 /\ code threeAgents <> 503 /\ ~ isRoutingFault threeAgents.
Proof.
  apply (returned_response_is_final busyOnce "/api/v2/agents" 2 threeAgents).
  vm_compute. reflexivity.
Defined.

(** Two retries against a server that stays busy: three calls, a backoff of
    7 seconds after each, and the busy error at the end. *)
Lemma busy_server_exhausts_retries_witness :
  fetchWithRetry busyServer "/api/v2/agents" 2
  = ([Fetched "/api/v2/agents" 0; GlobalBackoff (Some 7);
      Slept 1; Fetched "/api/v2/agents" 1; GlobalBackoff (Some 7);
      Slept 2; Fetched "/api/v2/agents" 2; GlobalBackoff (Some 7)],
     Throw (busyError (Some 7))).
Proof.
  apply (busy_server_exhausts_retries busyServer "/api/v2/agents" (fun _ => unavailable) 2).
  intros a _. split; [reflexivity|right; reflexivity].
Defined.

(** Two full pages and a page of three. *)
Lemma list_pages_are_concatenated_witness :
  fetchPaginatedFreshdeskAPI noMessage
    (listServer [hundred 0; hundred 100; [200; 201; 202]]) listEndpoint 300
  = Ok (concat ([hundred 0; hundred 100] ++ [[200; 201; 202]])).
Proof.
  apply (list_pages_are_concatenated noMessage
           (listServer [hundred 0; hundred 100; [200; 201; 202]]) listEndpoint).
  - reflexivity.
  - repeat constructor.
  - simpl. lia.
  - repeat split; eexists; (split; [vm_compute; reflexivity|split; reflexivity]).
  - left. simpl. lia.
Defined.

(** Three full pages on the server, two pages allowed. *)
Lemma list_stops_at_max_pages_witness :
  fetchPaginatedFreshdeskAPI noMessage
    (listServer [hundred 0; hundred 100; hundred 200]) listEndpoint
    (Z.of_nat (length [hundred 0; hundred 100]))
  = Ok (concat [hundred 0; hundred 100]).
Proof.
  apply (list_stops_at_max_pages noMessage
           (listServer [hundred 0; hundred 100; hundred 200]) listEndpoint).
  - reflexivity.
  - discriminate.
  - repeat constructor.
  - repeat split; eexists; (split; [vm_compute; reflexivity|split; reflexivity]).
Defined.

(** The second page is answered with 500: the first page is the result.
    It is answered with 503 at both attempts: the call throws. *)
Lemma later_list_page_failure_witness :
  fetchPaginatedFreshdeskAPI noMessage (listServer [hundred 0]) listEndpoint 300
  = Ok (concat [hundred 0]) /\
  fetchPaginatedFreshdeskAPI noMessage (busyBeyond [hundred 0]) listEndpoint 300
  = Throw (busyError (Some 7)).
Proof.
  destruct (later_list_page_failure noMessage (listServer [hundred 0]) listEndpoint
              eq_refl 300 [hundred 0]) as (Hended & _).
  - discriminate.
  - repeat constructor.
  - repeat split; eexists; (split; [vm_compute; reflexivity|split; reflexivity]).
  - simpl. lia.
  - destruct (later_list_page_failure noMessage (busyBeyond [hundred 0]) listEndpoint
                eq_refl 300 [hundred 0]) as (_ & _ & _ & Hbusy).
    + discriminate.
    + repeat constructor.
    + repeat split; eexists; (split; [vm_compute; reflexivity|split; reflexivity]).
    + simpl. lia.
    + split.
      * apply (Hended (MakeResponse 500 None None "" JOther)).
        -- vm_compute. reflexivity.
        -- reflexivity.
        -- discriminate.
        -- discriminate.
        -- intros [H _]. discriminate.
      * apply (Hbusy unavailable unavailable).
        -- vm_compute. reflexivity.
        -- vm_compute. reflexivity.
        -- right. reflexivity.
        -- right. reflexivity.
Defined.

(** The thread of ticket #100 comes in one page of two conversations. *)
Lemma conversations_are_complete_witness :
  getConversations noMessage threadServer 100 = concat ([] ++ [[replyA; spamNoteA]]).
Proof.
  apply (conversations_are_complete noMessage threadServer 100 [] [replyA; spamNoteA]).
  - constructor.
  - simpl. lia.
  - simpl. lia.
  - repeat split; eexists; (split; [vm_compute; reflexivity|split; reflexivity]).
Defined.

(** The body [null] on the first page: a search throws at [data.results],
    a list is empty. *)
Remark null_body_on_first_page :
  fetchPaginatedFreshdeskAPI noMessage nullServer searchEndpoint 300
  = Throw (nullProperty "results") /\
  fetchPaginatedFreshdeskAPI noMessage nullServer listEndpoint 300 = Ok [].
Proof. split; vm_compute; reflexivity. Qed.

End FetchSamples.

Section ReportSamples.
Import LogicUtils Samples.

Local Abbreviation sampleReport :=
  (calculateAllAgentActivity utc agentsAB windowStart windowEnd groupsD [ticket100; ticket200]).

(** Agent B, to whom ticket #200 is assigned, has written nothing that
    qualifies and is not listed; Agent A is, with one ticket. *)
Lemma listed_agents_worked_witness :
  Forall (fun s => 1 <= AgentActivitySummary.ticketCount s) sampleReport.
Proof.
  apply Forall_forall. intros s Hs.
  apply (listed_agents_worked utc agentsAB windowStart windowEnd groupsD
           [ticket100; ticket200] s). exact Hs.
Defined.

(** The note of the automation on ticket #200 mentions "system". *)
Lemma no_activity_no_report_witness :
  calculateAllAgentActivity utc agentsAB windowStart windowEnd groupsD [ticket200] = [].
Proof.
  apply (no_activity_no_report utc agentsAB windowStart windowEnd groupsD [ticket200]).
  intros tk c Htk Hc.
  apply list_elem_of_In in Htk. simpl in Htk. destruct Htk as [<-|[]].
  apply list_elem_of_In in Hc. simpl in Hc. destruct Hc as [<-|[]].
  vm_compute. reflexivity.
Defined.

Lemma worked_counts_witness :
  Forall (fun s =>
            total AgentGroupStat.worked (AgentActivitySummary.groupStats s)
            = Z.of_nat (length (List.filter
                                  (workedOn agentsAB windowStart windowEnd
                                     (AgentActivitySummary.agentId s))
                                  [ticket100; ticket200])) /\
            AgentActivitySummary.ticketCount s
            = Z.of_nat (size (list_to_set
                                (map Ticket.id
                                   (List.filter
                                      (workedOn agentsAB windowStart windowEnd
                                         (AgentActivitySummary.agentId s))
                                      [ticket100; ticket200])) : gset Z)) /\
            (NoDup (map Ticket.id [ticket100; ticket200]) ->
             AgentActivitySummary.ticketCount s
             = Z.of_nat (length (List.filter
                                   (workedOn agentsAB windowStart windowEnd
                                      (AgentActivitySummary.agentId s))
                                   [ticket100; ticket200]))))
         sampleReport.
Proof.
  apply Forall_forall. intros s Hs.
  apply (worked_counts utc agentsAB windowStart windowEnd groupsD [ticket100; ticket200] s).
  exact Hs.
Defined.

Lemma daily_breakdown_adds_up_witness :
  Forall (fun s =>
            total DailyAgentStats.totalResponses (AgentActivitySummary.dailyBreakdown s)
            = AgentActivitySummary.totalResponses s /\
            total DailyAgentStats.totalActions (AgentActivitySummary.dailyBreakdown s)
            = AgentActivitySummary.totalActions s /\
            total DailyAgentStats.totalClosed (AgentActivitySummary.dailyBreakdown s)
            = AgentActivitySummary.totalClosed s /\
            total DailyAgentStats.totalAgentActivity (AgentActivitySummary.dailyBreakdown s)
            = AgentActivitySummary.totalAgentActivity s)
         sampleReport.
Proof.
  apply Forall_forall. intros s Hs.
  apply (daily_breakdown_adds_up utc agentsAB windowStart windowEnd groupsD
           [ticket100; ticket200] s). exact Hs.
Defined.

(** Agent A spent between 7 and 11 minutes on ticket #100; the day shows the
    closure alone, between 1 and 2 minutes. *)
Lemma daily_estimate_counts_closures_witness :
  Forall (fun s =>
            Forall (fun day =>
                      DailyAgentStats.totalMin day = DailyAgentStats.totalClosed day /\
                      DailyAgentStats.totalMax day = ceil15 (DailyAgentStats.totalClosed day))
                   (AgentActivitySummary.dailyBreakdown s))
         sampleReport.
Proof.
  apply Forall_forall. intros s Hs. apply Forall_forall. intros day Hday.
  apply (daily_estimate_counts_closures utc agentsAB windowStart windowEnd groupsD
           [ticket100; ticket200] s day); [exact Hs|exact Hday].
Defined.

Lemma group_closures_add_up_witness :
  Forall (fun s =>
            total AgentGroupStat.closed (AgentActivitySummary.groupStats s)
            = AgentActivitySummary.totalClosed s /\
            Forall (fun g => AgentGroupStat.total g
                             = AgentGroupStat.worked g + AgentGroupStat.closed g)
                   (AgentActivitySummary.groupStats s))
         sampleReport.
Proof.
  apply Forall_forall. intros s Hs.
  apply (group_closures_add_up utc agentsAB windowStart windowEnd groupsD
           [ticket100; ticket200] s). exact Hs.
Defined.

Lemma activity_ratios_share_total_witness :
  Forall (fun s =>
            AgentActivitySummary.activityRatio s
            = Of (AgentActivitySummary.ticketCount s)
                 (total AgentActivitySummary.ticketCount sampleReport))
         sampleReport.
Proof.
  apply Forall_forall. intros s Hs.
  apply (activity_ratios_share_total utc agentsAB windowStart windowEnd groupsD
           [ticket100; ticket200] s). exact Hs.
Defined.

(** The only day of Agent A in the sample is 2024-01-01. *)
Lemma daily_breakdown_in_date_order_witness :
  Forall (fun s =>
            StronglySorted
              (fun a b => Js.strLe (DailyAgentStats.date a) (DailyAgentStats.date b) = true)
              (AgentActivitySummary.dailyBreakdown s) /\
            NoDup (map DailyAgentStats.date (AgentActivitySummary.dailyBreakdown s)))
         sampleReport.
Proof.
  apply Forall_forall. intros s Hs.
  apply (daily_breakdown_in_date_order utc agentsAB windowStart windowEnd groupsD
           [ticket100; ticket200] s). exact Hs.
Defined.

(** The subject of ticket #100 in capitals. *)
Lemma category_ignores_case_witness :
  autoCategorizeTicket ticket100 = autoCategorizeTicket shouted100.
Proof.
  apply (category_ignores_case ticket100 shouted100); reflexivity.
Defined.

(** White space and letters beyond ASCII: a no-break space at the end of a
    group name is trimmed, accented letters change case, and the escape of
    an accented letter in a URL is that of its two bytes in UTF-8. *)
Remark one_byte_characters :
  cleanGroupName ("Diesel" ++ nbsp) = "Diesel"%string /\
  cleanGroupName nbsp = "Other"%string /\
  Js.toUpperCase ("Jos" ++ eAcute) = [74; 79; 83; 201]%N /\
  Js.toUpperCase sharpS = [83; 83]%N /\
  Js.toLowerCase ("CAF" ++ capitalEAcute) = ("caf" ++ eAcute)%string /\
  Js.encodeURIComponent ("caf" ++ eAcute ++ " au lait") = "caf%C3%A9%20au%20lait"%string /\
  Js.formEncode ("caf" ++ eAcute ++ " au lait") = "caf%C3%A9+au+lait"%string.
Proof. repeat split; vm_compute; reflexivity. Qed.

End ReportSamples.

Section CacheSamples.
Import CacheService Samples.

(** The thread of ticket #100, cached at 1704070000000: it is served for the
    ticket as updated at 1704069000000, and dropped for the ticket as updated
    at 1704071000000. *)
Lemma cache_round_trip_witness :
  getCachedConversations 100 1704069000000
    (cacheConversations roomy 100 1704069000000 [replyA; spamNoteA]
       1704070000000 1704070000001 ∅)
  = (Some [replyA; spamNoteA],
     cacheConversations roomy 100 1704069000000 [replyA; spamNoteA]
       1704070000000 1704070000001 ∅) /\
  fst (getCachedConversations 100 1704071000000
         (cacheConversations roomy 100 1704069000000 [replyA; spamNoteA]
            1704070000000 1704070000001 ∅)) = None /\
  fst (getCachedConversations 100 1704069000000
         (snd (getCachedConversations 100 1704071000000
                 (cacheConversations roomy 100 1704069000000 [replyA; spamNoteA]
                    1704070000000 1704070000001 ∅)))) = None.
Proof.
  destruct (cache_round_trip roomy 100 1704069000000 1704069000000
              1704070000000 1704070000001 1704069000000 [replyA; spamNoteA] ∅ eq_refl)
    as [Hfresh _].
  destruct (cache_round_trip roomy 100 1704069000000 1704071000000
              1704070000000 1704070000001 1704069000000 [replyA; spamNoteA] ∅ eq_refl)
    as [_ Hstale].
  split; [apply Hfresh; lia|apply Hstale; lia].
Defined.

(** Caching the thread of ticket #100 beside that of ticket #200. *)
Lemma cache_keeps_other_tickets_witness :
  fst (getCachedConversations 200 1704071000000
         (cacheConversations roomy 100 1704069000000 [replyA; spamNoteA]
            1704072000000 1704072000001 oneThread))
  = fst (getCachedConversations 200 1704071000000 oneThread).
Proof.
  apply (cache_keeps_other_tickets roomy 100 200); [lia|reflexivity].
Defined.

(** The storage takes no second entry: the thread of ticket #200 is gone
    once that of ticket #100 is cached. *)
Lemma cache_quota_clears_witness :
  cacheConversations crowded 100 1704069000000 [replyA; spamNoteA]
    1704072000000 1704072000001 oneThread !! convKey 200 = None.
Proof.
  apply (cache_quota_clears crowded 100 1704069000000 1704072000000 1704072000001
           [replyA; spamNoteA] oneThread "QuotaExceededError" (convKey 200)).
  - vm_compute. reflexivity.
  - reflexivity.
  - intros H. vm_compute in H. discriminate.
Defined.

End CacheSamples.
